(** * Smart PR review pipeline: a shallow embedding and its properties

    The development embeds the decision logic of the scripts of the
    repository,

    - [test-repo/scripts/review_pr.py]  (class [SmartCodeReviewer]),
    - [test-repo/scripts/tag_mr.py]     (class [IntelligentTagger]),
    - [test-repo/scripts/generate_changelog.py]
      (class [ChangelogGenerator], method [categorize_changes]),
    - [scripts/review_pr.py] (its start-up check),

    and proves properties of it.

    Conventions of the embedding:

    - Python values that come out of [json.loads] are dynamically
      typed: they are values of the type [json], and an operation on
      them returns [option], [None] standing for the exception Python
      raises.
    - What lies outside the process is an explicit parameter: the file
      system, git, the language model and [json.loads] are the fields
      of a record [World]; the GitLab host is a state with one function
      per request.
    - The patterns given to [re] are syntax trees, matched by a
      backtracking search that follows the order of [re]; the search is
      checked against the language of the pattern.
    - [list(s)] for a set [s] has no fixed order in Python: it is any
      enumeration of the set.
    - Strings are over 8-bit characters ([string] of the Standard
      Library); [str.lower] and [re.IGNORECASE] fold the letters A-Z.
    - The text of the prompt is reduced to its variable parts, and the
      posting of the summary comment, which changes no result, is left
      out. *)

From Stdlib Require Import String Ascii List ZArith QArith Bool Lia.
From stdpp Require Import base option list strings gmap sorting.

Set Warnings "-register-all".

(** ** Python strings *)

Module PyStr.

Definition newline : ascii := "010"%char.
Definition dquote : ascii := "034"%char.
Definition squote : ascii := "'"%char.

Definition is_upper (c : ascii) : bool :=
  let n := nat_of_ascii c in (65 <=? n) && (n <=? 90).

Definition ascii_lower (c : ascii) : ascii :=
  if is_upper c then ascii_of_nat (nat_of_ascii c + 32) else c.

(** [s.lower()] *)
Fixpoint lower (s : string) : string :=
  match s with
  | EmptyString => EmptyString
  | String c t => String (ascii_lower c) (lower t)
  end.

(** [s.startswith(p)] *)
Definition startswith (s p : string) : bool := String.prefix p s.

(** [s.endswith(p)] *)
Definition endswith (s p : string) : bool :=
  let n := String.length s in
  let m := String.length p in
  (m <=? n) && String.eqb (String.substring (n - m) m s) p.

(** [s.endswith((p1, p2, ...))] with a tuple of suffixes *)
Definition endswith_any (s : string) (ps : list string) : bool :=
  existsb (endswith s) ps.

(** [needle in hay] on strings *)
Fixpoint contains (needle hay : string) : bool :=
  String.prefix needle hay ||
  match hay with
  | EmptyString => false
  | String _ t => contains needle t
  end.

(** [s[:n]] *)
Definition take (n : nat) (s : string) : string := String.substring 0 n s.

(** [s[n:]] *)
Fixpoint drop (n : nat) (s : string) : string :=
  match n, s with
  | S k, String _ t => drop k t
  | _, _ => s
  end.

(** [s.count('\n')] *)
Fixpoint count_newlines (s : string) : nat :=
  match s with
  | EmptyString => 0
  | String c t => (if Ascii.eqb c newline then 1 else 0) + count_newlines t
  end.

(** [s.replace(c, r)] for a one-character [c] *)
Fixpoint replace_char (c : ascii) (r : string) (s : string) : string :=
  match s with
  | EmptyString => EmptyString
  | String a t =>
      if Ascii.eqb a c then r +:+ replace_char c r t
      else String a (replace_char c r t)
  end.

(** [s.split(sep)] for a one-character [sep] *)
Fixpoint split_on (sep : ascii) (s : string) : list string :=
  match s with
  | EmptyString => [EmptyString]
  | String c t =>
      if Ascii.eqb c sep then EmptyString :: split_on sep t
      else match split_on sep t with
           | h :: r => String c h :: r
           | [] => [String c EmptyString]
           end
  end.

(** [s.lstrip('.')] *)
Fixpoint lstrip_dots (s : string) : string :=
  match s with
  | String c t => if Ascii.eqb c "."%char then lstrip_dots t else s
  | EmptyString => EmptyString
  end.

(** [s.rfind('.')], [None] for -1 *)
Fixpoint rfind_dot (s : string) : option nat :=
  match s with
  | EmptyString => None
  | String c t =>
      match rfind_dot t with
      | Some i => Some (S i)
      | None => if Ascii.eqb c "."%char then Some 0 else None
      end
  end.

(** [Path(p).name]: the last component of the path, empty and [.]
    components dropped as [pathlib] does when it parses a POSIX path. *)
Definition path_name (p : string) : string :=
  List.last
    (List.filter
       (fun part => negb (String.eqb part "") && negb (String.eqb part "."))
       (split_on "/"%char p))
    EmptyString.

(** [Path(p).suffix] ([pathlib] of CPython 3.8 to 3.13):
    [i = name.rfind('.')]; the suffix is [name[i:]] when
    [0 < i < len(name) - 1] and empty otherwise. *)
Definition path_suffix (p : string) : string :=
  let name := path_name p in
  match rfind_dot name with
  | Some i =>
      if (0 <? i) && (i <? String.length name - 1) then drop i name
      else EmptyString
  | None => EmptyString
  end.

End PyStr.

(** ** JSON values and Python dictionaries *)

Module Json.

(** What [json.loads] returns.  A [float] is kept as a rational: only
    whether it is zero matters below. *)
Inductive json : Type :=
| JNull
| JBool (b : bool)
| JInt (z : Z)
| JFloat (q : Q)
| JStr (s : string)
| JArr (l : list json)
| JObj (kv : list (string * json)).

(** A [dict] with string keys, in insertion order. *)
Definition pydict : Type := list (string * json).

(** Python truth value of a JSON value: [bool(v)] *)
Definition truthy (v : json) : bool :=
  match v with
  | JNull => false
  | JBool b => b
  | JInt z => negb (Z.eqb z 0)
  | JFloat q => negb (Z.eqb (Qnum q) 0)
  | JStr s => negb (String.eqb s "")
  | JArr l => match l with [] => false | _ => true end
  | JObj kv => match kv with [] => false | _ => true end
  end.

(** [d.get(k)]: [None] stands for Python's [None] default. *)
Fixpoint dict_get (k : string) (d : pydict) : option json :=
  match d with
  | [] => None
  | (k', v) :: t => if String.eqb k' k then Some v else dict_get k t
  end.

(** [d.get(k, dflt)] *)
Definition dict_get_default (k : string) (dflt : json) (d : pydict) : json :=
  match dict_get k d with
  | Some v => v
  | None => dflt
  end.

(** [d[k] = v]: replaces the value in place, or appends a new key. *)
Fixpoint dict_set (k : string) (v : json) (d : pydict) : pydict :=
  match d with
  | [] => [(k, v)]
  | (k', v') :: t =>
      if String.eqb k' k then (k', v) :: t else (k', v') :: dict_set k v t
  end.

(** Truth value of [d.get(k)], where a missing key gives [None]. *)
Definition get_truthy (k : string) (d : pydict) : bool :=
  match dict_get k d with
  | Some v => truthy v
  | None => false
  end.

(** [len(v)]; [None] is the [TypeError] of a value without length. *)
Definition py_len (v : json) : option nat :=
  match v with
  | JStr s => Some (String.length s)
  | JArr l => Some (length l)
  | JObj kv => Some (length kv)
  | _ => None
  end.

(** [for x in v]: the items iteration yields; [None] is the [TypeError]
    of a value that is not iterable.  A string yields its characters, a
    dictionary its keys. *)
Definition py_iter (v : json) : option (list json) :=
  match v with
  | JArr l => Some l
  | JStr s =>
      Some (List.map (fun c => JStr (String c EmptyString))
                     (list_ascii_of_string s))
  | JObj kv => Some (List.map (fun p => JStr (fst p)) kv)
  | _ => None
  end.

(** [v.get(k)] on an arbitrary value: only a dictionary has the method,
    [None] is the [AttributeError] of the others. *)
Definition py_get (k : string) (v : json) : option (option json) :=
  match v with
  | JObj kv => Some (dict_get k kv)
  | _ => None
  end.

(** [v == s] for a string literal [s] *)
Definition eq_str (v : option json) (s : string) : bool :=
  match v with
  | Some (JStr s') => String.eqb s' s
  | _ => false
  end.

(** The message of the [TypeError] raised by [v["file"] = ...] when [v]
    is not a dictionary. *)
Definition setitem_error (v : json) : string :=
  match v with
  | JArr _ => "list indices must be integers or slices, not str"
  | JStr _ => "'str' object does not support item assignment"
  | JInt _ => "'int' object does not support item assignment"
  | JFloat _ => "'float' object does not support item assignment"
  | JBool _ => "'bool' object does not support item assignment"
  | JNull => "'NoneType' object does not support item assignment"
  | JObj _ => ""
  end.

End Json.

(** ** Regular expressions

    The fragment of Python's [re] the scripts use: literal characters,
    [.], [\s], bracketed sets and their complements, greedy [*] and [+]
    over a single character class, concatenation and ordered
    alternation.  Matching is the backtracking search of [re]: [*] and
    [+] take as many characters as they can and give them back one at a
    time, alternatives are tried left to right. *)

Module Re.

Inductive cclass : Type :=
| CLit (c : ascii)            (* a literal character *)
| CDot                        (* [.]: any character but a newline *)
| CSpace                      (* [\s] *)
| CSet (cs : list ascii)      (* [[...]] *)
| CNotSet (cs : list ascii).  (* [[^...]] *)

Inductive regex : Type :=
| Eps
| Cls (c : cclass)
| Star (c : cclass)
| Plus (c : cclass)
| Seq (r1 r2 : regex)
| Alt (r1 r2 : regex).

(** The white space of ASCII: what [\s], [str.strip] and [str.isspace]
    accept among the characters below 128.  Python counts some
    characters beyond ASCII as white space too (U+0085, U+00A0 and
    others); a text that holds one of these is outside the model. *)
Definition is_space (a : ascii) : bool :=
  let n := nat_of_ascii a in
  ((9 <=? n) && (n <=? 13)) || ((28 <=? n) && (n <=? 32)).

(** Equality of characters, up to case under [re.IGNORECASE]. *)
Definition char_eq (icase : bool) (a b : ascii) : bool :=
  if icase then Ascii.eqb (PyStr.ascii_lower a) (PyStr.ascii_lower b)
  else Ascii.eqb a b.

Definition cc_match (icase : bool) (c : cclass) (a : ascii) : bool :=
  match c with
  | CLit b => char_eq icase a b
  | CDot => negb (Ascii.eqb a PyStr.newline)
  | CSpace => is_space a
  | CSet cs => existsb (char_eq icase a) cs
  | CNotSet cs => negb (existsb (char_eq icase a) cs)
  end.

(** [c*] followed by the continuation [k]: the longest run first. *)
Fixpoint star_k (icase : bool) (c : cclass) (s : string)
    (k : string -> option string) : option string :=
  match s with
  | String a t =>
      if cc_match icase c a then
        match star_k icase c t k with
        | Some rest => Some rest
        | None => k s
        end
      else k s
  | EmptyString => k s
  end.

(** [match_k icase r s k]: match [r] at the start of [s], then run [k]
    on what is left; the result is what is left after the whole match. *)
Fixpoint match_k (icase : bool) (r : regex) (s : string)
    (k : string -> option string) : option string :=
  match r with
  | Eps => k s
  | Cls c =>
      match s with
      | String a t => if cc_match icase c a then k t else None
      | EmptyString => None
      end
  | Star c => star_k icase c s k
  | Plus c =>
      match s with
      | String a t => if cc_match icase c a then star_k icase c t k else None
      | EmptyString => None
      end
  | Seq r1 r2 => match_k icase r1 s (fun s' => match_k icase r2 s' k)
  | Alt r1 r2 =>
      match match_k icase r1 s k with
      | Some rest => Some rest
      | None => match_k icase r2 s k
      end
  end.

(** [re.match(r, s)]: a match anchored at offset 0; the result is the
    length of the match. *)
Definition match_at (icase : bool) (r : regex) (s : string) : option nat :=
  match match_k icase r s Some with
  | Some rest => Some (String.length s - String.length rest)
  | None => None
  end.

(** [re.finditer(r, s)], as the list of the offsets where the matches
    start: the string is scanned left to right, a match is looked for at
    each offset, and the scan resumes where the match ended.  [skip]
    counts the characters of the last match still to be passed over.
    Exact for a pattern that does not match the empty string. *)
Fixpoint finditer_from (icase : bool) (r : regex) (s : string)
    (pos skip : nat) : list nat :=
  match s with
  | EmptyString => []
  | String _ t =>
      match skip with
      | S n => finditer_from icase r t (S pos) n
      | O =>
          match match_at icase r s with
          | Some len => pos :: finditer_from icase r t (S pos) (len - 1)
          | None => finditer_from icase r t (S pos) 0
          end
      end
  end.

Definition finditer (icase : bool) (r : regex) (s : string) : list nat :=
  finditer_from icase r s 0 0.

(** Builders for the patterns. *)
Fixpoint lit (s : string) : regex :=
  match s with
  | EmptyString => Eps
  | String c EmptyString => Cls (CLit c)
  | String c t => Seq (Cls (CLit c)) (lit t)
  end.

Fixpoint seqs (rs : list regex) : regex :=
  match rs with
  | [] => Eps
  | [r] => r
  | r :: t => Seq r (seqs t)
  end.

Fixpoint alts (rs : list regex) (last : regex) : regex :=
  match rs with
  | [] => last
  | r :: t => Alt r (alts t last)
  end.

(** The text of a regular expression made of ordinary characters, [.]
    and [.*] only, read as [re.compile] reads it; [None] when the text
    has another special character (outside the fragment modelled). *)
Definition is_special (c : ascii) : bool :=
  existsb (Ascii.eqb c)
    (list_ascii_of_string "\^$*+?{}[]|()").

Fixpoint parse_simple (s : string) : option regex :=
  match s with
  | EmptyString => Some Eps
  | String c t =>
      if Ascii.eqb c "."%char then
        match t with
        | String c' t' =>
            if Ascii.eqb c' "*"%char then
              option_map (Seq (Star CDot)) (parse_simple t')
            else option_map (Seq (Cls CDot)) (parse_simple t)
        | EmptyString => Some (Cls CDot)
        end
      else if is_special c then None
      else option_map (Seq (Cls (CLit c))) (parse_simple t)
  end.

(** The least number of characters a match of the pattern takes. *)
Fixpoint min_len (r : regex) : nat :=
  match r with
  | Eps | Star _ => 0
  | Cls _ | Plus _ => 1
  | Seq r1 r2 => min_len r1 + min_len r2
  | Alt r1 r2 => Nat.min (min_len r1) (min_len r2)
  end.

(** The strings a pattern denotes, independently of the search: the
    reference against which [match_k] is checked below. *)
Inductive lang (icase : bool) : regex -> string -> Prop :=
| lang_eps : lang icase Eps EmptyString
| lang_cls c a :
    cc_match icase c a = true -> lang icase (Cls c) (String a EmptyString)
| lang_star_nil c : lang icase (Star c) EmptyString
| lang_star_cons c a m :
    cc_match icase c a = true -> lang icase (Star c) m ->
    lang icase (Star c) (String a m)
| lang_plus c a m :
    cc_match icase c a = true -> lang icase (Star c) m ->
    lang icase (Plus c) (String a m)
| lang_seq r1 r2 m1 m2 :
    lang icase r1 m1 -> lang icase r2 m2 ->
    lang icase (Seq r1 r2) (m1 +:+ m2)
| lang_alt_l r1 r2 m : lang icase r1 m -> lang icase (Alt r1 r2) m
| lang_alt_r r1 r2 m : lang icase r2 m -> lang icase (Alt r1 r2) m.

End Re.

(** ** [review_pr.py]: the security scanner *)

Module Scanner.

(** One entry of the list [analyze_security_issues] returns: the
    dictionary with the keys [file], [line], [category], [description]
    and [severity]. *)
Record SecurityFinding : Type := {
  sf_file : string;
  sf_line : nat;
  sf_category : string;
  sf_description : string;
  sf_severity : string
}.

Definition quote_set : Re.cclass := Re.CSet [PyStr.dquote; PyStr.squote].
Definition not_quote : Re.cclass := Re.CNotSet [PyStr.dquote; PyStr.squote].

(** The tail shared by the three secret patterns, [\s*=\s*[Q][^Q]+[Q]],
    where [Q] stands for the two quote characters (double and single). *)
Definition assigned_literal : list Re.regex :=
  [Re.Star Re.CSpace; Re.lit "="; Re.Star Re.CSpace;
   Re.Cls quote_set; Re.Plus not_quote; Re.Cls quote_set].

(** [(password|pwd|pass)\s*=\s*[Q][^Q]+[Q]] *)
Definition password_pattern : Re.regex :=
  Re.seqs (Re.alts [Re.lit "password"; Re.lit "pwd"] (Re.lit "pass")
           :: assigned_literal).

(** [(api_key|apikey|secret|token)\s*=\s*[Q][^Q]+[Q]] *)
Definition token_pattern : Re.regex :=
  Re.seqs (Re.alts [Re.lit "api_key"; Re.lit "apikey"; Re.lit "secret"]
                   (Re.lit "token")
           :: assigned_literal).

(** [(SECRET_KEY|API_KEY)\s*=\s*[Q][^Q]+[Q]] *)
Definition key_pattern : Re.regex :=
  Re.seqs (Re.alts [Re.lit "SECRET_KEY"] (Re.lit "API_KEY")
           :: assigned_literal).

(** [execute\s*\(\s*[Q].*%s.*[Q]] *)
Definition execute_format_pattern : Re.regex :=
  Re.seqs [Re.lit "execute"; Re.Star Re.CSpace; Re.lit "(";
           Re.Star Re.CSpace; Re.Cls quote_set; Re.Star Re.CDot;
           Re.lit "%s"; Re.Star Re.CDot; Re.Cls quote_set].

(** [cursor\.execute\s*\(\s*[Q].*\+.*[Q]] *)
Definition execute_concat_pattern : Re.regex :=
  Re.seqs [Re.lit "cursor.execute"; Re.Star Re.CSpace; Re.lit "(";
           Re.Star Re.CSpace; Re.Cls quote_set; Re.Star Re.CDot;
           Re.lit "+"; Re.Star Re.CDot; Re.Cls quote_set].

(** [innerHTML\s*=\s*.*\+] *)
Definition inner_html_pattern : Re.regex :=
  Re.seqs [Re.lit "innerHTML"; Re.Star Re.CSpace; Re.lit "=";
           Re.Star Re.CSpace; Re.Star Re.CDot; Re.lit "+"].

(** [document\.write\s*\(] *)
Definition document_write_pattern : Re.regex :=
  Re.seqs [Re.lit "document.write"; Re.Star Re.CSpace; Re.lit "("].

(** The table [security_patterns], in the order of the dictionary. *)
Definition security_patterns : list (string * list Re.regex) :=
  [("hardcoded_secrets", [password_pattern; token_pattern; key_pattern]);
   ("sql_injection", [execute_format_pattern; execute_concat_pattern]);
   ("xss_vulnerability", [inner_html_pattern; document_write_pattern])].

(** [content[:start].count('\n') + 1] *)
Definition line_num (content : string) (start : nat) : nat :=
  PyStr.count_newlines (PyStr.take start content) + 1.

(** The dictionary appended for one match. *)
Definition finding (file_path content category : string) (start : nat)
    : SecurityFinding :=
  {| sf_file := file_path;
     sf_line := line_num content start;
     sf_category := category;
     sf_description :=
       "Potential " +:+ PyStr.replace_char "_"%char " " category
       +:+ " detected";
     sf_severity :=
       if String.eqb category "hardcoded_secrets" then "high" else "medium" |}.

(** The findings of one pattern: one per match of
    [re.finditer(pattern, content, re.IGNORECASE)]. *)
Definition pattern_findings (file_path content category : string)
    (pattern : Re.regex) : list SecurityFinding :=
  List.map (finding file_path content category)
           (Re.finditer true pattern content).

Definition analyze_security_issues (file_path content : string)
    : list SecurityFinding :=
  List.flat_map
    (fun entry =>
       List.flat_map (pattern_findings file_path content (fst entry))
                     (snd entry))
    security_patterns.

(** The finding as a JSON object, the form in which it is stored in a
    review result. *)
Definition finding_json (f : SecurityFinding) : Json.json :=
  Json.JObj
    [("file", Json.JStr (sf_file f));
     ("line", Json.JInt (Z.of_nat (sf_line f)));
     ("category", Json.JStr (sf_category f));
     ("description", Json.JStr (sf_description f));
     ("severity", Json.JStr (sf_severity f))].

End Scanner.

(** ** Python sets of strings *)

Module PySet.

(** [list(s)] for a set [s]: Python fixes no order (it follows the
    hashes of the strings, which change from one process to the next),
    so any list that holds each element of the set once may come out. *)
Definition enumerates (s : gset string) (l : list string) : Prop :=
  NoDup l ∧ ∀ x, x ∈ l ↔ x ∈ s.

(** [sorted(l)] on strings *)
Definition py_sorted (l : list string) : list string :=
  merge_sort String.le l.

(** [x in xs] for a string and a list of strings *)
Definition str_in (x : string) (xs : list string) : bool :=
  existsb (String.eqb x) xs.

End PySet.

(** ** [review_pr.py]: class [SmartCodeReviewer] *)

Module Reviewer.
Import Json Scanner PySet.

(** How a start-up ends: the object is built, or [sys.exit(code)]. *)
Inductive Startup (T : Type) : Type :=
| Started (obj : T)
| Exit (code : Z).
Arguments Started {T} obj.
Arguments Exit {T} code.

(** [not v] for the result of [os.environ.get(name)]: an unset variable
    and an empty one are both false. *)
Definition env_set (v : option string) : bool :=
  match v with
  | Some s => negb (String.eqb s "")
  | None => false
  end.

(** The part of [self.config] the code reads. *)
Record Config : Type := {
  max_file_size : Z;
  ignore_patterns : list string
}.

Definition default_config : Config :=
  {| max_file_size := 50000%Z;
     ignore_patterns := [".git/*"; "node_modules/*"; "*.min.js"; "*.bundle.js"] |}.

(** The attributes of a [SmartCodeReviewer]. *)
Record SmartCodeReviewer : Type := {
  gemini_api_key : option string;
  gitlab_token : option string;
  project_id : option string;
  merge_request_iid : option string;
  review_results : list pydict;
  security_issues : list SecurityFinding;
  config : Config
}.

(** [__init__]: only [LLM_API_KEY] is checked.  [cfg] is what
    [load_config] returns. *)
Definition init (environ : gmap string string) (cfg : Config)
    : Startup SmartCodeReviewer :=
  if negb (env_set (environ !! "LLM_API_KEY")) then Exit 1
  else Started
    {| gemini_api_key := environ !! "LLM_API_KEY";
       gitlab_token := environ !! "GITLAB_PAT";
       project_id := environ !! "CI_PROJECT_ID";
       merge_request_iid := environ !! "CI_MERGE_REQUEST_IID";
       review_results := [];
       security_issues := [];
       config := cfg |}.

(** The variable parts of the text [create_review_prompt] builds; the
    fixed instructions around them are left out. *)
Record Prompt : Type := {
  p_file : string;
  p_language : string;
  p_diff : string;
  p_excerpt : string
}.

Definition create_review_prompt (file_path diff content : string) : Prompt :=
  {| p_file := file_path;
     p_language := PyStr.lstrip_dots (PyStr.path_suffix file_path);
     p_diff := diff;
     p_excerpt :=
       PyStr.take 3000 content
       +:+ (if 3000 <? String.length content then "..." else "") |}.

(** What [self.model.generate_content(prompt)] followed by
    [response.text] gives: the text, or an exception with its message. *)
Inductive Reply : Type :=
| ReplyText (text : string)
| ReplyError (message : string).

(** Everything outside the process. *)
Record World : Type := {
  (** [Path(p).exists()] and [Path(p).stat().st_size]: [None] for a
      path that does not exist *)
  fs_size : string -> option Z;
  (** [open(p).read()]; [None] when it raises *)
  fs_read : string -> option string;
  (** the stripped, non-empty lines of [git diff --name-only];
      [None] when the call raises *)
  git_changed : option (list string);
  (** the output of [git diff -- p]; [None] when the call raises *)
  git_diff : string -> option string;
  generate_content : Prompt -> Reply;
  (** [json.loads]; [None] is [json.JSONDecodeError] *)
  json_loads : string -> option json
}.

(** The loop over [ignore_patterns] of [should_review_file]:
    [Some true] when a pattern matches (the function returns [False]
    there, later patterns are not looked at), [Some false] when none
    does, and [None] when the loop meets a pattern outside the fragment
    of [Re.parse_simple]: the model says nothing about such a
    configuration, and the functions below pass the [None] on the way
    an exception of [re] would travel. *)
Fixpoint ignored (patterns : list string) (file_path : string) : option bool :=
  match patterns with
  | [] => Some false
  | pattern :: rest =>
      match Re.parse_simple (PyStr.replace_char "*"%char ".*" pattern) with
      | None => None
      | Some r =>
          match Re.match_at false r file_path with
          | Some _ => Some true
          | None => ignored rest file_path
          end
      end
  end.

Definition code_extensions : list string :=
  [".py"; ".js"; ".jsx"; ".ts"; ".tsx"; ".java"; ".go"; ".rs";
   ".cpp"; ".c"; ".h"; ".cs"; ".php"; ".rb"; ".swift"; ".kt"].

Definition is_code_file (file_path : string) : bool :=
  str_in (PyStr.lower (PyStr.path_suffix file_path)) code_extensions.

Definition should_review_file (w : World) (cfg : Config) (file_path : string)
    : option bool :=
  match ignored (ignore_patterns cfg) file_path with
  | None => None
  | Some true => Some false
  | Some false =>
      match fs_size w file_path with
      | Some file_size =>
          if (max_file_size cfg <? file_size)%Z then Some false
          else Some (is_code_file file_path)
      | None => Some (is_code_file file_path)
      end
  end.

(** The filtering loop of [get_changed_files]; [None] is an exception. *)
Fixpoint filter_files (w : World) (cfg : Config) (files : list string)
    : option (list string) :=
  match files with
  | [] => Some []
  | file :: rest =>
      match should_review_file w cfg file with
      | None => None
      | Some keep =>
          match filter_files w cfg rest with
          | None => None
          | Some kept => Some (if keep then file :: kept else kept)
          end
      end
  end.

(** [get_changed_files]: any exception gives the empty list.  The
    [None] of a pattern outside the fragment of [Re.parse_simple] ends
    here as an exception would, although [re] may accept the pattern:
    only a configuration whose patterns are all in the fragment, as the
    default ones are, is modelled. *)
Definition get_changed_files (w : World) (cfg : Config) : list string :=
  match git_changed w with
  | None => []
  | Some files =>
      match filter_files w cfg files with
      | Some kept => kept
      | None => []
      end
  end.

Definition error_result (file_path message : string) : pydict :=
  [("file", JStr file_path); ("error", JStr message)].

(** The dictionary returned when [json.loads] rejects the reply. *)
Definition parse_failure (file_path text : string) : pydict :=
  [("file", JStr file_path);
   ("error", JStr "Failed to parse AI response");
   ("raw_response", JStr text)].

Definition extend_security (st : SmartCodeReviewer)
    (found : list SecurityFinding) : SmartCodeReviewer :=
  {| gemini_api_key := gemini_api_key st;
     gitlab_token := gitlab_token st;
     project_id := project_id st;
     merge_request_iid := merge_request_iid st;
     review_results := review_results st;
     security_issues := security_issues st ++ found;
     config := config st |}.

Definition append_result (st : SmartCodeReviewer) (r : pydict)
    : SmartCodeReviewer :=
  {| gemini_api_key := gemini_api_key st;
     gitlab_token := gitlab_token st;
     project_id := project_id st;
     merge_request_iid := merge_request_iid st;
     review_results := review_results st ++ [r];
     security_issues := security_issues st;
     config := config st |}.

(** [review_file]: the dictionary returned and the reviewer after the
    call ([self.security_issues] may have grown). *)
Definition review_file (w : World) (st : SmartCodeReviewer)
    (file_path : string) : pydict * SmartCodeReviewer :=
  match fs_read w file_path with
  | None | Some EmptyString =>
      (error_result file_path "Could not read file", st)
  | Some content =>
      match git_diff w file_path with
      | None | Some EmptyString =>
          (error_result file_path "No changes detected", st)
      | Some diff =>
          let found := analyze_security_issues file_path content in
          let st' := extend_security st found in
          match generate_content w
                  (create_review_prompt file_path diff content) with
          | ReplyError message => (error_result file_path message, st')
          | ReplyText text =>
              match json_loads w text with
              | None => (parse_failure file_path text, st')
              | Some (JObj review_data) =>
                  (dict_set "security_issues"
                     (JArr (List.map finding_json found))
                     (dict_set "file" (JStr file_path) review_data), st')
              | Some other =>
                  (error_result file_path (setitem_error other), st')
              end
          end
      end
  end.

(** The loop of [run] over the changed files: each file is reviewed and
    its result appended to [self.review_results]. *)
Fixpoint review_all (w : World) (st : SmartCodeReviewer)
    (changed_files : list string) : SmartCodeReviewer :=
  match changed_files with
  | [] => st
  | file_path :: rest =>
      let '(review_result, st') := review_file w st file_path in
      review_all w (append_result st' review_result) rest
  end.

(** The reviewer once the review loop of [run] has ended; with no file
    to review this is the reviewer [run] was given.  Whether the
    summary is then posted and the files are saved is in [run]
    below. *)
Definition run_reviews (w : World) (st : SmartCodeReviewer)
    : SmartCodeReviewer :=
  review_all w st (get_changed_files w (config st)).

(** The script as a program: build the reviewer, then run it.  A failed
    start-up ends the program before the world is touched. *)
Definition main (environ : gmap string string) (cfg : Config) (w : World)
    : Startup SmartCodeReviewer :=
  match init environ cfg with
  | Exit code => Exit code
  | Started st => Started (run_reviews w st)
  end.

(** *** [determine_tags] *)

(** The language tag of the [if]/[elif] chain, at most one per file. *)
Definition language_tag (file_path : string) : list string :=
  if PyStr.endswith_any file_path [".py"; ".pyi"] then ["python"]
  else if PyStr.endswith_any file_path [".js"; ".jsx"; ".ts"; ".tsx"]
       then ["javascript"]
  else if PyStr.endswith file_path ".java" then ["java"]
  else if PyStr.endswith_any file_path [".html"; ".css"] then ["frontend"]
  else if PyStr.endswith_any file_path [".yml"; ".yaml"] then ["config"]
  else if PyStr.endswith file_path ".md" then ["documentation"]
  else [].

(** [any(word in file_path.lower() for word in words)] *)
Definition mentions (file_path : string) (words : list string) : bool :=
  existsb (fun word => PyStr.contains word (PyStr.lower file_path)) words.

(** The tags of the four independent [if]s. *)
Definition function_tags (file_path : string) : list string :=
  (if mentions file_path ["test"] then ["testing"] else [])
  ++ (if mentions file_path ["api"] then ["api"] else [])
  ++ (if mentions file_path ["security"; "auth"; "login"]
      then ["security"] else [])
  ++ (if mentions file_path ["db"; "model"; "migration"]
      then ["database"] else []).

(** [change['file']], which must be a string for [endswith]; [None] is
    the [KeyError] or [AttributeError]. *)
Definition change_file (change : pydict) : option string :=
  match dict_get "file" change with
  | Some (JStr file_path) => Some file_path
  | _ => None
  end.

(** The set [tags] after the loop over [file_changes]. *)
Fixpoint file_tags (file_changes : list pydict) : option (gset string) :=
  match file_changes with
  | [] => Some ∅
  | change :: rest =>
      match change_file change with
      | None => None
      | Some file_path =>
          match file_tags rest with
          | None => None
          | Some tags =>
              Some (list_to_set (language_tag file_path
                                 ++ function_tags file_path) ∪ tags)
          end
      end
  end.

(** The three tags derived from the state of the reviewer. *)
Definition result_tags (st : SmartCodeReviewer) : gset string :=
  (if existsb (get_truthy "has_breaking_changes") (review_results st)
   then {["breaking-change"]} else ∅)
  ∪ (if existsb (get_truthy "performance_impact") (review_results st)
     then {["performance"]} else ∅)
  ∪ (match security_issues st with
     | [] => ∅
     | _ :: _ => {["security-review-needed"]}
     end).

(** The set [tags] just before [sorted(list(tags))]. *)
Definition tag_set (st : SmartCodeReviewer) (file_changes : list pydict)
    : option (gset string) :=
  match file_tags file_changes with
  | None => None
  | Some tags => Some (tags ∪ result_tags st)
  end.

(** [determine_tags]: [sorted(list(tags))].  The enumeration of the set
    chosen here is [elements]; [py_sorted] gives the same list for every
    other one (lemma [py_sorted_enumeration]). *)
Definition determine_tags (st : SmartCodeReviewer)
    (file_changes : list pydict) : option (list string) :=
  match tag_set st file_changes with
  | None => None
  | Some tags => Some (py_sorted (elements tags))
  end.

(** *** [save_results] *)

Inductive OverallStatus : Type := needs_attention | approved.

(** The dictionary [status] written to [ai_review_status.txt]. *)
Record AggregateStatus : Type := {
  total_files : nat;
  total_issues : nat;
  high_severity_issues : nat;
  security_issue_count : nat;   (* key [security_issues] *)
  overall_status : OverallStatus
}.

(** [r.get('issues', [])] *)
Definition issues_of (r : pydict) : json :=
  dict_get_default "issues" (JArr []) r.

(** [sum(len(r.get('issues', [])) for r in results)] *)
Fixpoint total_issues_of (results : list pydict) : option nat :=
  match results with
  | [] => Some 0
  | r :: rest =>
      n ← py_len (issues_of r);
      m ← total_issues_of rest;
      Some (n + m)
  end.

(** [issue.get('severity') == 'high'] *)
Definition is_high (issue : json) : option bool :=
  severity ← py_get "severity" issue;
  Some (eq_str severity "high").

Fixpoint count_high (issues : list json) : option nat :=
  match issues with
  | [] => Some 0
  | issue :: rest =>
      b ← is_high issue;
      n ← count_high rest;
      Some (Nat.b2n b + n)
  end.

(** [sum(1 for r in results for issue in r.get('issues', [])
         if issue.get('severity') == 'high')] *)
Fixpoint high_severity_of (results : list pydict) : option nat :=
  match results with
  | [] => Some 0
  | r :: rest =>
      issues ← py_iter (issues_of r);
      n ← count_high issues;
      m ← high_severity_of rest;
      Some (n + m)
  end.

(** ["needs_attention" if self.security_issues or
     any(r.get('has_breaking_changes') for r in self.review_results)
     else "approved"] *)
Definition overall_status_of (st : SmartCodeReviewer) : OverallStatus :=
  if negb (bool_decide (security_issues st = []))
     || existsb (get_truthy "has_breaking_changes") (review_results st)
  then needs_attention else approved.

(** The dictionary [status] of [save_results]; [None] when building it
    raises. *)
Definition save_results_status (st : SmartCodeReviewer)
    : option AggregateStatus :=
  total ← total_issues_of (review_results st);
  high ← high_severity_of (review_results st);
  Some {| total_files := length (review_results st);
          total_issues := total;
          high_severity_issues := high;
          security_issue_count := length (security_issues st);
          overall_status := overall_status_of st |}.

(** The four files [save_results] writes. *)
Record Artifacts : Type := {
  ai_review_status : AggregateStatus;
  review_summary : list pydict;
  security_issues_json : list SecurityFinding;
  ai_tags : list string
}.

Definition save_results (st : SmartCodeReviewer) : option Artifacts :=
  status ← save_results_status st;
  tags ← determine_tags st (review_results st);
  Some {| ai_review_status := status;
          review_summary := review_results st;
          security_issues_json := security_issues st;
          ai_tags := tags |}.




(** *** [create_summary_comment]: the marker shown for an issue *)

Inductive Marker : Type :=
| red_circle | yellow_circle | green_circle | white_circle.

(** [{"high": red, "medium": yellow, "low": green}
       .get(issue.get('severity', 'low'), white)];
    [None] when [issue] is not a dictionary or the severity cannot be
    a dictionary key. *)
Definition severity_emoji (issue : json) : option Marker :=
  match issue with
  | JObj d =>
      match dict_get_default "severity" (JStr "low") d with
      | JStr s =>
          Some (if String.eqb s "high" then red_circle
                else if String.eqb s "medium" then yellow_circle
                else if String.eqb s "low" then green_circle
                else white_circle)
      | JArr _ | JObj _ => None
      | _ => Some white_circle
      end
  | _ => None
  end.

(** *** [create_summary_comment], [post_review_comment] and [run] *)

(** [for issue in issues[:5]] in [create_summary_comment]: whether the
    lines for the issues of one result can be built.  Nothing is shown
    for an [issues] that is false in Python; otherwise [issues] must be
    a list (a text gives characters, which have no [get]; a dictionary
    or a number has no slice) and each of the first five issues must
    have a marker. *)
Definition issue_lines_built (issues : json) : bool :=
  if truthy issues then
    match issues with
    | JArr l =>
        forallb (fun issue => match severity_emoji issue with
                              | Some _ => true
                              | None => false
                              end)
                (firstn 5 l)
    | _ => false
    end
  else true.

(** [for aspect in positive_aspects[:3]]: a list or a text has the
    slice, the other values that are true in Python do not. *)
Definition aspect_lines_built (positive_aspects : json) : bool :=
  if truthy positive_aspects then
    match positive_aspects with
    | JArr _ | JStr _ => true
    | _ => false
    end
  else true.

(** The part of the comment for one review: it reads [review['file']]
    in both branches, and for a review without [error] it lists issues
    and positive aspects. *)
Definition review_section_built (review : pydict) : bool :=
  match dict_get "file" review with
  | None => false
  | Some _ =>
      match dict_get "error" review with
      | Some _ => true
      | None =>
          issue_lines_built (issues_of review)
          && aspect_lines_built
               (dict_get_default "positive_aspects" (JArr []) review)
      end
  end.

(** Whether [create_summary_comment(reviews)] returns: it raises where
    the two sums or a part of the text raise.  The text itself is left
    out. *)
Definition create_summary_comment_returns (reviews : list pydict) : bool :=
  match total_issues_of reviews, high_severity_of reviews with
  | Some _, Some _ => forallb review_section_built reviews
  | _, _ => false
  end.

(** Whether [post_review_comment(reviews)] returns: without token or
    merge request it returns at once; otherwise it builds the summary
    outside its [try], and catches what the request raises. *)
Definition post_review_comment_returns (st : SmartCodeReviewer)
    (reviews : list pydict) : bool :=
  negb (env_set (gitlab_token st) && env_set (merge_request_iid st))
  || create_summary_comment_returns reviews.

(** How [run] ends. *)
Inductive RunEnd : Type :=
| NoFiles                        (* no file to review: nothing is written *)
| CommentRaised                  (* the summary could not be built *)
| SaveRaised                     (* [save_results] raised *)
| Saved (artifacts : Artifacts). (* the four files were written *)

(** [run]: the reviewer it leaves and the way it ends.  With no file to
    review it returns before anything is posted or saved. *)
Definition run (w : World) (st : SmartCodeReviewer)
    : SmartCodeReviewer * RunEnd :=
  match get_changed_files w (config st) with
  | [] => (st, NoFiles)
  | changed_files =>
      let st' := review_all w st changed_files in
      if match review_results st' with
         | [] => true
         | reviews => post_review_comment_returns st' reviews
         end
      then (st', match save_results st' with
                 | Some artifacts => Saved artifacts
                 | None => SaveRaised
                 end)
      else (st', CommentRaised)
  end.

End Reviewer.

(** ** [tag_mr.py]: class [IntelligentTagger] *)

Module Tagger.
Import Json PySet.

Record IntelligentTagger : Type := {
  gitlab_token : string;
  project_id : string;
  merge_request_iid : string
}.

(** [__init__]: [all([token, project_id, merge_request_iid])] must hold. *)
Definition init (environ : gmap string string)
    : Reviewer.Startup IntelligentTagger :=
  match environ !! "GITLAB_PAT", environ !! "CI_PROJECT_ID",
        environ !! "CI_MERGE_REQUEST_IID" with
  | Some token, Some project, Some iid =>
      if negb (String.eqb token "") && negb (String.eqb project "")
         && negb (String.eqb iid "")
      then Reviewer.Started {| gitlab_token := token;
                               project_id := project;
                               merge_request_iid := iid |}
      else Reviewer.Exit 1
  | _, _, _ => Reviewer.Exit 1
  end.

(** *** The label API of the host *)

(** The answer to [GET .../labels]: status 200 with the names of the
    labels, or anything else (another status, an exception). *)
Inductive ListResponse : Type :=
| ListOk (names : list string)
| ListFailed.

(** The answer to [POST .../labels]: a status code, or an exception. *)
Inductive CreateResponse : Type :=
| CreateStatus (status_code : nat)
| CreateRaised.

Inductive Request : Type :=
| ListLabels
| CreateLabel (name color : string).

(** A host with states [S]: each request gives an answer and the next
    state. *)
Record Host (S : Type) : Type := {
  list_labels : S -> ListResponse * S;
  create_label : string -> string -> S -> CreateResponse * S
}.
Arguments list_labels {S} _ _.
Arguments create_label {S} _ _ _ _.

(** The host as the script sees it, with the requests sent so far. *)
Record Session (S : Type) : Type := {
  host_state : S;
  requests : list Request
}.
Arguments host_state {S} _.
Arguments requests {S} _.

Definition is_create (r : Request) : bool :=
  match r with
  | CreateLabel _ _ => true
  | ListLabels => false
  end.

(** The number of creation calls sent so far. *)
Definition creation_calls {S : Type} (ss : Session S) : nat :=
  length (List.filter is_create (requests ss)).

Definition get_existing_labels {S : Type} (h : Host S) (ss : Session S)
    : list string * Session S :=
  let '(response, s') := list_labels h (host_state ss) in
  let ss' := {| host_state := s'; requests := requests ss ++ [ListLabels] |} in
  match response with
  | ListOk names => (names, ss')
  | ListFailed => ([], ss')
  end.

Definition create_label_if_needed {S : Type} (h : Host S)
    (label_name color : string) (ss : Session S) : bool * Session S :=
  let '(existing_labels, ss1) := get_existing_labels h ss in
  if str_in label_name existing_labels then (true, ss1)
  else
    let '(response, s') := create_label h label_name color (host_state ss1) in
    let ss2 := {| host_state := s';
                  requests := requests ss1 ++ [CreateLabel label_name color] |} in
    match response with
    | CreateStatus status_code => (status_code =? 201, ss2)
    | CreateRaised => (false, ss2)
    end.

(** A GitLab project that answers every request: listing gives the
    names of all its labels, creating a label adds it and answers 201,
    or answers 409 when the name is taken. *)
Definition gitlab : Host (list (string * string)) :=
  {| list_labels := fun labels => (ListOk (List.map fst labels), labels);
     create_label := fun name color labels =>
       if str_in name (List.map fst labels) then (CreateStatus 409, labels)
       else (CreateStatus 201, labels ++ [(name, color)]) |}.

(** *** [enhance_tags_with_context] *)

(** A JSON value as a number, for a comparison with an [int]; [None] is
    the [TypeError] of [<] and [>] on other values. *)
Definition num_of (v : json) : option Q :=
  match v with
  | JInt z => Some (inject_Z z)
  | JFloat x => Some x
  | JBool b => Some (inject_Z (Z.b2z b))
  | _ => None
  end.

(** [v > n] *)
Definition py_gt (v : json) (n : Z) : option bool :=
  match num_of v with
  | Some x => Some (negb (Qle_bool x (inject_Z n)))
  | None => None
  end.

(** [v == 0], which never raises *)
Definition py_eq_zero (v : json) : bool :=
  match num_of v with
  | Some x => Qeq_bool x 0
  | None => false
  end.

(** [review_status.get(key, 0)] *)
Definition status_get (key : string) (review_status : pydict) : json :=
  dict_get_default key (JInt 0) review_status.

(** The list [enhanced_tags] just before [list(set(enhanced_tags))];
    [None] when a comparison raises. *)
Definition enhanced_tags (ai_tags : list string) (review_status : pydict)
    : option (list string) :=
  match py_gt (status_get "security_issues" review_status) 0 with
  | None => None
  | Some security =>
      let tags1 :=
        ai_tags ++ (if security then ["security-review-needed"] else []) in
      match py_gt (status_get "high_severity_issues" review_status) 0 with
      | None => None
      | Some high =>
          let tags2 :=
            tags1 ++
            (if high then ["high-priority"]
             else if py_eq_zero (status_get "total_issues" review_status)
                  then ["ready-for-review"] else []) in
          let tags3 := tags2 ++ ["ai-reviewed"] in
          let total_issues := status_get "total_issues" review_status in
          match py_gt total_issues 10 with
          | None => None
          | Some many =>
              Some (tags3 ++
                    (if many then ["needs-attention"]
                     else if py_eq_zero total_issues then ["clean-code"]
                          else []))
          end
      end
  end.

(** [enhance_tags_with_context ai_tags review_status out]: [out] is a
    list the function may return, an enumeration of
    [set(enhanced_tags)]. *)
Definition enhance_tags_with_context (ai_tags : list string)
    (review_status : pydict) (out : list string) : Prop :=
  ∃ tags, enhanced_tags ai_tags review_status = Some tags
          ∧ enumerates (list_to_set tags) out.

End Tagger.

(** ** [generate_changelog.py]: [categorize_changes] *)

Module Changelog.
Import PySet.

(** The keys of [merge_info] the function reads; [None] is a missing
    key, for which [get] gives its default. *)
Record MergeInfo : Type := {
  files_changed : option (list string);
  labels : option (list string);
  commit_message : option string;
  title : option string
}.

(** [any(label in names for label in labels)] *)
Definition any_label (labels names : list string) : bool :=
  existsb (fun label => str_in label names) labels.

(** [any(word in commit_message or word in title for word in words)] *)
Definition any_word (commit_message title : string) (words : list string)
    : bool :=
  existsb (fun word => PyStr.contains word commit_message
                       || PyStr.contains word title) words.

Definition categorize_changes (merge_info : MergeInfo) : string :=
  let files_changed := default [] (files_changed merge_info) in
  let labels := default [] (labels merge_info) in
  let commit_message :=
    PyStr.lower (default "" (commit_message merge_info)) in
  let title := PyStr.lower (default "" (title merge_info)) in
  (* Check labels first *)
  if any_label labels ["breaking-change"; "major"] then "breaking"
  else if any_label labels ["feature"; "enhancement"] then "feature"
  else if any_label labels ["bugfix"; "fix"; "bug"] then "fix"
  else if any_label labels ["security"] then "security"
  else if any_label labels ["performance"] then "performance"
  else if any_label labels ["documentation"; "docs"] then "docs"
  (* Check commit message and title *)
  else if any_word commit_message title ["break"; "breaking"; "major"]
       then "breaking"
  else if any_word commit_message title ["feat"; "feature"; "add"; "new"]
       then "feature"
  else if any_word commit_message title ["fix"; "bug"; "patch"; "repair"]
       then "fix"
  else if any_word commit_message title ["security"; "vulnerability"; "cve"]
       then "security"
  else if any_word commit_message title ["perf"; "performance"; "optimize"]
       then "performance"
  else if any_word commit_message title ["doc"; "readme"; "documentation"]
       then "docs"
  (* Check file patterns *)
  else if existsb (fun f => PyStr.contains "test" (PyStr.lower f))
                  files_changed then "test"
  else if existsb (fun f => PyStr.endswith f ".md") files_changed then "docs"
  else if existsb (fun f => PyStr.startswith f "."
                            || PyStr.contains "config" (PyStr.lower f))
                  files_changed then "config"
  else "other".

(** The nine sections of the changelog ([categories] of
    [generate_changelog_entry]). *)
Definition categories : list string :=
  ["breaking"; "security"; "feature"; "fix"; "performance"; "docs";
   "test"; "config"; "other"].




End Changelog.

(** ** [scripts/review_pr.py] (the inline-comment script): start-up

    The check at the top of the module:
    [all([LLM_API_KEY, GITLAB_PAT, CI_PROJECT_ID, CI_MERGE_REQUEST_IID])]
    or [sys.exit(1)]. *)

Module InlineReview.

Definition startup (environ : gmap string string) : Reviewer.Startup unit :=
  if Reviewer.env_set (environ !! "LLM_API_KEY")
     && Reviewer.env_set (environ !! "GITLAB_PAT")
     && Reviewer.env_set (environ !! "CI_PROJECT_ID")
     && Reviewer.env_set (environ !! "CI_MERGE_REQUEST_IID")
  then Reviewer.Started tt
  else Reviewer.Exit 1.

End InlineReview.

(** ** The run of the reviewer, seen from outside

    Definitions used to state what a run leaves behind. *)

Module Pipeline.
Import Json Scanner Reviewer.

(** What the scanner finds in a file the run reviews: the findings of
    its content when both the content and the diff are there, nothing
    when [review_file] returns before the scan. *)
Definition scanned (w : World) (file_path : string) : list SecurityFinding :=
  match fs_read w file_path with
  | None | Some EmptyString => []
  | Some content =>
      match git_diff w file_path with
      | None | Some EmptyString => []
      | Some _ => analyze_security_issues file_path content
      end
  end.

(** Every tag [determine_tags] can put in its list. *)
Definition tag_vocabulary : list string :=
  ["python"; "javascript"; "java"; "frontend"; "config"; "documentation";
   "testing"; "api"; "security"; "database";
   "breaking-change"; "performance"; "security-review-needed"].

(** The keys of [security_patterns]. *)
Definition scanner_categories : list string :=
  List.map fst security_patterns.

(** No review of the run succeeds: for every prompt the model raises, or
    answers a text that does not decode to a JSON object. *)
Definition no_review_succeeds (w : World) : Prop :=
  ∀ prompt,
    match generate_content w prompt with
    | ReplyError _ => True
    | ReplyText text => ∀ d, json_loads w text ≠ Some (JObj d)
    end.

(** The tags [determine_tags] derives from file paths. *)
Definition path_tag_names : list string :=
  ["python"; "javascript"; "java"; "frontend"; "config"; "documentation";
   "testing"; "api"; "security"; "database"].

End Pipeline.

(** ** [tag_mr.py]: the files handed over and [run] *)

Module TaggerRun.
Import Json PySet Tagger.

Definition carriage_return : ascii := "013"%char.

(** What a text file gives when it is read with universal newlines, the
    default of [open]: a carriage return, alone or before a line feed,
    is read as one line feed. *)
Fixpoint universal_newlines (s : string) : string :=
  match s with
  | EmptyString => EmptyString
  | String c t =>
      if Ascii.eqb c carriage_return then
        String PyStr.newline
          match t with
          | String c' t' =>
              if Ascii.eqb c' PyStr.newline then universal_newlines t'
              else universal_newlines t
          | EmptyString => EmptyString
          end
      else String c (universal_newlines t)
  end.

(** [f.readlines()] on the text read: the lines, each with the line
    feed that ends it; the last one has none when the text does not end
    with one. *)
Fixpoint readlines (s : string) : list string :=
  match s with
  | EmptyString => []
  | String c t =>
      if Ascii.eqb c PyStr.newline then String c EmptyString :: readlines t
      else match readlines t with
           | line :: rest => String c line :: rest
           | [] => [String c EmptyString]
           end
  end.

(** [s.lstrip()], [s.rstrip()] and [s.strip()] *)
Fixpoint lstrip (s : string) : string :=
  match s with
  | String c t => if Re.is_space c then lstrip t else s
  | EmptyString => EmptyString
  end.

Fixpoint rstrip (s : string) : string :=
  match s with
  | EmptyString => EmptyString
  | String c t =>
      match rstrip t with
      | EmptyString => if Re.is_space c then EmptyString else String c EmptyString
      | kept => String c kept
      end
  end.

Definition strip (s : string) : string := rstrip (lstrip s).

(** The text [save_results] writes to [ai_tags.txt]: ['\n'.join(tags)] *)
Definition tags_text (tags : list string) : string :=
  String.concat (String PyStr.newline EmptyString) tags.

(** [load_ai_tags]; the argument is the content of [ai_tags.txt], [None]
    when the file does not exist. *)
Definition load_ai_tags (file : option string) : list string :=
  match file with
  | None => []
  | Some text =>
      List.map strip
        (List.filter (fun tag => negb (String.eqb (strip tag) ""))
                     (readlines (universal_newlines text)))
  end.

(** The dictionary [load_review_status] reads back from the text
    [save_results] wrote with [json.dumps]: the five entries of
    [status], numbers as integers. *)
Definition status_json (status : Reviewer.AggregateStatus) : pydict :=
  [("total_files", JInt (Z.of_nat (Reviewer.total_files status)));
   ("total_issues", JInt (Z.of_nat (Reviewer.total_issues status)));
   ("high_severity_issues",
    JInt (Z.of_nat (Reviewer.high_severity_issues status)));
   ("security_issues", JInt (Z.of_nat (Reviewer.security_issue_count status)));
   ("overall_status",
    JStr match Reviewer.overall_status status with
         | Reviewer.needs_attention => "needs_attention"
         | Reviewer.approved => "approved"
         end)].

(** The six tags [enhance_tags_with_context] may add. *)
Definition status_tags : list string :=
  ["security-review-needed"; "high-priority"; "ready-for-review";
   "ai-reviewed"; "needs-attention"; "clean-code"].

(** [determine_label_colors] *)
Definition determine_label_colors : list (string * string) :=
  [("python", "#3776ab"); ("javascript", "#f7df1e");
   ("typescript", "#3178c6"); ("java", "#ed8b00"); ("go", "#00add8");
   ("rust", "#000000");
   ("frontend", "#61dafb"); ("backend", "#8cc84b"); ("api", "#ff6600");
   ("database", "#336791"); ("security", "#dc3545");
   ("performance", "#28a745"); ("testing", "#6f42c1");
   ("documentation", "#6c757d"); ("config", "#ffc107");
   ("breaking-change", "#dc3545"); ("security-review-needed", "#fd7e14");
   ("needs-testing", "#20c997"); ("ready-for-review", "#28a745");
   ("ai-reviewed", "#17a2b8"); ("high-priority", "#dc3545");
   ("low-priority", "#6c757d")].

(** [label_colors.get(tag, '#1f77b4')] *)
Definition label_color (tag : string) : string :=
  match List.find (fun entry => String.eqb (fst entry) tag)
                  determine_label_colors with
  | Some entry => snd entry
  | None => "#1f77b4"
  end.

(** The loop of [run] over [final_tags]: the tags whose label exists or
    could be created, in the order of [final_tags]. *)
Fixpoint create_labels {S : Type} (h : Host S) (final_tags : list string)
    (ss : Session S) : list string * Session S :=
  match final_tags with
  | [] => ([], ss)
  | tag :: rest =>
      let '(ok, ss1) := create_label_if_needed h tag (label_color tag) ss in
      let '(created, ss2) := create_labels h rest ss1 in
      (if ok then tag :: created else created, ss2)
  end.

(** The answer to [PUT .../merge_requests/iid]: a status code, or an
    exception. *)
Inductive UpdateResponse : Type :=
| UpdateStatus (status_code : nat)
| UpdateRaised.

(** [apply_labels_to_mr]: the body sent is [",".join(labels)]; [update]
    is the host's answer to it. *)
Definition apply_labels_to_mr {S : Type}
    (update : string -> S -> UpdateResponse * S)
    (labels : list string) (s : S) : bool * S :=
  let '(response, s') := update (String.concat "," labels) s in
  match response with
  | UpdateStatus status_code => (status_code =? 200, s')
  | UpdateRaised => (false, s')
  end.

(** How [run] ends. *)
Inductive Outcome : Type :=
| NoTags                                        (* no AI tag: return *)
| Raised                                        (* a comparison raised *)
| NothingCreated                                (* no label to apply *)
| Applied (labels : list string) (success : bool).

(** [run] once [final_tags] is known. *)
Definition apply_tags {S : Type} (h : Host S)
    (update : string -> S -> UpdateResponse * S)
    (final_tags : list string) (ss : Session S) : Outcome * Session S :=
  let '(created_labels, ss1) := create_labels h final_tags ss in
  match created_labels with
  | [] => (NothingCreated, ss1)
  | _ :: _ =>
      let '(success, s') :=
        apply_labels_to_mr update created_labels (host_state ss1) in
      (Applied created_labels success,
       {| host_state := s'; requests := requests ss1 |})
  end.

(** [run tags_file review_status ss result]: [result] is a way [run] may
    end, with the session it leaves.  [tags_file] is the content of
    [ai_tags.txt]; [review_status] is what [load_review_status]
    returned. *)
Definition run {S : Type} (h : Host S)
    (update : string -> S -> UpdateResponse * S)
    (tags_file : option string) (review_status : pydict)
    (ss : Session S) (result : Outcome * Session S) : Prop :=
  match load_ai_tags tags_file with
  | [] => result = (NoTags, ss)
  | ai_tags =>
      match enhanced_tags ai_tags review_status with
      | None => result = (Raised, ss)
      | Some tags =>
          ∃ final_tags, enumerates (list_to_set tags) final_tags
                        ∧ result = apply_tags h update final_tags ss
      end
  end.

(** [c in s] for a character *)
Fixpoint has_char (c : ascii) (s : string) : bool :=
  match s with
  | EmptyString => false
  | String a t => Ascii.eqb a c || has_char c t
  end.

(** A tag the file hand-over keeps: not empty, on one line, and with no
    white space at either end. *)
Definition storable (tag : string) : Prop :=
  tag ≠ EmptyString
  ∧ strip tag = tag
  ∧ has_char PyStr.newline tag = false
  ∧ has_char carriage_return tag = false.

(** A text made of white space only. *)
Fixpoint blank (s : string) : bool :=
  match s with
  | EmptyString => true
  | String c t => Re.is_space c && blank t
  end.

End TaggerRun.

(** ** [generate_changelog.py]: the entry, the file and the report *)

Module Entries.
Import PySet Changelog.

(** The keys of a commit's dictionary that the functions below read,
    beside those of [MergeInfo]; [None] is a missing key. *)
Record CommitInfo : Type := {
  info : MergeInfo;
  author : option string;
  mr_number : option string;
  web_url : option string;
  additions : option Z;
  deletions : option Z
}.

(** Truth value of [d.get(key)] for a text: false when the key is
    missing or the text empty. *)
Definition given (v : option string) : bool :=
  match v with
  | Some s => negb (String.eqb s "")
  | None => false
  end.

(** [commit_info.get('title', commit_info.get('commit_message',
    'Unknown change'))] *)
Definition item_title (c : CommitInfo) : string :=
  match title (info c) with
  | Some t => t
  | None => default "Unknown change" (commit_message (info c))
  end.

(** The line of the changelog for one commit. *)
Definition change_item (c : CommitInfo) : string :=
  let author := default "Unknown" (author c) in
  ("- " +:+ item_title c)
  +:+ (if negb (String.eqb author "") then " (by @" +:+ author +:+ ")"
       else "")
  +:+ (if given (mr_number c) && given (web_url c)
       then " ([#" +:+ default "" (mr_number c) +:+ "]("
            +:+ default "" (web_url c) +:+ "))"
       else if given (mr_number c)
            then " (#" +:+ default "" (mr_number c) +:+ ")"
            else "").

(** The dictionary [categories] when it is created: the keys in their
    order, each with its title (the bytes of the source) and no item. *)
Definition section_titles : list (string * string) :=
  [("breaking", "ğŸ’¥ Breaking Changes");
   ("security", "ğŸ”’ Security");
   ("feature", "âœ¨ Features");
   ("fix", "ğŸ› Bug Fixes");
   ("performance", "âš¡ Performance");
   ("docs", "ğŸ“š Documentation");
   ("test", "ğŸ§ª Tests");
   ("config", "âš™ï¸ Configuration");
   ("other", "ğŸ”§ Other Changes")].

(** One entry of [categories]: key, title, items. *)
Definition SectionEntry : Type := string * string * list string.

Definition empty_sections : list SectionEntry :=
  List.map (fun entry => (fst entry, snd entry, [])) section_titles.

(** [categories[category]['items'].append(item)]; [None] is the
    [KeyError] of a category that has no section. *)
Fixpoint add_item (category item : string) (sections : list SectionEntry)
    : option (list SectionEntry) :=
  match sections with
  | [] => None
  | (key, section_title, items) :: rest =>
      if String.eqb key category
      then Some ((key, section_title, items ++ [item]) :: rest)
      else option_map (cons (key, section_title, items))
                      (add_item category item rest)
  end.

(** The loop over [merge_commits]. *)
Fixpoint collect (merge_commits : list CommitInfo) (sections : list SectionEntry)
    : option (list SectionEntry) :=
  match merge_commits with
  | [] => Some sections
  | commit_info :: rest =>
      match add_item (categorize_changes (info commit_info))
                     (change_item commit_info) sections with
      | None => None
      | Some sections' => collect rest sections'
      end
  end.

Definition nl : string := String PyStr.newline EmptyString.

(** The text added for one section: nothing when it has no item. *)
Definition render_section (section_title : string) (items : list string)
    : string :=
  match items with
  | [] => EmptyString
  | _ :: _ =>
      ("### " +:+ section_title +:+ nl +:+ nl)
      +:+ String.concat "" (List.map (fun item => item +:+ nl) items)
      +:+ nl
  end.

(** [generate_changelog_entry]; [today] is
    [datetime.now().strftime('%Y-%m-%d')]. *)
Definition generate_changelog_entry (today : string)
    (merge_commits : list CommitInfo) : option string :=
  match merge_commits with
  | [] => Some EmptyString
  | _ :: _ =>
      match collect merge_commits empty_sections with
      | None => None
      | Some sections =>
          Some (("## [" +:+ today +:+ "]" +:+ nl +:+ nl)
                +:+ String.concat ""
                      (List.map (fun s => render_section (snd (fst s)) (snd s))
                                sections))
      end
  end.

(** The items of the commits of one category, in the order of the
    commits. *)
Definition items_of (category : string) (merge_commits : list CommitInfo)
    : list string :=
  List.map change_item
    (List.filter
       (fun c => String.eqb (categorize_changes (info c)) category)
       merge_commits).

(** *** [update_changelog_file] *)

Definition default_header : string :=
  "# Changelog" +:+ nl +:+ nl
  +:+ "All notable changes to this project will be documented in this file."
  +:+ nl +:+ nl.

Definition is_release (line : string) : bool := PyStr.startswith line "## ".

(** The index of the first line that starts a release, or the number of
    lines when there is none: [header_end] after the [for]/[else]. *)
Fixpoint header_end (lines : list string) : nat :=
  match lines with
  | [] => 0
  | line :: rest => if is_release line then 0 else S (header_end rest)
  end.

Definition join_lines (lines : list string) : string :=
  String.concat nl lines.

(** The text [update_changelog_file] writes; [existing] is what reading
    [CHANGELOG.md] gave, [None] when the file does not exist. *)
Definition update_changelog_file (existing : option string)
    (new_entry : string) : string :=
  let existing_content := default default_header existing in
  let lines := PyStr.split_on PyStr.newline existing_content in
  let h := header_end lines in
  join_lines (List.firstn h lines
              ++ PyStr.split_on PyStr.newline new_entry
              ++ List.skipn h lines).

(** *** [create_summary_report] *)

(** The loop that counts the commits of each category. *)
Definition count_categories (merge_commits : list CommitInfo)
    : gmap string nat :=
  List.fold_left
    (fun counts commit_info =>
       let category := categorize_changes (info commit_info) in
       <[category := default 0 (counts !! category) + 1]> counts)
    merge_commits ∅.

Record Stats : Type := {
  total_additions : Z;
  total_deletions : Z;
  unique_authors : nat
}.

Definition sum_Z (l : list Z) : Z := List.fold_right Z.add 0%Z l.

Definition stats (merge_commits : list CommitInfo) : Stats :=
  {| total_additions :=
       sum_Z (List.map (fun c => default 0%Z (additions c)) merge_commits);
     total_deletions :=
       sum_Z (List.map (fun c => default 0%Z (deletions c)) merge_commits);
     unique_authors :=
       size (list_to_set
               (List.map (fun c => default "Unknown" (author c))
                         merge_commits) : gset string) |}.

(** *** The end of [run] *)

(** What [run] does with the processed commits: [Written] with the
    text it writes to [CHANGELOG.md], [NothingToAdd] when it writes
    nothing (no commit, or an entry that is blank), [Raised] for a
    [KeyError]. *)
Inductive Published : Type :=
| Written (content : string)
| NothingToAdd
| Raised.

Definition publish (today : string) (existing : option string)
    (processed_commits : list CommitInfo) : Published :=
  match processed_commits with
  | [] => NothingToAdd
  | _ :: _ =>
      match generate_changelog_entry today processed_commits with
      | None => Raised
      | Some changelog_entry =>
          if String.eqb (TaggerRun.strip changelog_entry) ""
          then NothingToAdd
          else Written (update_changelog_file existing changelog_entry)
      end
  end.

(** *** [get_recent_merge_commits] *)

Record Date : Type := { year : Z; month : Z; day : Z }.

Definition is_leap (y : Z) : bool :=
  ((y mod 4 =? 0) && negb (y mod 100 =? 0) || (y mod 400 =? 0))%Z.

Definition days_in_month (y m : Z) : Z :=
  if (m =? 2)%Z then (if is_leap y then 29 else 28)%Z
  else if ((m =? 4) || (m =? 6) || (m =? 9) || (m =? 11))%Z then 30%Z
  else 31%Z.

(** [d.replace(day=n)]; [None] is the [ValueError] of a day that is not
    in the month. *)
Definition replace_day (d : Date) (n : Z) : option Date :=
  if ((1 <=? n) && (n <=? days_in_month (year d) (month d)))%Z
  then Some {| year := year d; month := month d; day := n |}
  else None.

(** [get_recent_merge_commits]: [today] is the date of
    [datetime.now()]; [iter_commits since] is the list of merge
    commits the repository gives, [None] when it raises.  Any exception
    gives the empty list. *)
Definition get_recent_merge_commits {Commit : Type}
    (iter_commits : Date -> option (list Commit))
    (today : Date) (days : Z) : list Commit :=
  match replace_day today (day today - days) with
  | None => []
  | Some since_date => default [] (iter_commits since_date)
  end.

(** The dictionary [categories] once the commits have been sorted into
    it, read off the list of commits. *)
Definition grouped (merge_commits : list CommitInfo) : list SectionEntry :=
  List.map (fun entry => (fst entry, snd entry, items_of (fst entry) merge_commits))
           section_titles.

(** A text without line break. *)
Definition one_line (l : string) : Prop :=
  TaggerRun.has_char PyStr.newline l = false.

(** The number of commits of one category. *)
Definition count_of (category : string) (merge_commits : list CommitInfo)
    : nat :=
  length (List.filter
            (fun c => String.eqb (categorize_changes (info c)) category)
            merge_commits).

End Entries.

(** ** [scripts/review_pr.py]: the inline comments of [main] *)

Module InlineRun.
Import Json.

(** One call [post_inline_comment(file, line, suggestion)]. *)
Record InlineComment : Type := {
  ic_file : json;
  ic_line : json;
  ic_suggestion : pydict
}.

(** The body of the loop of [main] for one item of the reply: the call
    it makes, if any.  Only a dictionary with a true [file] and a true
    [line] gets a comment. *)
Definition target (suggestion : json) : option InlineComment :=
  match suggestion with
  | JObj d =>
      match dict_get "file" d, dict_get "line" d with
      | Some file, Some line =>
          if truthy file && truthy line
          then Some {| ic_file := file; ic_line := line; ic_suggestion := d |}
          else None
      | _, _ => None
      end
  | _ => None
  end.

(** The calls of [post_inline_comment] the loop of [main] makes for a
    decoded reply, in order, when no request raises (a request that
    raises ends the loop, so the calls made are then the first of
    these); [None] is the [TypeError] of a reply that cannot be
    iterated, which ends the script with exit code 1. *)
Definition inline_comments (ai_response : json)
    : option (list InlineComment) :=
  option_map (omap target) (py_iter ai_response).

End InlineRun.

(** ** Sample inputs

    Concrete worlds and states on which the theorems below are tried. *)

Module Samples.
Import Json Scanner Reviewer.

(** [s] between double quotes *)
Definition quoted (s : string) : string :=
  String PyStr.dquote (s +:+ String PyStr.dquote EmptyString).

(** A reply that is prose, not JSON. *)
Definition prose_reply : string := "Sorry, I cannot review this file.".

(** A reply that is JSON: an object whose [issues] holds one issue with
    [line] -1 and [severity] critical. *)
Definition odd_reply : string :=
  "{" +:+ quoted "issues" +:+ ": [{" +:+ quoted "line" +:+ ": -1, "
  +:+ quoted "severity" +:+ ": " +:+ quoted "critical" +:+ "}]}".

Definition odd_issue : json :=
  JObj [("line", JInt (-1)); ("severity", JStr "critical")].

Definition odd_reply_json : json := JObj [("issues", JArr [odd_issue])].

(** A decoder that agrees with [json.loads] on the two replies above. *)
Definition sample_loads (text : string) : option json :=
  if String.eqb text odd_reply then Some odd_reply_json else None.

(** Three changed files; [a.py] gets the prose reply, the others the
    JSON one; [src/new_module.py] is not on disk when the files are
    filtered. *)
Definition sample_content : string :=
  "x = 1" +:+ String PyStr.newline ("password = " +:+ quoted "x").

Definition sample_world : World :=
  {| fs_size := fun p =>
       if String.eqb p "src/new_module.py" then None else Some 120%Z;
     fs_read := fun _ => Some sample_content;
     git_changed := Some ["a.py"; "src/new_module.py"; "README.md"; "b.py"];
     git_diff := fun _ => Some "+x = 1";
     generate_content := fun prompt =>
       if String.eqb (p_file prompt) "a.py" then ReplyText prose_reply
       else ReplyText odd_reply;
     json_loads := sample_loads |}.

(** The reviewer [__init__] builds when only [LLM_API_KEY] is set. *)
Definition fresh_reviewer : SmartCodeReviewer :=
  {| gemini_api_key := Some "key";
     gitlab_token := None;
     project_id := None;
     merge_request_iid := None;
     review_results := [];
     security_issues := [];
     config := default_config |}.

(** The text [password = ] followed by [x] between double quotes, the
    example of the specification. *)
Definition password_line : string := "password = " +:+ quoted "x".

(** A review result as the prompt asks for it, with a neutral
    performance impact and no breaking change. *)
Definition neutral_result : pydict :=
  [("summary", JStr "Looks fine");
   ("issues", JArr []);
   ("positive_aspects", JArr []);
   ("has_breaking_changes", JBool false);
   ("performance_impact", JStr "neutral");
   ("follow_up_actions", JArr []);
   ("file", JStr "app.py");
   ("security_issues", JArr [])].

Definition neutral_reviewer : SmartCodeReviewer :=
  {| gemini_api_key := Some "key";
     gitlab_token := None;
     project_id := None;
     merge_request_iid := None;
     review_results := [neutral_result];
     security_issues := [];
     config := default_config |}.

(** A project with one label, and nothing sent yet. *)
Definition one_label_session : Tagger.Session (list (string * string)) :=
  {| Tagger.host_state := [("python", "#3776ab")];
     Tagger.requests := [] |}.

(** A host on which every request fails. *)
Definition failing_host : Tagger.Host unit :=
  {| Tagger.list_labels := fun s => (Tagger.ListFailed, s);
     Tagger.create_label := fun _ _ s => (Tagger.CreateStatus 409, s) |}.


(** The scenario of the specification: [app.py] holds an assignment of
    a quoted text to [SECRET_KEY]. *)
Definition secret_content : string :=
  "import os" +:+ String PyStr.newline ("SECRET_KEY = " +:+ quoted "abc123").

Definition secret_world : World :=
  {| fs_size := fun _ => Some 33%Z;
     fs_read := fun _ => Some secret_content;
     git_changed := Some ["app.py"];
     git_diff := fun _ => Some "+SECRET_KEY = ...";
     generate_content := fun _ => ReplyText odd_reply;
     json_loads := sample_loads |}.

(** The sample world with a model that always raises and a decoder that
    rejects everything: the files and git are the same. *)
Definition offline_world : World :=
  {| fs_size := fs_size sample_world;
     fs_read := fs_read sample_world;
     git_changed := git_changed sample_world;
     git_diff := git_diff sample_world;
     generate_content := fun _ => ReplyError "503 Service Unavailable";
     json_loads := fun _ => None |}.

(** A merge commit as [run] hands it to [generate_changelog_entry]
    when the API gave the details of its merge request. *)
Definition sample_commit : Entries.CommitInfo :=
  {| Entries.info :=
       {| Changelog.files_changed := Some ["src/login.py"];
          Changelog.labels := Some ["bugfix"];
          Changelog.commit_message :=
            Some "Merge branch 'fix-login' into 'main'";
          Changelog.title := Some "Fix login redirect" |};
     Entries.author := Some "Ada";
     Entries.mr_number := Some "42";
     Entries.web_url := Some "https://gitlab.com/p/-/merge_requests/42";
     Entries.additions := Some 12%Z;
     Entries.deletions := Some 3%Z |}.



(** A reviewer whose one result holds the text [false] where the
    Boolean is expected. *)
Definition text_reviewer : SmartCodeReviewer :=
  {| gemini_api_key := Some "key";
     gitlab_token := None;
     project_id := None;
     merge_request_iid := None;
     review_results :=
       [[("issues", JArr []); ("has_breaking_changes", JStr "false");
         ("file", JStr "api.py")]];
     security_issues := [];
     config := default_config |}.

(** A content whose second line is the password line, after a first
    line that opens a quoted text and does not close it. *)
Definition swallowed_before : string :=
  "pwd = " +:+ String PyStr.dquote (String PyStr.newline EmptyString).

Definition swallowed_content : string := swallowed_before +:+ password_line.

End Samples.

(** * Properties *)

(** ** Lists and dictionaries *)

Section Basics.
Import Json PySet.

Lemma existsb_elem_of {A : Type} (p : A -> bool) (l : list A) :
  existsb p l = true ↔ ∃ x, x ∈ l ∧ p x = true.
Proof.
  rewrite existsb_exists. split; intros (x & Hx & Hp); exists x.
  - by rewrite list_elem_of_In.
  - by rewrite <- list_elem_of_In.
Qed.

Lemma str_in_elem_of (x : string) (xs : list string) :
  str_in x xs = true ↔ x ∈ xs.
Proof.
  unfold str_in. rewrite existsb_elem_of. split.
  - intros (y & Hy & Heq). apply String.eqb_eq in Heq. by subst.
  - intros Hx. exists x. split; [done | apply String.eqb_refl].
Qed.

Lemma dict_get_set_eq (k : string) (v : json) (d : pydict) :
  dict_get k (dict_set k v d) = Some v.
Proof.
  induction d as [| [k' v'] d IH]; simpl.
  - by rewrite String.eqb_refl.
  - destruct (String.eqb k' k) eqn:E; simpl; rewrite E; auto.
Qed.

Lemma dict_get_set_ne (k k' : string) (v : json) (d : pydict) :
  k ≠ k' → dict_get k' (dict_set k v d) = dict_get k' d.
Proof.
  intros Hne. induction d as [| [k0 v0] d IH]; simpl.
  - destruct (String.eqb k k') eqn:E; [| done].
    apply String.eqb_eq in E. contradiction.
  - destruct (String.eqb k0 k) eqn:E; simpl.
    + apply String.eqb_eq in E. subst k0.
      destruct (String.eqb k k') eqn:E'; [| done].
      apply String.eqb_eq in E'. contradiction.
    + by rewrite IH.
Qed.


End Basics.

(** ** [save_results]: the overall status *)

Section SaveResults.
Import Json Scanner Reviewer.

(** The test of the code: a finding was recorded, or
    [r.get('has_breaking_changes')] is true in Python for some
    result. *)
Lemma overall_status_of_needs_attention (st : SmartCodeReviewer) :
  overall_status_of st = needs_attention
  ↔ 0 < length (security_issues st)
    ∨ ∃ r, r ∈ review_results st
           ∧ get_truthy "has_breaking_changes" r = true.
Proof.
  unfold overall_status_of.
  destruct (existsb _ (review_results st)) eqn:Hany.
  - rewrite orb_true_r. split; [intros _ | done].
    right. by apply existsb_elem_of.
  - rewrite orb_false_r. case_bool_decide as Hsec; simpl.
    + split; [done |]. intros [Hlen | Hex].
      * rewrite Hsec in Hlen. simpl in Hlen. lia.
      * apply existsb_elem_of in Hex. congruence.
    + split; [intros _ | done]. left.
      destruct (security_issues st); [done | simpl; lia].
Qed.







End SaveResults.

(** ** [categorize_changes] *)

Section Categorize.
Import PySet Changelog.




(** A [docs] label wins over a title that speaks of a security fix and
    over a changed test file. *)
Example categorize_label_over_keywords :
  categorize_changes
    {| files_changed := Some ["tests/test_auth.py"];
       labels := Some ["docs"];
       commit_message := Some "Fix security bug";
       title := Some "Breaking: new login" |} = "docs".
Proof. reflexivity. Qed.

Example categorize_keywords_over_files :
  categorize_changes
    {| files_changed := Some ["README.md"];
       labels := Some ["needs-review"];
       commit_message := Some "Optimize the parser";
       title := None |} = "performance".
Proof. reflexivity. Qed.

Example categorize_other :
  categorize_changes
    {| files_changed := None; labels := None;
       commit_message := None; title := None |} = "other".
Proof. reflexivity. Qed.

End Categorize.

(** ** [review_file] and the review loop *)

Section ReviewFile.
Import Json Scanner Reviewer.
Variable w : World.

Lemma review_file_keeps_results (st : SmartCodeReviewer) (file_path : string) :
  review_results (snd (review_file w st file_path)) = review_results st.
Proof. unfold review_file. by repeat case_match. Qed.

(** The dictionary returned does not depend on the reviewer's state. *)
Lemma review_file_result_indep (st st' : SmartCodeReviewer)
    (file_path : string) :
  fst (review_file w st file_path) = fst (review_file w st' file_path).
Proof. unfold review_file. by repeat case_match. Qed.

(** Every result names its file, on every path through [review_file]. *)
Lemma review_file_names_file (st : SmartCodeReviewer) (file_path : string) :
  dict_get "file" (fst (review_file w st file_path)) = Some (JStr file_path).
Proof.
  unfold review_file.
  repeat case_match; simpl; try done.
  rewrite dict_get_set_ne by done. apply dict_get_set_eq.
Qed.

(** The loop appends one result per file, in the order of the files. *)
Lemma review_all_results (files : list string) (st : SmartCodeReviewer) :
  review_results (review_all w st files)
  = review_results st
    ++ List.map (fun file_path => fst (review_file w st file_path)) files.
Proof.
  revert st. induction files as [| file_path rest IH]; intros st; simpl.
  - by rewrite app_nil_r.
  - destruct (review_file w st file_path) as [r st'] eqn:Hr.
    rewrite IH. simpl.
    assert (review_results st' = review_results st) as ->.
    { pose proof (review_file_keeps_results st file_path) as H.
      by rewrite Hr in H. }
    assert (r = fst (review_file w st file_path)) as -> by (by rewrite Hr).
    rewrite <- app_assoc. simpl. do 2 f_equal.
    apply map_ext. intros f. apply review_file_result_indep.
Qed.

(** C3.  When the reply for a file is text that [json.loads] rejects,
    [review_file] returns the dictionary with [error] set to
    [Failed to parse AI response] and the reply kept under
    [raw_response]; and the run still appends a result for every file
    before and after it, each naming its file. *)
Theorem malformed_reply_recorded_run_continues
    (st : SmartCodeReviewer) (before after : list string)
    (file_path content diff text : string) :
  fs_read w file_path = Some content → content ≠ "" →
  git_diff w file_path = Some diff → diff ≠ "" →
  generate_content w (create_review_prompt file_path diff content)
    = ReplyText text →
  json_loads w text = None →
  get_changed_files w (config st) = before ++ file_path :: after →
  fst (review_file w st file_path)
  = [("file", JStr file_path);
     ("error", JStr "Failed to parse AI response");
     ("raw_response", JStr text)]
  ∧ review_results (run_reviews w st)
    = review_results st
      ++ List.map (fun f => fst (review_file w st f)) before
      ++ fst (review_file w st file_path)
         :: List.map (fun f => fst (review_file w st f)) after
  ∧ ∀ f, dict_get "file" (fst (review_file w st f)) = Some (JStr f).
Proof.
  intros Hread Hcontent Hdiff Hdiff' Hreply Hloads Hfiles.
  split; [| split].
  - unfold review_file. rewrite Hread.
    destruct content; [done |]. rewrite Hdiff.
    destruct diff; [done |]. by rewrite Hreply, Hloads.
  - unfold run_reviews. rewrite Hfiles, review_all_results.
    by rewrite map_app.
  - intros f. apply review_file_names_file.
Qed.

(** A reply that decodes to a JSON object is kept as it is: [file] and
    [security_issues] are set, every other key keeps its value. *)
Lemma review_file_keeps_reply (st : SmartCodeReviewer)
    (file_path content diff text : string) (review_data : pydict) :
  fs_read w file_path = Some content → content ≠ "" →
  git_diff w file_path = Some diff → diff ≠ "" →
  generate_content w (create_review_prompt file_path diff content)
    = ReplyText text →
  json_loads w text = Some (JObj review_data) →
  fst (review_file w st file_path)
  = dict_set "security_issues"
      (JArr (List.map finding_json
                      (analyze_security_issues file_path content)))
      (dict_set "file" (JStr file_path) review_data).
Proof.
  intros Hread Hcontent Hdiff Hdiff' Hreply Hloads.
  unfold review_file. rewrite Hread.
  destruct content; [done |]. rewrite Hdiff.
  destruct diff; [done |]. by rewrite Hreply, Hloads.
Qed.

(** C4, as amended.  When the reply decodes to a JSON object, the
    [issues] of the result are the [issues] of the reply, unchanged:
    no issue is dropped and no [line] or [severity] is rewritten,
    whatever its value. *)
Theorem review_file_keeps_issues (st : SmartCodeReviewer)
    (file_path content diff text : string) (review_data : pydict) :
  fs_read w file_path = Some content → content ≠ "" →
  git_diff w file_path = Some diff → diff ≠ "" →
  generate_content w (create_review_prompt file_path diff content)
    = ReplyText text →
  json_loads w text = Some (JObj review_data) →
  dict_get "issues" (fst (review_file w st file_path))
  = dict_get "issues" review_data.
Proof.
  intros Hread Hcontent Hdiff Hdiff' Hreply Hloads.
  rewrite (review_file_keeps_reply st file_path content diff text review_data)
    by done.
  by rewrite !dict_get_set_ne.
Qed.

End ReviewFile.

Section ReviewFileSamples.
Import Json Scanner Reviewer Samples.

Lemma malformed_reply_witness :
  fst (review_file sample_world fresh_reviewer "a.py")
  = [("file", JStr "a.py");
     ("error", JStr "Failed to parse AI response");
     ("raw_response", JStr prose_reply)]
  ∧ List.map (dict_get "file")
      (review_results (run_reviews sample_world fresh_reviewer))
    = [Some (JStr "a.py"); Some (JStr "src/new_module.py");
       Some (JStr "b.py")].
Proof.
  destruct (malformed_reply_recorded_run_continues sample_world
              fresh_reviewer [] ["src/new_module.py"; "b.py"]
              "a.py" sample_content "+x = 1" prose_reply
              eq_refl ltac:(discriminate) eq_refl ltac:(discriminate)
              eq_refl eq_refl eq_refl)
    as (Hfailed & Hrun & Hfile).
  split; [exact Hfailed |].
  rewrite Hrun. cbn [review_results fresh_reviewer List.map app].
  by rewrite !Hfile.
Defined.

(** C4 as stated fails: the result of a reply whose issue has line -1
    and severity [critical] holds that issue with its severity still
    [critical], not [low]. *)
Lemma odd_severity_not_normalized :
  issues_of (fst (review_file sample_world fresh_reviewer "b.py"))
  = JArr [odd_issue]
  ∧ py_get "severity" odd_issue = Some (Some (JStr "critical"))
  ∧ py_get "severity" odd_issue ≠ Some (Some (JStr "low"))
  ∧ py_get "line" odd_issue = Some (Some (JInt (-1))).
Proof. repeat split; done. Qed.

Lemma review_file_keeps_issues_witness :
  dict_get "issues" (fst (review_file sample_world fresh_reviewer "b.py"))
  = Some (JArr [odd_issue]).
Proof.
  exact (review_file_keeps_issues sample_world fresh_reviewer "b.py"
           sample_content "+x = 1" odd_reply [("issues", JArr [odd_issue])]
           eq_refl ltac:(discriminate) eq_refl ltac:(discriminate)
           eq_refl eq_refl).
Defined.

(** In the summary comment a missing severity is shown as [low], a
    severity outside the three known ones with the neutral marker. *)
Example severity_emoji_samples :
  severity_emoji (JObj [("line", JInt 3)]) = Some green_circle
  ∧ severity_emoji odd_issue = Some white_circle
  ∧ severity_emoji (JObj [("severity", JStr "high")]) = Some red_circle.
Proof. repeat split. Qed.

End ReviewFileSamples.

(** ** The regular-expression search *)

Section Finditer.
Import PyStr Re.
Variables (icase : bool) (r : regex).

Lemma drop_empty (n : nat) : drop n EmptyString = EmptyString.
Proof. by destruct n. Qed.

Lemma drop_all (s : string) (n : nat) :
  String.length s ≤ n → drop n s = EmptyString.
Proof.
  revert n. induction s as [| a t IH]; intros n Hn.
  - apply drop_empty.
  - destruct n as [| n]; simpl in *; [lia |]. apply IH. lia.
Qed.

Lemma drop_app (s1 s2 : string) :
  drop (String.length s1) (s1 +:+ s2) = s2.
Proof. induction s1 as [| a t IH]; simpl; [by destruct s2 | done]. Qed.

Lemma count_newlines_take_mono (s : string) (n m : nat) :
  n ≤ m → count_newlines (take n s) ≤ count_newlines (take m s).
Proof.
  unfold take. revert n m.
  induction s as [| c t IH]; intros n m Hle.
  - by destruct n, m.
  - destruct n as [| n]; [simpl; lia |].
    destruct m as [| m]; [lia |]. simpl.
    specialize (IH n m). lia.
Qed.

Lemma take_append (s1 s2 : string) :
  take (String.length s1) (s1 +:+ s2) = s1.
Proof.
  unfold take. induction s1 as [| a t IH]; simpl; [by destruct s2 |].
  by rewrite IH.
Qed.

(** Every offset [finditer_from] lists is an offset at which the
    pattern matches. *)
Lemma finditer_from_sound (s : string) (pos skip p : nat) :
  p ∈ finditer_from icase r s pos skip →
  ∃ i, p = pos + i ∧ i < String.length s
       ∧ is_Some (match_at icase r (drop i s)).
Proof.
  revert pos skip. induction s as [| a t IH]; intros pos skip Hp; simpl in Hp.
  - by apply elem_of_nil in Hp.
  - assert (Hrest : ∀ n, p ∈ finditer_from icase r t (S pos) n →
              ∃ i, p = pos + i ∧ i < String.length (String a t)
                   ∧ is_Some (match_at icase r (drop i (String a t)))).
    { intros n Hn. destruct (IH _ _ Hn) as (i & -> & Hi & Hm).
      exists (S i). simpl. repeat split; [lia | lia | done]. }
    destruct skip as [| n]; [| by eapply Hrest].
    destruct (match_at icase r (String a t)) as [len |] eqn:Hm;
      [| by eapply Hrest].
    apply elem_of_cons in Hp as [-> | Hp]; [| by eapply Hrest].
    exists 0. simpl. repeat split; [lia | lia |]. rewrite Hm. by eexists.
Qed.

(** A match at offset [i] that the scan has not yet passed makes the
    scan report a match that starts at [i] or before. *)
Lemma finditer_from_complete (s : string) (pos skip i : nat) :
  is_Some (match_at icase r (drop i s)) →
  skip ≤ i → i < String.length s →
  ∃ p, p ∈ finditer_from icase r s pos skip ∧ p ≤ pos + i.
Proof.
  revert pos skip i. induction s as [| a t IH]; intros pos skip i Hm Hskip Hi;
    simpl in Hi; [lia |].
  simpl. destruct skip as [| n].
  - destruct (match_at icase r (String a t)) as [len |] eqn:Hhere.
    + exists pos. split; [apply list_elem_of_here | lia].
    + destruct i as [| i]; simpl in Hm.
      { rewrite Hhere in Hm. by destruct Hm. }
      destruct (IH (S pos) 0 i Hm) as (p & Hp & Hle); [lia | lia |].
      exists p. split; [done | lia].
  - destruct i as [| i]; [lia |]. simpl in Hm.
    destruct (IH (S pos) n i Hm) as (p & Hp & Hle); [lia | lia |].
    exists p. split; [done | lia].
Qed.

Lemma finditer_sound (s : string) (p : nat) :
  p ∈ finditer icase r s →
  p < String.length s ∧ is_Some (match_at icase r (drop p s)).
Proof.
  intros Hp. destruct (finditer_from_sound s 0 0 p Hp) as (i & -> & Hi & Hm).
  by split.
Qed.

Lemma finditer_complete (s : string) (i : nat) :
  match_at icase r EmptyString = None →
  is_Some (match_at icase r (drop i s)) →
  ∃ p, p ∈ finditer icase r s ∧ p ≤ i.
Proof.
  intros Hempty Hm.
  destruct (decide (i < String.length s)) as [Hi | Hi].
  - destruct (finditer_from_complete s 0 0 i Hm) as (p & Hp & Hle);
      [lia | done |]. exists p. split; [done | lia].
  - rewrite drop_all in Hm by lia. rewrite Hempty in Hm. by destruct Hm.
Qed.

(** A match at offset [i] that the scan has not yet passed is reported,
    or a reported match that begins before it runs over [i]: the scan
    resumes where a match ended, so a match that begins inside another
    is not looked for. *)
Lemma finditer_from_covers (s : string) (pos skip i : nat) :
  is_Some (match_at icase r (drop i s)) →
  skip ≤ i → i < String.length s →
  ∃ j len, pos + j ∈ finditer_from icase r s pos skip
           ∧ match_at icase r (drop j s) = Some len
           ∧ j ≤ i ∧ (i < j + len ∨ j = i).
Proof.
  revert pos skip i. induction s as [| a t IH]; intros pos skip i Hm Hskip Hi;
    simpl in Hi; [lia |].
  assert (Hrest : ∀ n i',
            i = S i' → n ≤ i' →
            ∃ j len,
              pos + j ∈ finditer_from icase r t (S pos) n
              ∧ match_at icase r (drop j (String a t)) = Some len
              ∧ j ≤ i ∧ (i < j + len ∨ j = i)).
  { intros n i' -> Hn. simpl in Hm.
    destruct (IH (S pos) n i' Hm) as (j & len & Hin & Hlen & Hle & Hcov);
      [lia | lia |].
    exists (S j), len. simpl drop.
    replace (pos + S j) with (S pos + j) by lia.
    split; [done |]. split; [done |]. lia. }
  simpl. destruct skip as [| n].
  - destruct (match_at icase r (String a t)) as [len |] eqn:Hhere.
    + destruct (decide (i < len ∨ i = 0)) as [Hin | Hout].
      * exists 0, len. rewrite Nat.add_0_r.
        split; [apply list_elem_of_here |]. split; [done |]. lia.
      * destruct i as [| i']; [lia |].
        destruct (Hrest (len - 1) i' eq_refl) as (j & len' & Hj & H);
          [lia |].
        exists j, len'. split; [by apply list_elem_of_further | done].
    + destruct i as [| i'].
      { simpl in Hm. rewrite Hhere in Hm. by destruct Hm. }
      apply (Hrest 0 i' eq_refl). lia.
  - destruct i as [| i']; [lia |]. apply (Hrest n i' eq_refl). lia.
Qed.

Lemma finditer_covers (s : string) (i : nat) :
  match_at icase r EmptyString = None →
  is_Some (match_at icase r (drop i s)) →
  ∃ p len, p ∈ finditer icase r s
           ∧ match_at icase r (drop p s) = Some len
           ∧ p ≤ i ∧ (i < p + len ∨ p = i).
Proof.
  intros Hempty Hm.
  destruct (decide (i < String.length s)) as [Hi | Hi].
  - destruct (finditer_from_covers s 0 0 i Hm) as (j & len & H); [lia | done |].
    by exists j, len.
  - rewrite drop_all in Hm by lia. rewrite Hempty in Hm. by destruct Hm.
Qed.

End Finditer.

(** ** The search against the language of the pattern *)

Section MatchSpec.
Import PyStr Re.
Variable icase : bool.

Lemma append_nil_l (s : string) : EmptyString +:+ s = s.
Proof. reflexivity. Qed.

Lemma append_cons (a : ascii) (s1 s2 : string) :
  String a s1 +:+ s2 = String a (s1 +:+ s2).
Proof. reflexivity. Qed.

Lemma append_nil_r (s : string) : s +:+ EmptyString = s.
Proof.
  induction s as [| a t IH]; [done |]. by rewrite append_cons, IH.
Qed.

Lemma append_assoc (s1 s2 s3 : string) :
  (s1 +:+ s2) +:+ s3 = s1 +:+ (s2 +:+ s3).
Proof.
  induction s1 as [| a t IH]; [done |]. by rewrite !append_cons, IH.
Qed.

Ltac norm_append :=
  rewrite ?append_cons, ?append_nil_l in *.

Lemma is_Some_or_else {A : Type} (x y : option A) :
  is_Some (match x with Some v => Some v | None => y end)
  ↔ is_Some x ∨ is_Some y.
Proof.
  destruct x as [v |]; split.
  - by left.
  - intros _. by eexists.
  - by right.
  - by intros [[? [=]] | H].
Qed.

(** [star_k] succeeds exactly when a run of characters of the class can
    be split off so that the continuation succeeds on the rest. *)
Lemma star_k_spec (c : cclass) (s : string) (k : string -> option string) :
  is_Some (star_k icase c s k)
  ↔ ∃ m rest, s = m +:+ rest ∧ lang icase (Star c) m ∧ is_Some (k rest).
Proof.
  induction s as [| a t IH]; simpl.
  - split.
    + intros Hk. exists EmptyString, EmptyString.
      repeat split; [constructor | done].
    + intros (m & rest & Heq & _ & Hk).
      destruct m; [| discriminate]. norm_append. by subst.
  - destruct (cc_match icase c a) eqn:Hc.
    + rewrite is_Some_or_else, IH. split.
      * intros [(m & rest & -> & Hm & Hk) | Hk].
        -- exists (String a m), rest. repeat split; [by constructor | done].
        -- exists EmptyString, (String a t).
           repeat split; [constructor | done].
      * intros (m & rest & Heq & Hm & Hk).
        destruct m as [| b m]; norm_append.
        -- right. by subst.
        -- left. injection Heq as <- ->. inversion Hm; subst.
           by exists m, rest.
    + split.
      * intros Hk. exists EmptyString, (String a t).
        repeat split; [constructor | done].
      * intros (m & rest & Heq & Hm & Hk).
        destruct m as [| b m]; norm_append; [by subst |].
        injection Heq as <- ->. inversion Hm; subst. congruence.
Qed.

(** The search succeeds exactly when a string of the language of the
    pattern starts the input and the continuation succeeds on what
    follows it. *)
Lemma match_k_spec (r : regex) :
  ∀ (s : string) (k : string -> option string),
    is_Some (match_k icase r s k)
    ↔ ∃ m rest, s = m +:+ rest ∧ lang icase r m ∧ is_Some (k rest).
Proof.
  induction r as [| c | c | c | r1 IH1 r2 IH2 | r1 IH1 r2 IH2];
    intros s k; simpl.
  - split.
    + intros Hk. exists EmptyString, s. repeat split; [constructor | done].
    + intros (m & rest & -> & Hm & Hk). by inversion Hm; subst.
  - split.
    + destruct s as [| a t]; [by intros [? [=]] |].
      destruct (cc_match icase c a) eqn:Hc; [| by intros [? [=]]].
      intros Hk. exists (String a EmptyString), t.
      repeat split; [by constructor | done].
    + intros (m & rest & -> & Hm & Hk). inversion Hm as [| ? ? Hc | | | | | |]; subst. norm_append.
      by rewrite Hc.
  - apply star_k_spec.
  - split.
    + destruct s as [| a t]; [by intros [? [=]] |].
      destruct (cc_match icase c a) eqn:Hc; [| by intros [? [=]]].
      intros (m & rest & -> & Hm & Hk)%star_k_spec.
      exists (String a m), rest. repeat split; [by constructor | done].
    + intros (m & rest & -> & Hm & Hk). inversion Hm as [| | | | ? ? ? Hc Hstar | | |]; subst. norm_append.
      rewrite Hc. apply star_k_spec. eauto.
  - rewrite IH1. split.
    + intros (m1 & rest1 & -> & Hm1 & (m2 & rest & -> & Hm2 & Hk)%IH2).
      exists (m1 +:+ m2), rest.
      repeat split; [by rewrite append_assoc | by constructor | done].
    + intros (m & rest & -> & Hm & Hk). inversion Hm; subst.
      exists m1, (m2 +:+ rest).
      repeat split; [by rewrite append_assoc | done |].
      apply IH2. eauto.
  - rewrite is_Some_or_else, IH1, IH2. split.
    + intros [(m & rest & -> & Hm & Hk) | (m & rest & -> & Hm & Hk)];
        exists m, rest; repeat split; auto using lang.
    + intros (m & rest & -> & Hm & Hk). inversion Hm; subst; eauto 10.
Qed.

Lemma char_eq_refl (a : ascii) : char_eq icase a a = true.
Proof. unfold char_eq. destruct icase; apply Ascii.eqb_refl. Qed.

(** A literal denotes its own text. *)
Lemma lang_lit (s : string) : lang icase (lit s) s.
Proof.
  induction s as [| c t IH]; [constructor |].
  destruct t as [| c' t].
  - constructor. apply char_eq_refl.
  - change (lang icase (Seq (Cls (CLit c)) (lit (String c' t)))
                 (String c EmptyString +:+ String c' t)).
    constructor; [| done]. constructor. apply char_eq_refl.
Qed.

(** [re.match] finds a match exactly when the input starts with a
    string of the language of the pattern. *)
Lemma match_at_spec (r : regex) (s : string) :
  is_Some (match_at icase r s)
  ↔ ∃ m rest, s = m +:+ rest ∧ lang icase r m.
Proof.
  unfold match_at.
  transitivity (is_Some (match_k icase r s Some)).
  { destruct (match_k icase r s Some) as [rest |]; split; intros H;
      [by eexists | by eexists | by destruct H | by destruct H]. }
  rewrite match_k_spec. split.
  - intros (m & rest & ? & ? & _). by exists m, rest.
  - intros (m & rest & ? & ?). exists m, rest.
    split; [done |]. split; [done |]. by eexists.
Qed.

(** What the search returns is what a continuation returned on a
    shorter rest: a match takes at least [min_len] characters. *)
Lemma star_k_result (c : cclass) (s : string) (k : string -> option string)
    (x : string) :
  star_k icase c s k = Some x →
  ∃ rest, k rest = Some x ∧ String.length rest ≤ String.length s.
Proof.
  induction s as [| a t IH]; simpl; [by eauto |].
  destruct (cc_match icase c a); [| by eauto].
  destruct (star_k icase c t k) as [y |] eqn:Hstar; [| by eauto].
  intros [= <-]. destruct (IH eq_refl) as (rest & Hk & Hlen).
  exists rest. split; [done | lia].
Qed.

Lemma match_k_result (r : regex) :
  ∀ (s : string) (k : string -> option string) (x : string),
    match_k icase r s k = Some x →
    ∃ rest, k rest = Some x
            ∧ String.length rest + min_len r ≤ String.length s.
Proof.
  induction r as [| c | c | c | r1 IH1 r2 IH2 | r1 IH1 r2 IH2];
    intros s k x; simpl.
  - intros Hk. exists s. split; [done | lia].
  - destruct s as [| a t]; [done |].
    destruct (cc_match icase c a); [| done].
    intros Hk. exists t. split; [done | simpl; lia].
  - intros (rest & Hk & Hlen)%star_k_result. exists rest. split; [done | lia].
  - destruct s as [| a t]; [done |].
    destruct (cc_match icase c a); [| done].
    intros (rest & Hk & Hlen)%star_k_result.
    exists rest. split; [done | simpl; lia].
  - intros (rest1 & (rest & Hk & Hlen2)%IH2 & Hlen1)%IH1.
    exists rest. split; [done | lia].
  - destruct (match_k icase r1 s k) as [y |] eqn:H1.
    + intros [= <-]. apply IH1 in H1 as (rest & Hk & Hlen).
      exists rest. split; [done | lia].
    + intros (rest & Hk & Hlen)%IH2. exists rest. split; [done | lia].
Qed.

(** The length [re.match] reports lies between [min_len] and the length
    of the input; so a pattern with a positive [min_len] has no empty
    match, and [finditer_from] resumes exactly where the match ended. *)
Lemma match_at_length (r : regex) (s : string) (len : nat) :
  match_at icase r s = Some len → min_len r ≤ len ≤ String.length s.
Proof.
  unfold match_at.
  destruct (match_k icase r s Some) as [rest |] eqn:Hm; [| done].
  intros [= <-]. apply match_k_result in Hm as (rest' & [= ->] & Hlen). lia.
Qed.

End MatchSpec.

(** ** The security scanner *)

Section SecurityScanner.
Import PyStr Re Scanner.

(** The findings are exactly the matches of the patterns of the table. *)
Lemma analyze_security_issues_elem (file_path content : string)
    (f : SecurityFinding) :
  f ∈ analyze_security_issues file_path content
  ↔ ∃ category patterns pattern start,
      (category, patterns) ∈ security_patterns
      ∧ pattern ∈ patterns
      ∧ start ∈ finditer true pattern content
      ∧ f = finding file_path content category start.
Proof.
  unfold analyze_security_issues, pattern_findings.
  rewrite list_elem_of_In, in_flat_map. split.
  - intros ([category patterns] & Hentry & Hf). simpl in Hf.
    apply in_flat_map in Hf as (pattern & Hpattern & Hf).
    apply in_map_iff in Hf as (start & <- & Hstart).
    exists category, patterns, pattern, start.
    by rewrite !list_elem_of_In.
  - intros (category & patterns & pattern & start & He & Hp & Hs & ->).
    apply list_elem_of_In in He, Hp, Hs.
    exists (category, patterns). split; [done |].
    apply in_flat_map. exists pattern. split; [done |]. by apply in_map.
Qed.

(** The findings of the password pattern are among those of the
    scanner. *)
Lemma password_finding_reported (file_path content : string) (start : nat) :
  start ∈ finditer true password_pattern content →
  finding file_path content "hardcoded_secrets" start
  ∈ analyze_security_issues file_path content.
Proof.
  intros Hstart. apply analyze_security_issues_elem.
  exists "hardcoded_secrets",
         [password_pattern; token_pattern; key_pattern],
         password_pattern, start.
  split; [apply list_elem_of_here |].
  split; [apply list_elem_of_here | done].
Qed.

(** C5.  When the password pattern matches at some place of the
    content ([matched], after [before]), the scanner returns a finding
    of category [hardcoded_secrets] with severity [high] for a match of
    that pattern which begins at that place or before it and runs over
    it; the line of the finding is the number of newlines before the
    offset of that match plus one, so it is the line where [matched]
    begins or a line above.  When no reported match that begins
    earlier runs into [matched] (as for the first match in the
    content), [matched] itself is reported, on the line where it
    begins.  Every finding of another category has severity
    [medium]. *)
Theorem hardcoded_password_reported
    (file_path content before matched after : string) :
  content = before +:+ matched +:+ after →
  lang true password_pattern matched →
  (∃ f start len,
      f ∈ analyze_security_issues file_path content
      ∧ start ∈ finditer true password_pattern content
      ∧ match_at true password_pattern (drop start content) = Some len
      ∧ start ≤ String.length before < start + len
      ∧ sf_file f = file_path
      ∧ sf_category f = "hardcoded_secrets"
      ∧ sf_severity f = "high"
      ∧ sf_line f = count_newlines (take start content) + 1
      ∧ sf_line f ≤ count_newlines before + 1)
  ∧ ((∀ p len, p ∈ finditer true password_pattern content →
               match_at true password_pattern (drop p content) = Some len →
               p < String.length before →
               p + len ≤ String.length before) →
     String.length before ∈ finditer true password_pattern content
     ∧ ∃ f, f ∈ analyze_security_issues file_path content
            ∧ sf_file f = file_path
            ∧ sf_category f = "hardcoded_secrets"
            ∧ sf_severity f = "high"
            ∧ sf_line f = count_newlines before + 1)
  ∧ (∀ f, f ∈ analyze_security_issues file_path content →
          sf_category f ≠ "hardcoded_secrets" → sf_severity f = "medium").
Proof.
  intros -> Hmatched.
  set (content := before +:+ matched +:+ after).
  assert (Hm : is_Some (match_at true password_pattern
                          (drop (String.length before) content))).
  { unfold content. rewrite drop_app. apply match_at_spec.
    by exists matched, after. }
  destruct (finditer_covers true password_pattern _ _ eq_refl Hm)
    as (start & len & Hstart & Hlen & Hle & Hcov).
  assert (Hover : String.length before < start + len).
  { apply match_at_length in Hlen as Hmin. simpl in Hmin. lia. }
  assert (Hbefore : take (String.length before) content = before)
    by apply take_append.
  split; [| split].
  - exists (finding file_path content "hardcoded_secrets" start), start, len.
    split; [by apply password_finding_reported |].
    repeat (split; [done |]). simpl. unfold line_num.
    pose proof (count_newlines_take_mono content start
                  (String.length before) Hle) as Hmono.
    rewrite Hbefore in Hmono. lia.
  - intros Hfree.
    assert (start = String.length before) as ->.
    { destruct (decide (start < String.length before)) as [Hlt | Hge];
        [| lia].
      specialize (Hfree start len Hstart Hlen Hlt). lia. }
    split; [done |].
    exists (finding file_path content "hardcoded_secrets"
                    (String.length before)).
    split; [by apply password_finding_reported |].
    repeat (split; [done |]). simpl. unfold line_num. by rewrite Hbefore.
  - intros f (category & patterns & pattern & start' & _ & _ & _ & ->)
      %analyze_security_issues_elem Hcategory. simpl in *.
    destruct (String.eqb category "hardcoded_secrets") eqn:E; [| done].
    by apply String.eqb_eq in E.
Qed.

(** The example of the specification is in the language of the
    pattern. *)
Lemma password_line_matches :
  lang true password_pattern Samples.password_line.
Proof.
  apply (lang_seq true _ _ "password" (" = " +:+ Samples.quoted "x")).
  { apply lang_alt_l, lang_lit. }
  apply (lang_seq true _ _ " " ("= " +:+ Samples.quoted "x")).
  { apply lang_star_cons; [done | constructor]. }
  apply (lang_seq true _ _ "=" (" " +:+ Samples.quoted "x")).
  { apply lang_lit. }
  apply (lang_seq true _ _ " " (Samples.quoted "x")).
  { apply lang_star_cons; [done | constructor]. }
  apply (lang_seq true _ _ (String dquote EmptyString)
                  ("x" +:+ String dquote EmptyString)).
  { by constructor. }
  apply (lang_seq true _ _ "x" (String dquote EmptyString)).
  { apply lang_plus; [done | constructor]. }
  by constructor.
Qed.

Lemma hardcoded_password_witness :
  ∃ f, f ∈ analyze_security_issues "app.py" Samples.sample_content
       ∧ sf_file f = "app.py"
       ∧ sf_category f = "hardcoded_secrets"
       ∧ sf_severity f = "high"
       ∧ sf_line f = 2.
Proof.
  refine (proj2 (proj1 (proj2
            (hardcoded_password_reported "app.py" Samples.sample_content
               ("x = 1" +:+ String newline EmptyString)
               Samples.password_line EmptyString
               eq_refl password_line_matches)) _)).
  intros p len Hp _ Hlt. vm_compute in Hp.
  apply list_elem_of_singleton in Hp. subst p. simpl in Hlt. lia.
Defined.

(** C5 as stated fails: the second line of the content below is the
    text of the example, and the password pattern matches it; but the
    match that begins at [pwd] on the first line runs on over the line
    break to the quote before [x], and the search resumes after it.
    The scanner returns one finding, on line 1, and none on line 2. *)
Lemma password_line_swallowed :
  Samples.swallowed_content
  = Samples.swallowed_before +:+ Samples.password_line +:+ EmptyString
  ∧ lang true password_pattern Samples.password_line
  ∧ count_newlines Samples.swallowed_before + 1 = 2
  ∧ analyze_security_issues "app.py" Samples.swallowed_content
    = [{| sf_file := "app.py"; sf_line := 1;
          sf_category := "hardcoded_secrets";
          sf_description := "Potential hardcoded secrets detected";
          sf_severity := "high" |}]
  ∧ Forall (fun f => sf_line f ≠ 2)
      (analyze_security_issues "app.py" Samples.swallowed_content).
Proof.
  split; [reflexivity |]. split; [exact password_line_matches |].
  split; [reflexivity |].
  assert (Hscan : analyze_security_issues "app.py" Samples.swallowed_content
                  = [{| sf_file := "app.py"; sf_line := 1;
                        sf_category := "hardcoded_secrets";
                        sf_description :=
                          "Potential hardcoded secrets detected";
                        sf_severity := "high" |}])
    by (vm_compute; reflexivity).
  split; [exact Hscan |]. rewrite Hscan. by repeat constructor.
Qed.

(** The scanner on the sample content: one finding, on line 2. *)
Example scan_sample_content :
  analyze_security_issues "app.py" Samples.sample_content
  = [{| sf_file := "app.py"; sf_line := 2;
        sf_category := "hardcoded_secrets";
        sf_description := "Potential hardcoded secrets detected";
        sf_severity := "high" |}].
Proof. vm_compute. reflexivity. Qed.

(** None of the seven patterns of the scanner has an empty match. *)
Example security_patterns_min_len :
  List.map (fun entry => List.map min_len (snd entry)) security_patterns
  = [[7; 9; 11]; [12; 18]; [11; 15]].
Proof. reflexivity. Qed.

End SecurityScanner.

(** ** [create_label_if_needed] *)

Section Labels.
Import PySet Tagger.

Lemma creation_calls_snoc {S : Type} (s : S) (log : list Request)
    (r : Request) :
  creation_calls {| host_state := s; requests := log ++ [r] |}
  = length (List.filter is_create log) + Nat.b2n (is_create r).
Proof.
  unfold creation_calls. simpl. rewrite List.filter_app, length_app. simpl.
  by destruct (is_create r).
Qed.

Lemma str_in_snoc (name color : string) (labels : list (string * string)) :
  str_in name (List.map fst (labels ++ [(name, color)])) = true.
Proof.
  apply str_in_elem_of. rewrite List.map_app. apply elem_of_app. right.
  apply list_elem_of_here.
Qed.

(** A name the listing holds: no creation call, success. *)
Lemma create_label_existing {S : Type} (h : Host S) (ss : Session S)
    (label_name color : string) (names : list string) (s' : S) :
  list_labels h (host_state ss) = (ListOk names, s') →
  label_name ∈ names →
  create_label_if_needed h label_name color ss
  = (true, {| host_state := s'; requests := requests ss ++ [ListLabels] |}).
Proof.
  intros Hlist Hin. unfold create_label_if_needed, get_existing_labels.
  rewrite Hlist. apply str_in_elem_of in Hin. by rewrite Hin.
Qed.

(** Whatever the listing says, a creation call that is not answered
    with status 201 makes the function return [False]. *)
Lemma create_label_failure {S : Type} (h : Host S) (ss : Session S)
    (label_name color : string) :
  let ss1 := snd (get_existing_labels h ss) in
  str_in label_name (fst (get_existing_labels h ss)) = false →
  fst (create_label h label_name color (host_state ss1)) ≠ CreateStatus 201 →
  fst (create_label_if_needed h label_name color ss) = false.
Proof.
  intros ss1. subst ss1. unfold create_label_if_needed.
  destruct (get_existing_labels h ss) as [existing ss1]. simpl.
  intros -> Hresp.
  destruct (create_label h label_name color (host_state ss1))
    as [[status_code |] s']; simpl in *; [| done].
  destruct (Nat.eqb_spec status_code 201) as [-> | Hne]; [done | done].
Qed.

(** C6.  (1) When the listing of the host holds the name,
    [create_label_if_needed] sends no creation call and returns [True].
    (2) On a GitLab project that answers every request, two calls with
    the same name and color both return [True] and send at most one
    creation call between them.  (3) When the name is not listed and the
    creation call is answered with anything but status 201 (another
    status or an exception), the function returns [False]: a value, not
    an exception. *)
Theorem create_label_if_needed_idempotent :
  (∀ (S : Type) (h : Host S) (ss : Session S) (label_name color : string)
     (names : list string) (s' : S),
     list_labels h (host_state ss) = (ListOk names, s') →
     label_name ∈ names →
     fst (create_label_if_needed h label_name color ss) = true
     ∧ creation_calls (snd (create_label_if_needed h label_name color ss))
       = creation_calls ss)
  ∧ (∀ (ss : Session (list (string * string))) (label_name color : string),
       let first := create_label_if_needed gitlab label_name color ss in
       let second :=
         create_label_if_needed gitlab label_name color (snd first) in
       fst first = true ∧ fst second = true
       ∧ creation_calls (snd second) ≤ creation_calls ss + 1)
  ∧ (∀ (S : Type) (h : Host S) (ss : Session S) (label_name color : string),
       str_in label_name (fst (get_existing_labels h ss)) = false →
       fst (create_label h label_name color
              (host_state (snd (get_existing_labels h ss))))
         ≠ CreateStatus 201 →
       fst (create_label_if_needed h label_name color ss) = false).
Proof.
  split; [| split].
  - intros S h ss label_name color names s' Hlist Hin.
    rewrite (create_label_existing h ss label_name color names s') by done.
    simpl. split; [done |]. rewrite creation_calls_snoc. simpl.
    unfold creation_calls. lia.
  - intros [labels log] label_name color.
    unfold create_label_if_needed, get_existing_labels, gitlab. simpl.
    destruct (str_in label_name (List.map fst labels)) eqn:Hin; simpl.
    + rewrite Hin. simpl. repeat split.
      rewrite creation_calls_snoc, List.filter_app, length_app. simpl.
      unfold creation_calls. simpl. lia.
    + rewrite str_in_snoc. simpl. repeat split.
      rewrite creation_calls_snoc, !List.filter_app, !length_app. simpl.
      unfold creation_calls. simpl. lia.
  - intros S h ss label_name color. apply create_label_failure.
Qed.

End Labels.

(** ** Tags *)

Section Tags.
Import Json PySet Reviewer.

Lemma py_sorted_elem_of (l : list string) (x : string) :
  x ∈ py_sorted l ↔ x ∈ l.
Proof. unfold py_sorted. by rewrite merge_sort_Permutation. Qed.

Lemma py_sorted_NoDup (l : list string) : NoDup l → NoDup (py_sorted l).
Proof. unfold py_sorted. by rewrite merge_sort_Permutation. Qed.

Lemma py_sorted_Sorted (l : list string) : Sorted String.le (py_sorted l).
Proof. apply Sorted_merge_sort. apply _. Qed.

(** Two enumerations of one set are permutations of each other. *)
Lemma enumerates_Permutation (s : gset string) (l1 l2 : list string) :
  enumerates s l1 → enumerates s l2 → l1 ≡ₚ l2.
Proof.
  intros [Hnd1 H1] [Hnd2 H2]. apply NoDup_Permutation; [done | done |].
  intros x. by rewrite H1, H2.
Qed.

Lemma enumerates_elements (s : gset string) : enumerates s (elements s).
Proof.
  split; [apply NoDup_elements |]. intros x. apply elem_of_elements.
Qed.

(** [sorted(list(s))] does not depend on the order in which the set is
    enumerated. *)
Lemma py_sorted_enumeration (s : gset string) (l : list string) :
  enumerates s l → py_sorted l = py_sorted (elements s).
Proof.
  intros Hl. apply (Sorted_unique String.le); try apply py_sorted_Sorted.
  unfold py_sorted. rewrite !merge_sort_Permutation.
  eapply enumerates_Permutation; [done | apply enumerates_elements].
Qed.

(** No tag derived from a file path is [performance]. *)
Lemma path_tags_not_performance (file_path : string) :
  "performance" ∉ language_tag file_path ++ function_tags file_path.
Proof.
  rewrite list_elem_of_In. unfold language_tag, function_tags.
  repeat case_match; simpl; intuition discriminate.
Qed.

Lemma file_tags_not_performance (file_changes : list pydict)
    (tags : gset string) :
  file_tags file_changes = Some tags → "performance" ∉ tags.
Proof.
  revert tags. induction file_changes as [| change rest IH]; simpl;
    intros tags Htags.
  - injection Htags as <-. apply not_elem_of_empty.
  - destruct (change_file change) as [file_path |]; [| done].
    destruct (file_tags rest) as [tags' |]; [| done].
    injection Htags as <-. rewrite elem_of_union, elem_of_list_to_set.
    intros [H | H]; [by apply path_tags_not_performance in H |].
    by apply (IH tags').
Qed.

(** What [determine_tags] does about the tag [performance]: it is in
    the list exactly when some result has a true [performance_impact],
    and every non-empty string is true. *)
Lemma performance_tag_iff (st : SmartCodeReviewer)
    (file_changes : list pydict) (tags : list string) :
  determine_tags st file_changes = Some tags →
  ("performance" ∈ tags
   ↔ ∃ r, r ∈ review_results st ∧ get_truthy "performance_impact" r = true).
Proof.
  unfold determine_tags, tag_set.
  destruct (file_tags file_changes) as [ftags |] eqn:Hf; [| done].
  intros [= <-]. apply file_tags_not_performance in Hf.
  rewrite py_sorted_elem_of, elem_of_elements, <- existsb_elem_of.
  unfold result_tags.
  destruct (existsb (get_truthy "performance_impact") _);
    destruct (existsb (get_truthy "has_breaking_changes") _);
    destruct (security_issues st);
    rewrite !elem_of_union, ?elem_of_singleton, ?elem_of_empty;
    intuition discriminate.
Qed.

(** C7 fails on the code: a single result whose [performance_impact]
    is [neutral] puts the tag [performance] in the list. *)
Theorem neutral_impact_adds_performance :
  dict_get "performance_impact" Samples.neutral_result
  = Some (JStr "neutral")
  ∧ determine_tags Samples.neutral_reviewer [Samples.neutral_result]
    = Some ["performance"; "python"].
Proof. split; [reflexivity | vm_compute; reflexivity]. Qed.

End Tags.

Section TagLists.
Import Json PySet Reviewer Tagger.

(** C8, as amended.  The list [determine_tags] returns is sorted, has
    no duplicate, holds exactly the tags of the set, and is the same
    whatever order the set is enumerated in.  A list
    [enhance_tags_with_context] returns has no duplicate and holds
    exactly the tags collected; its order is the one [list(set(...))]
    happens to give. *)
Theorem tag_lists_deduplicated :
  (∀ (st : SmartCodeReviewer) (file_changes : list pydict)
     (tags : list string),
     determine_tags st file_changes = Some tags →
     Sorted String.le tags ∧ NoDup tags
     ∧ ∃ s, tag_set st file_changes = Some s
            ∧ (∀ x, x ∈ tags ↔ x ∈ s)
            ∧ ∀ l, enumerates s l → py_sorted l = tags)
  ∧ (∀ (ai_tags : list string) (review_status : pydict) (out : list string),
       enhance_tags_with_context ai_tags review_status out →
       NoDup out
       ∧ ∃ tags, enhanced_tags ai_tags review_status = Some tags
                 ∧ ∀ x, x ∈ out ↔ x ∈ tags).
Proof.
  split.
  - intros st file_changes tags. unfold determine_tags.
    destruct (tag_set st file_changes) as [s |]; [| done].
    intros [= <-]. split; [apply py_sorted_Sorted |].
    split; [apply py_sorted_NoDup, NoDup_elements |].
    exists s. split; [done |]. split.
    + intros x. by rewrite py_sorted_elem_of, elem_of_elements.
    + apply py_sorted_enumeration.
  - intros ai_tags review_status out (tags & Htags & Hnd & Hout).
    split; [done |]. exists tags. split; [done |].
    intros x. by rewrite Hout, elem_of_list_to_set.
Qed.

(** C8 as stated fails for [enhance_tags_with_context]: with the tag
    [python] and an empty status, the list in the order the tags were
    collected is a possible result and is not sorted; the sorted list is
    another possible result, so two runs may differ. *)
Lemma enhance_tags_unsorted :
  enhance_tags_with_context ["python"] []
    ["python"; "ready-for-review"; "ai-reviewed"; "clean-code"]
  ∧ ¬ Sorted String.le
        ["python"; "ready-for-review"; "ai-reviewed"; "clean-code"]
  ∧ enhance_tags_with_context ["python"] []
      ["ai-reviewed"; "clean-code"; "python"; "ready-for-review"].
Proof.
  split; [| split].
  - exists ["python"; "ready-for-review"; "ai-reviewed"; "clean-code"].
    split; [reflexivity |]. split.
    + apply (bool_decide_unpack _). by vm_compute.
    + intros x. by rewrite elem_of_list_to_set.
  - intros H. apply Sorted_inv in H as [H _].
    apply Sorted_inv in H as [_ H]. apply HdRel_inv in H. done.
  - exists ["python"; "ready-for-review"; "ai-reviewed"; "clean-code"].
    split; [reflexivity |]. split.
    + apply (bool_decide_unpack _). by vm_compute.
    + intros x. rewrite elem_of_list_to_set, !elem_of_cons, !elem_of_nil.
      tauto.
Qed.

Lemma tag_lists_witness :
  Sorted String.le ["performance"; "python"]
  ∧ NoDup ["performance"; "python"].
Proof.
  destruct tag_lists_deduplicated as [Hdetermine _].
  destruct (Hdetermine Samples.neutral_reviewer [Samples.neutral_result]
              ["performance"; "python"])
    as (Hsorted & Hnd & _); [vm_compute; reflexivity | done].
Defined.

End TagLists.

(** ** Start-up *)

Section Startup.
Import Reviewer.

Lemma env_set_false (v : option string) :
  env_set v = false ↔ v = None ∨ v = Some EmptyString.
Proof.
  destruct v as [s |]; simpl.
  - rewrite negb_false_iff, String.eqb_eq. split.
    + intros ->. by right.
    + by intros [[=] | [= ->]].
  - split; [by left | done].
Qed.

(** C9, as amended.  Each program exits with status 1, before it does
    anything else, exactly when a value it needs itself is unset or
    empty: [SmartCodeReviewer] needs [LLM_API_KEY] only,
    [IntelligentTagger] needs [GITLAB_PAT], [CI_PROJECT_ID] and
    [CI_MERGE_REQUEST_IID], and the inline-comment script needs all
    four.  In every other environment the program starts. *)
Theorem startup_exit_conditions (environ : gmap string string)
    (cfg : Config) :
  (init environ cfg = Exit 1
   ↔ env_set (environ !! "LLM_API_KEY") = false)
  ∧ (Tagger.init environ = Exit 1
     ↔ env_set (environ !! "GITLAB_PAT") = false
       ∨ env_set (environ !! "CI_PROJECT_ID") = false
       ∨ env_set (environ !! "CI_MERGE_REQUEST_IID") = false)
  ∧ (InlineReview.startup environ = Exit 1
     ↔ env_set (environ !! "LLM_API_KEY") = false
       ∨ env_set (environ !! "GITLAB_PAT") = false
       ∨ env_set (environ !! "CI_PROJECT_ID") = false
       ∨ env_set (environ !! "CI_MERGE_REQUEST_IID") = false)
  ∧ (∀ code, init environ cfg = Exit code
             ∨ Tagger.init environ = Exit code
             ∨ InlineReview.startup environ = Exit code → code = 1%Z).
Proof.
  unfold init, Tagger.init, InlineReview.startup.
  split; [| split; [| split]].
  - destruct (env_set (environ !! "LLM_API_KEY")); simpl; split; done.
  - destruct (environ !! "GITLAB_PAT") as [token |],
      (environ !! "CI_PROJECT_ID") as [project |],
      (environ !! "CI_MERGE_REQUEST_IID") as [iid |]; simpl;
      try (split; [intros _ | done]; tauto).
    destruct (String.eqb token ""), (String.eqb project ""),
      (String.eqb iid ""); simpl; split; try done; tauto || intuition done.
  - destruct (env_set (environ !! "LLM_API_KEY")),
      (env_set (environ !! "GITLAB_PAT")),
      (env_set (environ !! "CI_PROJECT_ID")),
      (env_set (environ !! "CI_MERGE_REQUEST_IID")); simpl;
      split; try done; tauto || intuition done.
  - intros code [H | [H | H]]; repeat case_match; congruence.
Qed.

(** C9 as stated fails: with [LLM_API_KEY] set and the GitLab token,
    the project and the merge request all unset, [SmartCodeReviewer]
    starts; and with the three GitLab values set and no [LLM_API_KEY],
    [IntelligentTagger] starts. *)
Lemma reviewer_starts_without_gitlab_values :
  let environ : gmap string string := {[ "LLM_API_KEY" := "key" ]} in
  let environ' : gmap string string :=
    <["GITLAB_PAT" := "token"]>
      (<["CI_PROJECT_ID" := "7"]> {[ "CI_MERGE_REQUEST_IID" := "3" ]}) in
  environ !! "GITLAB_PAT" = None
  ∧ environ !! "CI_PROJECT_ID" = None
  ∧ environ !! "CI_MERGE_REQUEST_IID" = None
  ∧ init environ default_config = Started Samples.fresh_reviewer
  ∧ environ' !! "LLM_API_KEY" = None
  ∧ Tagger.init environ'
    = Started {| Tagger.gitlab_token := "token";
                 Tagger.project_id := "7";
                 Tagger.merge_request_iid := "3" |}.
Proof. vm_compute. repeat split. Qed.

Lemma startup_exit_witness :
  init ∅ default_config = Exit 1
  ∧ Tagger.init {[ "GITLAB_PAT" := "token" ]} = Exit 1.
Proof.
  split.
  - by apply (startup_exit_conditions ∅ default_config).
  - apply (startup_exit_conditions {[ "GITLAB_PAT" := "token" ]}
             default_config).
    right. by left.
Defined.

End Startup.

(** ** [should_review_file] *)

Section ShouldReview.
Import PySet Reviewer.
Variables (w : World) (cfg : Config).

(** When the patterns let one path through, they can all be read, so
    the loop over them raises for no path. *)
Lemma ignored_total (patterns : list string) (file_path other : string) :
  ignored patterns file_path = Some false →
  is_Some (ignored patterns other).
Proof.
  induction patterns as [| pattern rest IH]; simpl; [by eexists |].
  destruct (Re.parse_simple _) as [r |]; [| done].
  destruct (Re.match_at false r file_path); [done |].
  intros H. destruct (Re.match_at false r other); [by eexists | auto].
Qed.

Lemma should_review_file_total (file_path : string) :
  is_Some (ignored (ignore_patterns cfg) file_path) →
  is_Some (should_review_file w cfg file_path).
Proof.
  unfold should_review_file. intros [b ->].
  destruct b; [by eexists |].
  destruct (fs_size w file_path); [| by eexists].
  case_match; by eexists.
Qed.

Lemma filter_files_elem (files : list string) :
  (∀ f, is_Some (should_review_file w cfg f)) →
  ∃ kept, filter_files w cfg files = Some kept
          ∧ ∀ f, f ∈ kept
                 ↔ f ∈ files ∧ should_review_file w cfg f = Some true.
Proof.
  intros Htotal. induction files as [| file rest (kept & Hkept & IH)]; simpl.
  - exists []. split; [done |]. intros f. rewrite elem_of_nil. tauto.
  - destruct (Htotal file) as [keep Hkeep]. rewrite Hkeep, Hkept.
    eexists. split; [done |]. intros f. rewrite elem_of_cons.
    destruct keep.
    + rewrite elem_of_cons, IH. split; [| tauto].
      intros [-> | ?]; tauto.
    + rewrite IH. split; [tauto |].
      intros [[-> | ?] ?]; [congruence | tauto].
Qed.

(** C10.  For a path that does not exist when the files are filtered,
    no size is compared: when no ignore pattern matches the path and its
    suffix is a code extension, [should_review_file] returns [True],
    under every value of [max_file_size], and the path is in the list
    [get_changed_files] returns when git lists it. *)
Theorem missing_file_skips_size_check (file_path : string) :
  fs_size w file_path = None →
  ignored (ignore_patterns cfg) file_path = Some false →
  is_code_file file_path = true →
  should_review_file w cfg file_path = Some true
  ∧ (∀ limit,
       should_review_file w
         {| max_file_size := limit; ignore_patterns := ignore_patterns cfg |}
         file_path = Some true)
  ∧ (∀ files, git_changed w = Some files → file_path ∈ files →
              file_path ∈ get_changed_files w cfg).
Proof.
  intros Hmissing Hignored Hcode.
  assert (Hreview : should_review_file w cfg file_path = Some true).
  { unfold should_review_file. by rewrite Hignored, Hmissing, Hcode. }
  split; [done |]. split.
  - intros limit. unfold should_review_file. simpl.
    by rewrite Hignored, Hmissing, Hcode.
  - intros files Hgit Hin. unfold get_changed_files. rewrite Hgit.
    destruct (filter_files_elem files) as (kept & -> & Hkept).
    { intros f. apply should_review_file_total.
      by eapply ignored_total. }
    by apply Hkept.
Qed.

(** Without a file on disk the answer depends on the patterns and the
    suffix only. *)
Lemma should_review_missing_file (file_path : string) :
  fs_size w file_path = None →
  should_review_file w cfg file_path
  = match ignored (ignore_patterns cfg) file_path with
    | Some matched => Some (negb matched && is_code_file file_path)
    | None => None
    end.
Proof.
  intros Hmissing. unfold should_review_file. rewrite Hmissing.
  by destruct (ignored _ _) as [[] |].
Qed.

(** A file on disk that is larger than the limit is left out, whatever
    its suffix. *)
Lemma oversized_file_excluded (file_path : string) (size : Z) :
  fs_size w file_path = Some size → (max_file_size cfg < size)%Z →
  is_Some (ignored (ignore_patterns cfg) file_path) →
  should_review_file w cfg file_path = Some false.
Proof.
  intros Hsize Hlarge [matched Hm]. unfold should_review_file.
  rewrite Hm, Hsize. destruct matched; [done |].
  by apply Z.ltb_lt in Hlarge as ->.
Qed.

End ShouldReview.

Section ShouldReviewSamples.
Import Reviewer Samples.

Lemma missing_file_witness :
  should_review_file sample_world
    {| max_file_size := 0; ignore_patterns := ignore_patterns default_config |}
    "src/new_module.py" = Some true
  ∧ "src/new_module.py" ∈ get_changed_files sample_world default_config.
Proof.
  destruct (missing_file_skips_size_check sample_world default_config
              "src/new_module.py" eq_refl eq_refl eq_refl)
    as (_ & Hlimit & Hchanged).
  split; [apply Hlimit |].
  apply (Hchanged ["a.py"; "src/new_module.py"; "README.md"; "b.py"]
           eq_refl).
  apply list_elem_of_further, list_elem_of_here.
Defined.

(** The default patterns at work. *)
Example ignored_samples :
  ignored (ignore_patterns default_config) "node_modules/x/index.js"
  = Some true
  ∧ ignored (ignore_patterns default_config) "static/app.min.js" = Some true
  ∧ ignored (ignore_patterns default_config) "src/app.js" = Some false
  ∧ ignored ["[a-z]+"] "src/app.js" = None.
Proof. repeat split. Qed.

End ShouldReviewSamples.

(** ** The theorems on the sample inputs *)

Section MoreSamples.
Import Json Reviewer Tagger Samples.


(** Outside the type of the specification the test of the code is
    Python's truth: the text [false] is not empty, so a result that
    holds it is counted as a breaking change. *)
Example text_false_counts_as_true :
  dict_get "has_breaking_changes"
    (List.hd [] (review_results text_reviewer)) = Some (JStr "false")
  ∧ option_map overall_status (save_results_status text_reviewer)
    = Some needs_attention.
Proof. split; reflexivity. Qed.

Lemma create_label_witness :
  (let first := create_label_if_needed gitlab "security" "#dc3545"
                  one_label_session in
   let second := create_label_if_needed gitlab "security" "#dc3545"
                   (snd first) in
   fst first = true ∧ fst second = true
   ∧ creation_calls (snd second) ≤ 1)
  ∧ fst (create_label_if_needed failing_host "security" "#dc3545"
           {| host_state := tt; requests := [] |}) = false.
Proof.
  destruct create_label_if_needed_idempotent as (_ & Htwice & Hfail).
  split.
  - apply (Htwice one_label_session "security" "#dc3545").
  - by apply Hfail.
Defined.

(** The two calls on the sample project, request by request. *)
Example create_label_twice_requests :
  requests
    (snd (create_label_if_needed gitlab "security" "#dc3545"
            (snd (create_label_if_needed gitlab "security" "#dc3545"
                    one_label_session))))
  = [ListLabels; CreateLabel "security" "#dc3545"; ListLabels].
Proof. reflexivity. Qed.

End MoreSamples.

Section Scenarios.
Import Json Scanner Reviewer Tagger Samples.

(** On a host that refuses every request the two calls send two
    creation calls and both return [False]: the bound of one creation
    call needs a host that answers. *)
Example create_label_twice_failing_host :
  let first := create_label_if_needed failing_host "security" "#dc3545"
                 {| host_state := tt; requests := [] |} in
  let second := create_label_if_needed failing_host "security" "#dc3545"
                  (snd first) in
  fst first = false ∧ fst second = false ∧ creation_calls (snd second) = 2.
Proof. repeat split. Qed.

(** A failed start-up of the reviewer ends the program whatever the
    world is. *)
Lemma main_exits_without_key (environ : gmap string string) (cfg : Config)
    (w : World) :
  env_set (environ !! "LLM_API_KEY") = false → main environ cfg w = Exit 1.
Proof.
  intros Hkey. unfold main, Reviewer.init. by rewrite Hkey.
Qed.

(** With no changed file the run leaves the reviewer as it was. *)
Lemma run_reviews_no_files (w : World) (st : SmartCodeReviewer) :
  get_changed_files w (config st) = [] → run_reviews w st = st.
Proof. unfold run_reviews. by intros ->. Qed.

(** The scenario of the specification: one [hardcoded_secrets] finding
    of severity [high] on line 2, the tags [python] and
    [security-review-needed], and the status [needs_attention]. *)
Example secret_key_scenario :
  let st := run_reviews secret_world fresh_reviewer in
  security_issues st
  = [{| sf_file := "app.py"; sf_line := 2;
        sf_category := "hardcoded_secrets";
        sf_description := "Potential hardcoded secrets detected";
        sf_severity := "high" |}]
  ∧ option_map ai_tags (save_results st)
    = Some ["python"; "security-review-needed"]
  ∧ option_map (fun a => overall_status (ai_review_status a)) (save_results st)
    = Some needs_attention.
Proof. vm_compute. repeat split. Qed.

Lemma oversized_file_sample :
  should_review_file sample_world
    {| max_file_size := 100; ignore_patterns := ignore_patterns default_config |}
    "a.py" = Some false.
Proof.
  apply (oversized_file_excluded sample_world _ "a.py" 120%Z);
    [reflexivity | simpl; lia | by eexists].
Defined.

Lemma performance_tag_sample :
  "performance" ∈ ["performance"; "python"]
  ↔ ∃ r, r ∈ review_results neutral_reviewer
         ∧ get_truthy "performance_impact" r = true.
Proof.
  apply (performance_tag_iff neutral_reviewer [neutral_result]).
  vm_compute. reflexivity.
Defined.

End Scenarios.

(** * Further properties of the code *)

(** ** The scanner: lines and order of the findings *)

Section ScannerBounds.
Import PyStr Re Scanner Pipeline.

Lemma take_all (s : string) (n : nat) :
  String.length s ≤ n → take n s = s.
Proof.
  unfold take. revert n. induction s as [| c t IH]; intros n Hn.
  - by destruct n.
  - destruct n as [| n]; simpl in *; [lia |]. rewrite IH; [done | lia].
Qed.

Lemma count_newlines_take_le (s : string) (n : nat) :
  count_newlines (take n s) ≤ count_newlines s.
Proof.
  destruct (decide (n ≤ String.length s)) as [Hle | Hgt].
  - rewrite <- (take_all s (String.length s)) at 2 by done.
    by apply count_newlines_take_mono.
  - rewrite take_all; [done | lia].
Qed.

(** The offsets the scan lists lie at or after the point it started
    from, and they increase. *)
Lemma finditer_from_lower (icase : bool) (r : regex) (s : string)
    (pos skip p : nat) :
  p ∈ finditer_from icase r s pos skip → pos + skip ≤ p.
Proof.
  revert pos skip. induction s as [| a t IH]; intros pos skip Hp; simpl in Hp.
  - by apply elem_of_nil in Hp.
  - destruct skip as [| n].
    + destruct (match_at icase r (String a t)) as [len |].
      * apply elem_of_cons in Hp as [-> | Hp]; [lia |].
        apply IH in Hp. lia.
      * apply IH in Hp. lia.
    + apply IH in Hp. lia.
Qed.

Lemma finditer_from_increasing (icase : bool) (r : regex) (s : string)
    (pos skip : nat) :
  StronglySorted lt (finditer_from icase r s pos skip).
Proof.
  revert pos skip. induction s as [| a t IH]; intros pos skip; simpl.
  - constructor.
  - destruct skip as [| n]; [| apply IH].
    destruct (match_at icase r (String a t)) as [len |]; [| apply IH].
    constructor; [apply IH |].
    apply Forall_forall. intros p Hp%finditer_from_lower. lia.
Qed.

Lemma analyze_security_issues_entry (file_path content : string)
    (f : SecurityFinding) :
  f ∈ analyze_security_issues file_path content →
  ∃ category start,
    category ∈ scanner_categories
    ∧ start < String.length content
    ∧ f = finding file_path content category start.
Proof.
  intros (category & patterns & pattern & start & Hentry & _ & Hstart & ->)
    %analyze_security_issues_elem.
  exists category, start. split; [| split; [| done]].
  - unfold scanner_categories. apply list_elem_of_In, in_map_iff.
    exists (category, patterns). split; [done |]. by apply list_elem_of_In.
  - by apply finditer_sound in Hstart as [? _].
Qed.

(** X4.  Every finding of the scanner names the file it was given, has a
    line between 1 and the number of lines of the content, carries one
    of the three categories of the table, and has severity [high] when
    its category is [hardcoded_secrets] and [medium] otherwise; an empty
    content has no finding. *)
Theorem scanner_findings_in_range (file_path content : string) :
  (∀ f, f ∈ analyze_security_issues file_path content →
        sf_file f = file_path
        ∧ 1 ≤ sf_line f ≤ count_newlines content + 1
        ∧ sf_category f ∈ scanner_categories
        ∧ (sf_category f = "hardcoded_secrets" → sf_severity f = "high")
        ∧ (sf_category f ≠ "hardcoded_secrets" → sf_severity f = "medium"))
  ∧ analyze_security_issues file_path EmptyString = [].
Proof.
  split; [| reflexivity].
  intros f (category & start & Hcat & _ & ->)%analyze_security_issues_entry.
  simpl. split; [done |]. split.
  { unfold line_num. pose proof (count_newlines_take_le content start). lia. }
  split; [done |].
  destruct (String.eqb category "hardcoded_secrets") eqn:E.
  - apply String.eqb_eq in E. by split.
  - apply String.eqb_neq in E. by split.
Qed.

(** X5.  The findings of one pattern come in the order of the file:
    the offsets of the matches increase, so the line numbers never go
    down. *)
Theorem pattern_findings_in_file_order
    (file_path content category : string) (pattern : regex) :
  StronglySorted lt (finditer true pattern content)
  ∧ StronglySorted le
      (List.map sf_line (pattern_findings file_path content category pattern)).
Proof.
  split; [apply finditer_from_increasing |].
  unfold pattern_findings. rewrite List.map_map. simpl.
  apply StronglySorted_fmap with (R1 := lt).
  - intros m n Hlt. unfold line_num.
    pose proof (count_newlines_take_mono content m n). lia.
  - apply finditer_from_increasing.
Qed.

End ScannerBounds.

(** ** The run: what it accumulates *)

Section RunInvariants.
Import Json PySet Scanner Reviewer Pipeline.

Lemma review_file_security (w : World) (st : SmartCodeReviewer)
    (file_path : string) :
  security_issues (snd (review_file w st file_path))
  = security_issues st ++ scanned w file_path.
Proof.
  unfold review_file, scanned.
  repeat case_match; simpl; by rewrite ?app_nil_r.
Qed.

Lemma review_all_security (w : World) (files : list string)
    (st : SmartCodeReviewer) :
  security_issues (review_all w st files)
  = security_issues st ++ List.flat_map (scanned w) files.
Proof.
  revert st. induction files as [| file_path rest IH]; intros st; simpl.
  - by rewrite app_nil_r.
  - destruct (review_file w st file_path) as [r st'] eqn:Hr.
    rewrite IH. simpl.
    pose proof (review_file_security w st file_path) as Hsec.
    rewrite Hr in Hsec. simpl in Hsec. by rewrite Hsec, app_assoc.
Qed.

Lemma scanned_ext (w w' : World) (file_path : string) :
  fs_read w file_path = fs_read w' file_path →
  git_diff w file_path = git_diff w' file_path →
  scanned w file_path = scanned w' file_path.
Proof. unfold scanned. by intros -> ->. Qed.

(** X6.  The findings a run accumulates are those of the scanner on
    every file that has content and a diff, in the order of the files;
    they do not depend on what the language model answers or on whether
    its answer can be decoded. *)
Theorem security_issues_independent_of_model
    (w : World) (st : SmartCodeReviewer) (files : list string) :
  security_issues (review_all w st files)
  = security_issues st ++ List.flat_map (scanned w) files
  ∧ ∀ w', (∀ p, fs_read w p = fs_read w' p) →
          (∀ p, git_diff w p = git_diff w' p) →
          security_issues (review_all w' st files)
          = security_issues (review_all w st files).
Proof.
  split; [apply review_all_security |].
  intros w' Hread Hdiff. rewrite !review_all_security. f_equal.
  apply flat_map_ext. intros p. symmetry. by apply scanned_ext.
Qed.

Lemma review_all_result_origin (w : World) (st : SmartCodeReviewer)
    (files : list string) (r : pydict) :
  r ∈ review_results (review_all w st files) →
  r ∈ review_results st ∨ ∃ f, f ∈ files ∧ r = fst (review_file w st f).
Proof.
  rewrite review_all_results, elem_of_app. intros [H | H]; [by left |].
  right. apply list_elem_of_In, in_map_iff in H as (f & <- & Hf).
  exists f. by rewrite list_elem_of_In.
Qed.

Lemma file_tags_defined (file_changes : list pydict) :
  (∀ r, r ∈ file_changes → is_Some (change_file r)) →
  is_Some (file_tags file_changes).
Proof.
  induction file_changes as [| r rest IH]; intros Hall; simpl; [by eexists |].
  destruct (Hall r) as [p ->]; [apply list_elem_of_here |].
  destruct IH as [tags ->]; [| by eexists].
  intros r' Hr'. apply Hall. by apply list_elem_of_further.
Qed.

Lemma path_tags_in_vocabulary (file_path tag : string) :
  tag ∈ language_tag file_path ++ function_tags file_path →
  tag ∈ tag_vocabulary.
Proof.
  rewrite !list_elem_of_In. unfold language_tag, function_tags, tag_vocabulary.
  repeat case_match; simpl; intuition.
Qed.

Lemma file_tags_in_vocabulary (file_changes : list pydict)
    (tags : gset string) (tag : string) :
  file_tags file_changes = Some tags → tag ∈ tags → tag ∈ tag_vocabulary.
Proof.
  revert tags. induction file_changes as [| r rest IH]; simpl; intros tags.
  - intros [= <-] H. by apply elem_of_empty in H.
  - destruct (change_file r) as [p |]; [| done].
    destruct (file_tags rest) as [tags' |]; [| done].
    intros [= <-]. rewrite elem_of_union, elem_of_list_to_set.
    intros [H | H]; [by eapply path_tags_in_vocabulary | by eapply IH].
Qed.

Lemma result_tags_in_vocabulary (st : SmartCodeReviewer) (tag : string) :
  tag ∈ result_tags st → tag ∈ tag_vocabulary.
Proof.
  unfold result_tags, tag_vocabulary.
  repeat case_match;
    rewrite !elem_of_union, ?elem_of_singleton, ?elem_of_empty;
    intros Htag; apply list_elem_of_In; simpl; intuition.
Qed.

(** X7.  After a run [determine_tags] never fails on the results it is
    given by [save_results]: every result names its file.  The tags it
    returns all belong to a fixed vocabulary of thirteen tags. *)
Theorem determine_tags_after_run (w : World) (st : SmartCodeReviewer) :
  (∀ r, r ∈ review_results st → is_Some (change_file r)) →
  ∃ tags,
    determine_tags (run_reviews w st) (review_results (run_reviews w st))
    = Some tags
    ∧ ∀ tag, tag ∈ tags → tag ∈ tag_vocabulary.
Proof.
  intros Hinit. unfold determine_tags, tag_set.
  destruct (file_tags_defined (review_results (run_reviews w st)))
    as [ftags Hf].
  { intros r [Hr | (f & _ & ->)]%review_all_result_origin; [by apply Hinit |].
    unfold change_file. rewrite review_file_names_file. by eexists. }
  rewrite Hf. eexists. split; [done |].
  intros tag. rewrite py_sorted_elem_of, elem_of_elements, elem_of_union.
  intros [H | H];
    [by eapply file_tags_in_vocabulary | by eapply result_tags_in_vocabulary].
Qed.

(** X3.  When the scanner finds something in one of the files a run
    reviews, the run ends with a recorded security finding and an
    overall status [needs_attention]; and whenever [save_results] then
    writes its files, the status file says [needs_attention] and the
    tag file holds [security-review-needed]. *)
Theorem security_finding_needs_attention
    (w : World) (st : SmartCodeReviewer) (file_path : string) :
  file_path ∈ get_changed_files w (config st) →
  scanned w file_path ≠ [] →
  security_issues (run_reviews w st) ≠ []
  ∧ overall_status_of (run_reviews w st) = needs_attention
  ∧ ∀ artifacts, save_results (run_reviews w st) = Some artifacts →
      overall_status (ai_review_status artifacts) = needs_attention
      ∧ "security-review-needed" ∈ ai_tags artifacts.
Proof.
  intros Hin Hfound.
  assert (Hsec : security_issues (run_reviews w st) ≠ []).
  { unfold run_reviews. rewrite review_all_security.
    intros [_ Hflat]%app_eq_nil. apply Hfound.
    destruct (scanned w file_path) as [| f fs] eqn:Hs; [done |].
    assert (Hf : In f (List.flat_map (scanned w)
                         (get_changed_files w (config st)))).
    { apply in_flat_map. exists file_path. rewrite Hs.
      split; [by apply list_elem_of_In | by left]. }
    by rewrite Hflat in Hf. }
  assert (Hstatus : overall_status_of (run_reviews w st) = needs_attention).
  { apply overall_status_of_needs_attention. left.
    destruct (security_issues (run_reviews w st)); [done | simpl; lia]. }
  split; [done |]. split; [done |].
  intros artifacts. unfold save_results, save_results_status.
  destruct (total_issues_of _) as [total |]; [| done].
  destruct (high_severity_of _) as [high |]; [| done]. simpl.
  unfold determine_tags, tag_set.
  destruct (file_tags _) as [ftags |]; [| done]. simpl.
  intros [= <-]. simpl. split; [done |].
  rewrite py_sorted_elem_of, elem_of_elements, elem_of_union. right.
  unfold result_tags.
  destruct (security_issues (run_reviews w st)); [done |].
  rewrite !elem_of_union, elem_of_singleton. by right.
Qed.

End RunInvariants.

Section RunInvariantSamples.
Import Json Scanner Reviewer Pipeline Samples.

Lemma security_issues_independent_sample :
  security_issues (review_all offline_world fresh_reviewer ["a.py"; "b.py"])
  = security_issues (review_all sample_world fresh_reviewer ["a.py"; "b.py"]).
Proof.
  by apply (security_issues_independent_of_model sample_world fresh_reviewer
              ["a.py"; "b.py"]).
Defined.

Lemma determine_tags_after_run_sample :
  ∃ tags,
    determine_tags (run_reviews sample_world fresh_reviewer)
      (review_results (run_reviews sample_world fresh_reviewer)) = Some tags
    ∧ ∀ tag, tag ∈ tags → tag ∈ tag_vocabulary.
Proof.
  apply (determine_tags_after_run sample_world fresh_reviewer).
  intros r Hr. by apply elem_of_nil in Hr.
Defined.

Lemma security_finding_sample :
  overall_status_of (run_reviews secret_world fresh_reviewer)
  = needs_attention.
Proof.
  apply (security_finding_needs_attention secret_world fresh_reviewer "app.py").
  - apply list_elem_of_here.
  - discriminate.
Defined.

End RunInvariantSamples.

(** ** [create_review_prompt]: the size of the excerpt *)

Section PromptBounds.
Import PyStr Reviewer.

Lemma length_append (s1 s2 : string) :
  String.length (s1 +:+ s2) = String.length s1 + String.length s2.
Proof.
  induction s1 as [| c t IH]; [done |].
  rewrite append_cons. simpl. by rewrite IH.
Qed.

Lemma length_take (n : nat) (s : string) :
  String.length (take n s) = Nat.min n (String.length s).
Proof.
  unfold take. revert n. induction s as [| c t IH]; intros n.
  - by destruct n.
  - destruct n as [| n]; simpl; [done |]. by rewrite IH.
Qed.

(** X8.  The excerpt of the content in the prompt is the content itself
    when it has at most 3000 characters, and otherwise its first 3000
    characters followed by three dots, 3003 characters in all; the diff
    goes into the prompt whole, whatever its length. *)
Theorem prompt_excerpt_bounded (file_path diff content : string) :
  String.length (p_excerpt (create_review_prompt file_path diff content))
  ≤ 3003
  ∧ (String.length content ≤ 3000 →
     p_excerpt (create_review_prompt file_path diff content) = content)
  ∧ (3000 < String.length content →
     p_excerpt (create_review_prompt file_path diff content)
     = take 3000 content +:+ "..."
     ∧ String.length (p_excerpt (create_review_prompt file_path diff content))
       = 3003)
  ∧ p_diff (create_review_prompt file_path diff content) = diff.
Proof.
  cbn [create_review_prompt p_excerpt p_diff].
  destruct (Nat.ltb_spec 3000 (String.length content)) as [Hlong | Hshort].
  - rewrite length_append, length_take.
    change (String.length "...") with 3.
    repeat split; intros; lia.
  - rewrite append_nil_r, take_all by done.
    repeat split; intros; try done; lia.
Qed.

End PromptBounds.

(** ** The tag file between the reviewer and the tagger *)

Section TagFile.
Import PyStr PySet Reviewer Pipeline TaggerRun.

Lemma universal_newlines_id (s : string) :
  has_char carriage_return s = false → universal_newlines s = s.
Proof.
  induction s as [| c t IH]; [done |]. simpl.
  destruct (Ascii.eqb c carriage_return); [done |]. simpl.
  intros H. by rewrite IH.
Qed.

Lemma has_char_append (c : ascii) (s1 s2 : string) :
  has_char c (s1 +:+ s2) = has_char c s1 || has_char c s2.
Proof.
  induction s1 as [| a t IH]; [done |].
  rewrite append_cons. simpl. by rewrite IH, orb_assoc.
Qed.

Lemma readlines_line (line rest : string) :
  has_char newline line = false →
  readlines (line +:+ String newline rest)
  = (line +:+ String newline EmptyString) :: readlines rest.
Proof.
  induction line as [| c t IH]; intros Hline.
  - reflexivity.
  - simpl in Hline. apply orb_false_iff in Hline as [Hc Ht].
    rewrite !append_cons. simpl. rewrite Hc. by rewrite IH.
Qed.

Lemma readlines_last (line : string) :
  line ≠ EmptyString → has_char newline line = false →
  readlines line = [line].
Proof.
  induction line as [| c t IH]; [done |]. intros _ Hline.
  simpl in Hline. apply orb_false_iff in Hline as [Hc Ht].
  simpl. rewrite Hc. destruct t as [| c' t']; [done |].
  by rewrite IH.
Qed.

Lemma rstrip_newline (s : string) :
  rstrip (s +:+ String newline EmptyString) = rstrip s.
Proof.
  induction s as [| c t IH]; [done |].
  rewrite append_cons. simpl. by rewrite IH.
Qed.

Lemma length_lstrip (s : string) :
  String.length (lstrip s) ≤ String.length s.
Proof.
  induction s as [| c t IH]; simpl; [done |].
  destruct (Re.is_space c); simpl; lia.
Qed.

Lemma length_rstrip (s : string) :
  String.length (rstrip s) ≤ String.length s.
Proof.
  induction s as [| c t IH]; simpl; [done |].
  destruct (rstrip t); [destruct (Re.is_space c) |]; simpl in *; lia.
Qed.

(** A text that [strip] leaves alone does not start with white space. *)
Lemma strip_fixed_lstrip (s suffix : string) :
  strip s = s → s ≠ EmptyString → lstrip (s +:+ suffix) = s +:+ suffix.
Proof.
  destruct s as [| c t]; [done |]. intros Hstrip _.
  rewrite append_cons. simpl.
  destruct (Re.is_space c) eqn:Hc; [| done]. exfalso.
  unfold strip in Hstrip. simpl in Hstrip. rewrite Hc in Hstrip.
  pose proof (length_rstrip (lstrip t)) as H1.
  pose proof (length_lstrip t) as H2.
  rewrite Hstrip in H1. simpl in H1. lia.
Qed.

Lemma strip_stored_line (tag : string) :
  storable tag → strip (tag +:+ String newline EmptyString) = tag.
Proof.
  intros (Hne & Hstrip & _ & _). unfold strip.
  rewrite strip_fixed_lstrip, rstrip_newline by done.
  rewrite <- Hstrip at 2. unfold strip.
  rewrite <- (append_nil_r tag) at 2. by rewrite strip_fixed_lstrip, append_nil_r.
Qed.

Lemma tags_text_cons (tag next : string) (rest : list string) :
  tags_text (tag :: next :: rest)
  = tag +:+ String newline (tags_text (next :: rest)).
Proof. reflexivity. Qed.

(** The text written for a list of storable tags is read back as the
    same list. *)
Lemma load_ai_tags_tags_text (tags : list string) :
  Forall storable tags → load_ai_tags (Some (tags_text tags)) = tags.
Proof.
  intros Hall. unfold load_ai_tags.
  assert (Hcr : has_char carriage_return (tags_text tags) = false).
  { induction Hall as [| tag rest (_ & _ & _ & Hcr) Hrest IH]; [done |].
    destruct rest as [| next rest]; [done |].
    rewrite tags_text_cons, has_char_append. simpl. by rewrite Hcr, IH. }
  rewrite universal_newlines_id by done. clear Hcr.
  induction Hall as [| tag rest Htag Hrest IH]; [done |].
  destruct rest as [| next rest].
  - destruct Htag as (Hne & Hstrip & Hnl & Hcr).
    change (tags_text [tag]) with tag. rewrite readlines_last by done.
    simpl. rewrite Hstrip.
    destruct (String.eqb_spec tag ""); [done |]. simpl. by rewrite Hstrip.
  - rewrite tags_text_cons, readlines_line by apply Htag.
    cbn [List.filter]. rewrite strip_stored_line by done.
    destruct (String.eqb_spec tag "") as [-> | _]; [by destruct Htag |].
    cbn [negb List.map]. rewrite strip_stored_line by done.
    f_equal. apply IH.
Qed.

Lemma vocabulary_storable :
  Forall storable (tag_vocabulary ++ status_tags).
Proof. repeat constructor; done. Qed.

(** X9.  The tag file is a faithful hand-over: whenever [save_results]
    writes its files, [load_ai_tags] reads from [ai_tags.txt] exactly
    the list of tags that was saved; and it reads no tag when the file
    does not exist. *)
Theorem saved_tags_read_back (st : SmartCodeReviewer) (artifacts : Artifacts) :
  save_results st = Some artifacts →
  load_ai_tags (Some (tags_text (ai_tags artifacts))) = ai_tags artifacts
  ∧ load_ai_tags None = [].
Proof.
  intros Hsave. split; [| done]. apply load_ai_tags_tags_text.
  unfold save_results in Hsave.
  destruct (save_results_status st) as [status |]; [| done]. simpl in Hsave.
  destruct (determine_tags st (review_results st)) as [tags |] eqn:Htags;
    [| done].
  injection Hsave as <-. simpl.
  unfold determine_tags, tag_set in Htags.
  destruct (file_tags (review_results st)) as [ftags |] eqn:Hf; [| done].
  injection Htags as <-.
  apply Forall_forall. intros tag.
  rewrite py_sorted_elem_of, elem_of_elements, elem_of_union.
  intros Htag.
  assert (Hvoc : tag ∈ tag_vocabulary).
  { destruct Htag; [by eapply file_tags_in_vocabulary
                   | by eapply result_tags_in_vocabulary]. }
  pose proof vocabulary_storable as Hall.
  rewrite Forall_forall in Hall. apply Hall, elem_of_app. by left.
Qed.

End TagFile.

(** ** The status file and the tags the tagger adds *)

Section StatusTags.
Import Json PySet Reviewer Pipeline Tagger TaggerRun.

Lemma length_list_ascii_of_string (s : string) :
  length (list_ascii_of_string s) = String.length s.
Proof. induction s as [| c t IH]; simpl; [done | by rewrite IH]. Qed.

Lemma py_iter_len (v : json) (items : list json) (n : nat) :
  py_iter v = Some items → py_len v = Some n → length items = n.
Proof.
  destruct v; simpl; try done; intros [= <-] [= <-];
    by rewrite ?length_map, ?length_list_ascii_of_string.
Qed.

Lemma count_high_le (issues : list json) (n : nat) :
  count_high issues = Some n → n ≤ length issues.
Proof.
  revert n. induction issues as [| issue rest IH]; simpl; intros n.
  - by intros [= <-].
  - destruct (is_high issue) as [b |]; [| done]. simpl.
    destruct (count_high rest) as [m |]; [| done]. simpl.
    intros [= <-]. specialize (IH m eq_refl). destruct b; simpl; lia.
Qed.

Lemma high_severity_le_total (results : list pydict) (high total : nat) :
  high_severity_of results = Some high →
  total_issues_of results = Some total → high ≤ total.
Proof.
  revert high total. induction results as [| r rest IH]; simpl;
    intros high total.
  - by intros [= <-] [= <-].
  - destruct (py_iter (issues_of r)) as [issues |] eqn:Hiter; [| done]. simpl.
    destruct (count_high issues) as [n |] eqn:Hn; [| done]. simpl.
    destruct (high_severity_of rest) as [m |]; [| done]. simpl.
    intros [= <-].
    destruct (py_len (issues_of r)) as [len |] eqn:Hlen; [| done]. simpl.
    destruct (total_issues_of rest) as [t |]; [| done]. simpl.
    intros [= <-]. specialize (IH m t eq_refl eq_refl).
    apply count_high_le in Hn. rewrite (py_iter_len _ _ _ Hiter Hlen) in Hn.
    lia.
Qed.

Lemma save_results_status_facts (st : SmartCodeReviewer)
    (status : AggregateStatus) :
  save_results_status st = Some status →
  total_files status = length (review_results st)
  ∧ security_issue_count status = length (security_issues st)
  ∧ high_severity_issues status ≤ total_issues status
  ∧ total_issues_of (review_results st) = Some (total_issues status).
Proof.
  unfold save_results_status.
  destruct (total_issues_of (review_results st)) as [total |] eqn:Ht;
    [| done].
  destruct (high_severity_of (review_results st)) as [high |] eqn:Hh;
    [| done].
  simpl. intros [= <-]. simpl. repeat split.
  by eapply high_severity_le_total.
Qed.

(** X10.  The status [save_results] writes is consistent: it counts
    every result as a file and every recorded finding as a security
    issue, and it never reports more high-severity issues than
    issues. *)
Theorem saved_status_consistent (st : SmartCodeReviewer)
    (status : AggregateStatus) :
  save_results_status st = Some status →
  total_files status = length (review_results st)
  ∧ security_issue_count status = length (security_issues st)
  ∧ high_severity_issues status ≤ total_issues status.
Proof.
  intros Hstatus.
  destruct (save_results_status_facts st status Hstatus) as (? & ? & ? & _).
  done.
Qed.

Lemma py_gt_int (z n : Z) : py_gt (JInt z) n = Some (n <? z)%Z.
Proof.
  unfold py_gt, num_of, Qle_bool. simpl. f_equal.
  rewrite !Z.mul_1_r. by rewrite Z.ltb_antisym.
Qed.

Lemma py_eq_zero_int (z : Z) : py_eq_zero (JInt z) = (z =? 0)%Z.
Proof.
  unfold py_eq_zero, num_of, Qeq_bool. simpl. by rewrite Z.mul_1_r.
Qed.

(** The tags collected for a status whose three counts are integers. *)
Lemma enhanced_tags_counts (ai_tags : list string) (review_status : pydict)
    (security high total : Z) :
  status_get "security_issues" review_status = JInt security →
  status_get "high_severity_issues" review_status = JInt high →
  status_get "total_issues" review_status = JInt total →
  enhanced_tags ai_tags review_status
  = Some (((ai_tags
            ++ (if (0 <? security)%Z then ["security-review-needed"] else []))
           ++ (if (0 <? high)%Z then ["high-priority"]
               else if (total =? 0)%Z then ["ready-for-review"] else []))
          ++ ["ai-reviewed"]
          ++ (if (10 <? total)%Z then ["needs-attention"]
              else if (total =? 0)%Z then ["clean-code"] else [])).
Proof.
  intros Hs Hh Ht. unfold enhanced_tags.
  rewrite Hs, Hh, Ht, !py_gt_int, !py_eq_zero_int.
  by rewrite <- !app_assoc.
Qed.

Lemma tag_in_enumeration (tags out : list string) (tag : string) :
  enumerates (list_to_set tags) out → (tag ∈ out ↔ tag ∈ tags).
Proof. intros [_ H]. by rewrite H, elem_of_list_to_set. Qed.

(** X11.  [enhance_tags_with_context] loses no tag it is given, always
    adds [ai-reviewed], and adds nothing but its six status tags. *)
Theorem enhance_keeps_tags (ai_tags : list string) (review_status : pydict)
    (out : list string) :
  enhance_tags_with_context ai_tags review_status out →
  (∀ tag, tag ∈ ai_tags → tag ∈ out)
  ∧ "ai-reviewed" ∈ out
  ∧ (∀ tag, tag ∈ out → tag ∈ ai_tags ∨ tag ∈ status_tags).
Proof.
  intros (tags & Htags & Hout). unfold enhanced_tags in Htags.
  destruct (py_gt (status_get "security_issues" _) 0) as [security |];
    [| done].
  destruct (py_gt (status_get "high_severity_issues" _) 0) as [high |];
    [| done].
  destruct (py_gt (status_get "total_issues" _) 10) as [many |]; [| done].
  injection Htags as <-.
  split; [| split]; intros *; rewrite !(tag_in_enumeration _ out _ Hout);
    rewrite !elem_of_app.
  - tauto.
  - left. right. apply list_elem_of_here.
  - unfold status_tags.
    destruct security, high, many;
      repeat case_match;
      rewrite ?elem_of_cons, ?elem_of_nil; intuition (subst; auto).
Qed.

End StatusTags.

Section SavedStatusTags.
Import Json PySet Reviewer Pipeline Tagger TaggerRun.

Lemma path_tags_names (file_path tag : string) :
  tag ∈ language_tag file_path ++ function_tags file_path →
  tag ∈ path_tag_names.
Proof.
  rewrite !list_elem_of_In. unfold language_tag, function_tags, path_tag_names.
  repeat case_match; simpl; intuition.
Qed.

Lemma file_tags_names (file_changes : list pydict) (tags : gset string)
    (tag : string) :
  file_tags file_changes = Some tags → tag ∈ tags → tag ∈ path_tag_names.
Proof.
  revert tags. induction file_changes as [| r rest IH]; simpl; intros tags.
  - intros [= <-] H. by apply elem_of_empty in H.
  - destruct (change_file r) as [p |]; [| done].
    destruct (file_tags rest) as [tags' |]; [| done].
    intros [= <-]. rewrite elem_of_union, elem_of_list_to_set.
    intros [H | H]; [by eapply path_tags_names | by eapply IH].
Qed.

(** The tag [security-review-needed] is saved exactly when a finding
    was recorded; none of the other status tags is ever saved. *)
Lemma saved_tags_status_tags (st : SmartCodeReviewer)
    (file_changes : list pydict) (tags : list string) :
  determine_tags st file_changes = Some tags →
  ("security-review-needed" ∈ tags ↔ security_issues st ≠ [])
  ∧ ∀ tag, tag ∈ tags → tag ∈ status_tags → tag = "security-review-needed".
Proof.
  unfold determine_tags, tag_set.
  destruct (file_tags file_changes) as [ftags |] eqn:Hf; [| done].
  intros [= <-].
  assert (Hfile : ∀ tag, tag ∈ ftags → tag ∈ status_tags → False).
  { intros tag Htag%(file_tags_names _ _ _ Hf).
    unfold path_tag_names in Htag. unfold status_tags.
    rewrite list_elem_of_In in Htag. rewrite list_elem_of_In.
    simpl in *. intuition congruence. }
  split.
  - rewrite py_sorted_elem_of, elem_of_elements, elem_of_union.
    unfold result_tags. split.
    + intros [H | H].
      * exfalso. apply (Hfile _ H), list_elem_of_here.
      * destruct (security_issues st); [| done]. exfalso. revert H.
        repeat case_match;
          rewrite !elem_of_union, ?elem_of_singleton, ?elem_of_empty;
          intuition discriminate.
    + intros Hne. right. destruct (security_issues st); [done |].
      rewrite !elem_of_union, elem_of_singleton. by right.
  - intros tag. rewrite py_sorted_elem_of, elem_of_elements, elem_of_union.
    intros [H | H] Hstatus; [by destruct (Hfile _ H) |].
    revert H Hstatus. unfold result_tags, status_tags.
    rewrite !list_elem_of_In. simpl.
    repeat case_match;
      rewrite !elem_of_union, ?elem_of_singleton, ?elem_of_empty;
      intuition (subst; try discriminate; auto).
Qed.

(** What the tagger adds for a status with integer counts, when the tags
    it is given hold none of the five status tags that only it adds. *)
Lemma enhance_counts_iff (ai_tags out : list string) (status : AggregateStatus) :
  (∀ tag, tag ∈ ai_tags → tag ∈ status_tags →
          tag = "security-review-needed") →
  enhance_tags_with_context ai_tags (status_json status) out →
  ("security-review-needed" ∈ out
   ↔ "security-review-needed" ∈ ai_tags ∨ 0 < security_issue_count status)
  ∧ ("high-priority" ∈ out ↔ 0 < high_severity_issues status)
  ∧ ("ready-for-review" ∈ out
     ↔ high_severity_issues status = 0 ∧ total_issues status = 0)
  ∧ ("clean-code" ∈ out ↔ total_issues status = 0)
  ∧ ("needs-attention" ∈ out ↔ 10 < total_issues status).
Proof.
  intros Hai (tags & Htags & Hout).
  rewrite (enhanced_tags_counts ai_tags (status_json status)
             (Z.of_nat (security_issue_count status))
             (Z.of_nat (high_severity_issues status))
             (Z.of_nat (total_issues status)) eq_refl eq_refl eq_refl)
    in Htags.
  injection Htags as <-.
  assert (Hnot : ∀ tag, tag ∈ status_tags → tag ≠ "security-review-needed" →
                        tag ∉ ai_tags).
  { intros tag Hs Hne Hin. by apply Hne, Hai. }
  assert (H1 : "high-priority" ∉ ai_tags)
    by (apply Hnot; [apply list_elem_of_In; simpl; tauto | discriminate]).
  assert (H2 : "ready-for-review" ∉ ai_tags)
    by (apply Hnot; [apply list_elem_of_In; simpl; tauto | discriminate]).
  assert (H3 : "clean-code" ∉ ai_tags)
    by (apply Hnot; [apply list_elem_of_In; simpl; tauto | discriminate]).
  assert (H4 : "needs-attention" ∉ ai_tags)
    by (apply Hnot; [apply list_elem_of_In; simpl; tauto | discriminate]).
  clear Hnot Hai.
  rewrite !(tag_in_enumeration _ out _ Hout), !elem_of_app. clear Hout.
  destruct (Z.ltb_spec 0 (Z.of_nat (security_issue_count status)));
    destruct (Z.ltb_spec 0 (Z.of_nat (high_severity_issues status)));
    destruct (Z.eqb_spec (Z.of_nat (total_issues status)) 0);
    destruct (Z.ltb_spec 10 (Z.of_nat (total_issues status)));
    rewrite ?elem_of_cons, ?elem_of_nil;
    repeat split; intros; try lia;
    intuition (try discriminate; try lia; auto).
Qed.

(** X12.  The labels the tagger adds for a status written by
    [save_results]: whenever the files were saved, the tagger can build
    its list, and in any list it builds [security-review-needed] is
    present exactly when a finding was recorded, [high-priority] exactly
    when a high-severity issue was counted, [ready-for-review] and
    [clean-code] exactly when no issue was counted, and
    [needs-attention] exactly when more than ten were. *)
Theorem saved_status_labels (st : SmartCodeReviewer) (artifacts : Artifacts) :
  save_results st = Some artifacts →
  (∃ out, enhance_tags_with_context (ai_tags artifacts)
            (status_json (ai_review_status artifacts)) out)
  ∧ ∀ out,
      enhance_tags_with_context (ai_tags artifacts)
        (status_json (ai_review_status artifacts)) out →
      ("security-review-needed" ∈ out ↔ security_issues st ≠ [])
      ∧ ("high-priority" ∈ out
         ↔ 0 < high_severity_issues (ai_review_status artifacts))
      ∧ ("ready-for-review" ∈ out
         ↔ total_issues (ai_review_status artifacts) = 0)
      ∧ ("clean-code" ∈ out ↔ total_issues (ai_review_status artifacts) = 0)
      ∧ ("needs-attention" ∈ out
         ↔ 10 < total_issues (ai_review_status artifacts)).
Proof.
  unfold save_results.
  destruct (save_results_status st) as [status |] eqn:Hstatus; [| done].
  simpl.
  destruct (determine_tags st (review_results st)) as [tags |] eqn:Htags;
    [| done].
  intros [= <-]. simpl.
  destruct (saved_tags_status_tags _ _ _ Htags) as [Hsec Hother].
  destruct (save_results_status_facts _ _ Hstatus) as (_ & Hcount & Hle & _).
  split.
  - eexists (elements _). eexists. split; [| apply enumerates_elements].
    by apply (enhanced_tags_counts tags (status_json status)
                (Z.of_nat (security_issue_count status))
                (Z.of_nat (high_severity_issues status))
                (Z.of_nat (total_issues status))).
  - intros out Hout.
    destruct (enhance_counts_iff tags out status Hother Hout)
      as (H1 & H2 & H3 & H4 & H5).
    split; [| split; [done | split; [| done]]].
    + rewrite H1, Hsec, Hcount.
      destruct (security_issues st) as [| f fs]; simpl.
      * split; [intros [? | ?]; [done | lia] | done].
      * split; [done | by left].
    + rewrite H3. split; [tauto | lia].
Qed.

End SavedStatusTags.

Section FailedReviews.
Import Json PySet Reviewer Pipeline Tagger TaggerRun.

Lemma review_file_without_issues (w : World) (st : SmartCodeReviewer)
    (file_path : string) :
  no_review_succeeds w →
  dict_get "issues" (fst (review_file w st file_path)) = None.
Proof.
  intros Hfail. unfold review_file.
  destruct (fs_read w file_path) as [[| c content] |]; try done.
  destruct (git_diff w file_path) as [[| c' diff] |]; try done.
  specialize (Hfail (create_review_prompt file_path (String c' diff)
                       (String c content))).
  destruct (generate_content w _) as [text | message]; [| done].
  destruct (json_loads w text) as [[] |] eqn:Hloads; try done.
  by destruct (Hfail kv).
Qed.

Lemma counts_without_issues (results : list pydict) :
  Forall (fun r => dict_get "issues" r = None) results →
  total_issues_of results = Some 0 ∧ high_severity_of results = Some 0.
Proof.
  induction 1 as [| r rest Hr _ [IHt IHh]]; [done |].
  simpl. unfold issues_of, dict_get_default. by rewrite Hr, IHt, IHh.
Qed.

End FailedReviews.

Section FailedReviewSamples.
Import Json Reviewer Pipeline Tagger TaggerRun Samples.

Lemma saved_status_labels_sample :
  ∃ out, enhance_tags_with_context ["python"; "security-review-needed"]
           (status_json {| total_files := 1; total_issues := 1;
                           high_severity_issues := 0;
                           security_issue_count := 1;
                           overall_status := needs_attention |}) out.
Proof.
  destruct (saved_status_labels (run_reviews secret_world fresh_reviewer)
              {| ai_review_status :=
                   {| total_files := 1; total_issues := 1;
                      high_severity_issues := 0;
                      security_issue_count := 1;
                      overall_status := needs_attention |};
                 review_summary :=
                   review_results (run_reviews secret_world fresh_reviewer);
                 security_issues_json :=
                   security_issues (run_reviews secret_world fresh_reviewer);
                 ai_tags := ["python"; "security-review-needed"] |})
    as [Hex _]; [vm_compute; reflexivity | exact Hex].
Defined.

Lemma saved_tags_sample :
  load_ai_tags (Some (tags_text ["python"; "security-review-needed"]))
  = ["python"; "security-review-needed"].
Proof.
  refine (proj1 (saved_tags_read_back
                   (run_reviews secret_world fresh_reviewer)
                   {| ai_review_status :=
                        {| total_files := 1; total_issues := 1;
                           high_severity_issues := 0;
                           security_issue_count := 1;
                           overall_status := needs_attention |};
                      review_summary :=
                        review_results
                          (run_reviews secret_world fresh_reviewer);
                      security_issues_json :=
                        security_issues
                          (run_reviews secret_world fresh_reviewer);
                      ai_tags := ["python"; "security-review-needed"] |} _)).
  vm_compute. reflexivity.
Defined.

Lemma saved_status_sample :
  total_files {| total_files := 1; total_issues := 0;
                 high_severity_issues := 0; security_issue_count := 0;
                 overall_status := approved |} = 1.
Proof.
  refine (proj1 (saved_status_consistent neutral_reviewer _ _)).
  vm_compute. reflexivity.
Defined.

Lemma enhance_keeps_tags_sample :
  "python" ∈ ["python"; "ready-for-review"; "ai-reviewed"; "clean-code"].
Proof.
  refine (proj1 (enhance_keeps_tags ["python"] []
                   ["python"; "ready-for-review"; "ai-reviewed"; "clean-code"]
                   _) "python" _); [| apply list_elem_of_here].
  exists ["python"; "ready-for-review"; "ai-reviewed"; "clean-code"].
  split; [reflexivity |]. split.
  - apply (bool_decide_unpack _). by vm_compute.
  - intros x. by rewrite elem_of_list_to_set.
Defined.

End FailedReviewSamples.

(** ** The tagger's run *)

Section TaggerLoop.
Import Json PySet Tagger TaggerRun.

Lemma create_label_gitlab_present (labels : list (string * string))
    (log : list Request) (tag color : string) :
  str_in tag (List.map fst labels) = true →
  create_label_if_needed gitlab tag color
    {| host_state := labels; requests := log |}
  = (true, {| host_state := labels; requests := log ++ [ListLabels] |}).
Proof.
  intros Hin. unfold create_label_if_needed, get_existing_labels, gitlab.
  simpl. by rewrite Hin.
Qed.

Lemma create_label_gitlab_absent (labels : list (string * string))
    (log : list Request) (tag color : string) :
  str_in tag (List.map fst labels) = false →
  create_label_if_needed gitlab tag color
    {| host_state := labels; requests := log |}
  = (true, {| host_state := labels ++ [(tag, color)];
              requests := (log ++ [ListLabels]) ++ [CreateLabel tag color] |}).
Proof.
  intros Hin. unfold create_label_if_needed, get_existing_labels, gitlab.
  simpl. by rewrite Hin.
Qed.

(** The loop over the tags on a project that answers every request. *)
Lemma create_labels_gitlab (tags : list string) :
  ∀ (labels : list (string * string)) (log : list Request),
  ∃ added log',
    create_labels gitlab tags {| host_state := labels; requests := log |}
    = (tags, {| host_state := labels ++ added; requests := log ++ log' |})
    ∧ (∀ tag, tag ∈ tags → tag ∈ (List.map fst (labels ++ added)))
    ∧ (∀ entry, entry ∈ added →
         fst entry ∈ tags ∧ (fst entry ∉ List.map fst labels)
         ∧ snd entry = label_color (fst entry))
    ∧ NoDup (List.map fst added)
    ∧ length (List.filter is_create log') = length added.
Proof.
  induction tags as [| tag rest IH]; intros labels log.
  - exists [], []. rewrite !app_nil_r. repeat split.
    + intros tag H. by apply elem_of_nil in H.
    + by apply elem_of_nil in H.
    + by apply elem_of_nil in H.
    + by apply elem_of_nil in H.
    + constructor.
  - cbn [create_labels].
    destruct (str_in tag (List.map fst labels)) eqn:Hin.
    + rewrite create_label_gitlab_present by done.
      destruct (IH labels (log ++ [ListLabels]))
        as (added & log' & -> & Hall & Hadded & Hnd & Hlen).
      exists added, ([ListLabels] ++ log'). rewrite app_assoc.
      split; [done |]. split; [| split; [| split; [done | done]]].
      * intros t [-> | Ht]%elem_of_cons; [| by apply Hall].
        rewrite List.map_app, elem_of_app. left. by apply str_in_elem_of.
      * intros entry He. destruct (Hadded entry He) as (? & ? & ?).
        split; [by apply list_elem_of_further | done].
    + rewrite create_label_gitlab_absent by done.
      destruct (IH (labels ++ [(tag, label_color tag)])
                  ((log ++ [ListLabels])
                   ++ [CreateLabel tag (label_color tag)]))
        as (added & log' & -> & Hall & Hadded & Hnd & Hlen).
      exists ((tag, label_color tag) :: added),
             ([ListLabels; CreateLabel tag (label_color tag)] ++ log').
      split.
      { f_equal. f_equal; [by rewrite <- app_assoc |].
        by rewrite <- !app_assoc. }
      assert (Hnot : str_in tag (List.map fst labels) ≠ true) by congruence.
      rewrite str_in_elem_of in Hnot.
      split; [| split; [| split]].
      * intros t [-> | Ht]%elem_of_cons.
        -- rewrite List.map_app, elem_of_app. right. apply list_elem_of_here.
        -- specialize (Hall t Ht). by rewrite <- app_assoc in Hall.
      * intros entry [-> | He]%elem_of_cons.
        { simpl. split; [apply list_elem_of_here | done]. }
        destruct (Hadded entry He) as (Ht & Hfresh & Hcolor).
        split; [by apply list_elem_of_further |]. split; [| done].
        intros Hl. apply Hfresh. rewrite List.map_app, elem_of_app. by left.
      * simpl. apply NoDup_cons. split; [| done].
        intros (entry & Heq & He)%list_elem_of_fmap.
        destruct (Hadded entry He) as (_ & Hfresh & _). apply Hfresh.
        rewrite <- Heq, List.map_app, elem_of_app. right.
        apply list_elem_of_here.
      * simpl. by rewrite Hlen.
Qed.

(** X14.  On a project that answers every request, the loop of [run]
    keeps every tag, and afterwards every tag is a label of the project.
    The labels the project had are still there, unchanged and in place;
    each label added is one of the tags, was missing before, is added
    once, and has the color of the table (or the default); and every
    creation call sent has added a label. *)
Theorem labels_created_once (tags : list string)
    (ss : Session (list (string * string))) :
  fst (create_labels gitlab tags ss) = tags
  ∧ (∀ tag, tag ∈ tags →
       tag ∈ (List.map fst
                (host_state (snd (create_labels gitlab tags ss)))))
  ∧ ∃ added,
      host_state (snd (create_labels gitlab tags ss)) = host_state ss ++ added
      ∧ NoDup (List.map fst added)
      ∧ (∀ entry, entry ∈ added →
           fst entry ∈ tags ∧ (fst entry ∉ List.map fst (host_state ss))
           ∧ snd entry = label_color (fst entry))
      ∧ creation_calls (snd (create_labels gitlab tags ss))
        = creation_calls ss + length added.
Proof.
  destruct ss as [labels log].
  destruct (create_labels_gitlab tags labels log)
    as (added & log' & -> & Hall & Hadded & Hnd & Hlen).
  simpl. split; [done |]. split; [done |].
  exists added. repeat split; try done; try (by apply Hadded).
  unfold creation_calls. simpl.
  by rewrite List.filter_app, length_app, Hlen.
Qed.

Lemma blank_universal_newlines (n : nat) (s : string) :
  String.length s ≤ n → blank s = true → blank (universal_newlines s) = true.
Proof.
  revert s. induction n as [| n IH]; intros s Hlen Hblank.
  - by destruct s; [| simpl in Hlen; lia].
  - destruct s as [| c t]; [done |]. simpl in *.
    apply andb_true_iff in Hblank as [Hc Ht].
    destruct (Ascii.eqb c carriage_return).
    + simpl. destruct t as [| c' t']; [done |]. simpl in *.
      apply andb_true_iff in Ht as [Hc' Ht'].
      destruct (Ascii.eqb c' PyStr.newline).
      * apply IH; [lia | done].
      * apply (IH (String c' t')); [simpl; lia | simpl; by rewrite Hc'].
    + simpl. rewrite Hc. apply IH; [lia | done].
Qed.

Lemma readlines_blank (s : string) :
  blank s = true → Forall (fun line => blank line = true) (readlines s).
Proof.
  induction s as [| c t IH]; [constructor |]. simpl.
  intros [Hc Ht]%andb_true_iff. specialize (IH Ht).
  destruct (Ascii.eqb c PyStr.newline).
  - constructor; [simpl; by rewrite Hc | done].
  - destruct (readlines t) as [| line rest]; constructor.
    + simpl. by rewrite Hc.
    + constructor.
    + simpl. rewrite Hc. by inversion IH.
    + by inversion IH.
Qed.

Lemma strip_blank (s : string) : blank s = true → strip s = EmptyString.
Proof.
  unfold strip. induction s as [| c t IH]; [done |]. simpl.
  intros [-> Ht]%andb_true_iff. by apply IH.
Qed.

Lemma load_ai_tags_blank (text : string) :
  blank text = true → load_ai_tags (Some text) = [].
Proof.
  intros Hblank. unfold load_ai_tags.
  pose proof (readlines_blank _
                (blank_universal_newlines _ text (le_n _) Hblank)) as Hall.
  induction Hall as [| line rest Hline _ IH]; [done |].
  simpl. by rewrite (strip_blank line Hline).
Qed.

(** X15.  When [ai_tags.txt] is missing, empty or holds white space
    only, [run] returns at once: it sends no request to the host and
    applies no label, [ai-reviewed] included, whatever the status file
    says. *)
Theorem no_tags_no_request {S : Type} (h : Host S)
    (update : string -> S -> UpdateResponse * S)
    (tags_file : option string) (review_status : pydict)
    (ss : Session S) (result : Outcome * Session S) :
  tags_file = None ∨ (∃ text, tags_file = Some text ∧ blank text = true) →
  run h update tags_file review_status ss result →
  result = (NoTags, ss).
Proof.
  intros [-> | (text & -> & Hblank)]; unfold run.
  - done.
  - by rewrite load_ai_tags_blank.
Qed.

End TaggerLoop.

Section TaggerLoopSamples.
Import Json PySet Tagger TaggerRun Samples.

Lemma no_tags_sample :
  ∃ result,
    run gitlab (fun _ s => (UpdateStatus 200, s))
        (Some (TaggerRun.tags_text [])) [] one_label_session result
    ∧ result = (NoTags, one_label_session).
Proof.
  exists (NoTags, one_label_session).
  assert (Hrun : run gitlab (fun _ s => (UpdateStatus 200, s))
                   (Some (TaggerRun.tags_text [])) [] one_label_session
                   (NoTags, one_label_session)) by reflexivity.
  split; [exact Hrun |].
  apply (no_tags_no_request gitlab (fun _ s => (UpdateStatus 200, s))
           (Some (TaggerRun.tags_text [])) [] one_label_session
           (NoTags, one_label_session)); [| exact Hrun].
  right. by exists EmptyString.
Defined.

End TaggerLoopSamples.

(** ** The changelog entry *)

Section ChangelogEntry.
Import PyStr PySet Changelog Entries.

Lemma categorize_changes_in_categories (merge_info : MergeInfo) :
  categorize_changes merge_info ∈ categories.
Proof.
  unfold categorize_changes, categories. apply list_elem_of_In.
  repeat match goal with
  | |- context [if ?b then _ else _] => destruct b
  end; simpl; tauto.
Qed.

Lemma items_of_snoc (category : string) (done : list CommitInfo)
    (c : CommitInfo) :
  items_of category (done ++ [c])
  = items_of category done
    ++ (if String.eqb (categorize_changes (info c)) category
        then [change_item c] else []).
Proof.
  unfold items_of. rewrite List.filter_app, List.map_app. simpl.
  by destruct (String.eqb _ category).
Qed.

(** One step of the loop keeps the sections in the grouped form. *)
Lemma add_item_grouped (done : list CommitInfo) (c : CommitInfo) :
  add_item (categorize_changes (info c)) (change_item c) (grouped done)
  = Some (grouped (done ++ [c])).
Proof.
  pose proof (categorize_changes_in_categories (info c)) as Hcat.
  unfold grouped, section_titles. cbn [List.map fst snd].
  rewrite !items_of_snoc.
  apply list_elem_of_In in Hcat. unfold categories in Hcat. simpl in Hcat.
  repeat destruct Hcat as [<- | Hcat]; try done;
    cbn; by rewrite ?app_nil_r.
Qed.

Lemma collect_grouped (merge_commits done : list CommitInfo) :
  collect merge_commits (grouped done)
  = Some (grouped (done ++ merge_commits)).
Proof.
  revert done. induction merge_commits as [| c rest IH]; intros done.
  - by rewrite app_nil_r.
  - cbn [collect]. rewrite add_item_grouped, IH. by rewrite <- app_assoc.
Qed.

(** X16.  [generate_changelog_entry] never fails on a missing section.
    For a non-empty list of commits the entry is the date heading
    followed by the sections in their fixed order, each holding the
    items of the commits of its category in the order of the commits (a
    section without item is left out); so every commit appears once,
    under its own category.  For the empty list the entry is empty. *)
Theorem changelog_entry_grouped (today : string)
    (merge_commits : list CommitInfo) :
  generate_changelog_entry today [] = Some EmptyString
  ∧ (merge_commits ≠ [] →
     generate_changelog_entry today merge_commits
     = Some (("## [" +:+ today +:+ "]" +:+ nl +:+ nl)
             +:+ String.concat ""
                   (List.map
                      (fun entry =>
                         render_section (snd entry)
                           (items_of (fst entry) merge_commits))
                      section_titles))).
Proof.
  split; [done |]. intros Hne.
  destruct merge_commits as [| c rest]; [done |].
  unfold generate_changelog_entry.
  change empty_sections with (grouped []).
  rewrite collect_grouped. cbn [app].
  unfold grouped. by rewrite List.map_map.
Qed.

Lemma changelog_entry_body (today : string)
    (merge_commits : list CommitInfo) :
  merge_commits ≠ [] →
  ∃ body,
    generate_changelog_entry today merge_commits
    = Some (("## [" +:+ today +:+ "]" +:+ nl +:+ nl) +:+ body).
Proof.
  intros Hne. destruct merge_commits as [| c rest]; [done |].
  unfold generate_changelog_entry.
  change empty_sections with (grouped []).
  rewrite collect_grouped. by eexists.
Qed.

Lemma lstrip_heading (s : string) :
  TaggerRun.lstrip ("## [" +:+ s) = "## [" +:+ s.
Proof. reflexivity. Qed.

Lemma rstrip_nonempty (s : string) (c : ascii) :
  Re.is_space c = false → TaggerRun.rstrip (String c s) ≠ EmptyString.
Proof.
  intros Hc. simpl. destruct (TaggerRun.rstrip s); [by rewrite Hc | done].
Qed.

(** X17.  With at least one commit, [run] always rewrites the
    changelog: the entry starts with its date heading and so is never
    blank; the branch that reports that there is nothing to add is
    taken for no list of commits. *)
Theorem publish_always_writes (today : string) (existing : option string)
    (processed_commits : list CommitInfo) :
  processed_commits ≠ [] →
  ∃ changelog_entry,
    generate_changelog_entry today processed_commits = Some changelog_entry
    ∧ startswith changelog_entry "## " = true
    ∧ publish today existing processed_commits
      = Written (update_changelog_file existing changelog_entry).
Proof.
  intros Hne.
  destruct (changelog_entry_body today processed_commits Hne) as (body & Hgen).
  eexists. split; [exact Hgen |]. split; [reflexivity |].
  destruct processed_commits as [| c rest]; [done |].
  unfold publish. rewrite Hgen.
  destruct (String.eqb_spec
              (TaggerRun.strip ((("## [" +:+ today +:+ "]" +:+ nl +:+ nl)
                                 +:+ body)))
              EmptyString) as [Hblank | _]; [| done].
  exfalso. revert Hblank. unfold TaggerRun.strip.
  rewrite !append_assoc, lstrip_heading. by apply rstrip_nonempty.
Qed.

End ChangelogEntry.

Section ChangelogEntrySamples.
Import PyStr Entries Samples.

Lemma publish_always_writes_sample :
  ∃ changelog_entry,
    generate_changelog_entry "2024-03-01" [sample_commit]
    = Some changelog_entry
    ∧ startswith changelog_entry "## " = true
    ∧ publish "2024-03-01" None [sample_commit]
      = Written (update_changelog_file None changelog_entry).
Proof.
  apply (publish_always_writes "2024-03-01" None [sample_commit]).
  discriminate.
Defined.

End ChangelogEntrySamples.

(** ** The changelog file *)

Section ChangelogFile.
Import PyStr Entries.

Lemma split_on_nonempty (sep : ascii) (s : string) : split_on sep s ≠ [].
Proof.
  destruct s as [| c t]; [done |]. simpl.
  destruct (Ascii.eqb c sep); [done |]. by destruct (split_on sep t).
Qed.

Lemma join_lines_cons (l : string) (lines : list string) :
  lines ≠ [] → join_lines (l :: lines) = l +:+ nl +:+ join_lines lines.
Proof. intros Hne. by destruct lines. Qed.

Lemma join_lines_app (before after : list string) :
  before ≠ [] → after ≠ [] →
  join_lines (before ++ after)
  = join_lines before +:+ nl +:+ join_lines after.
Proof.
  intros Hb Ha. induction before as [| l rest IH]; [done |].
  destruct rest as [| l' rest].
  - simpl app. by rewrite join_lines_cons.
  - rewrite <- app_comm_cons.
    rewrite (join_lines_cons l), (join_lines_cons l (l' :: rest)) by done.
    rewrite IH by done. by rewrite !append_assoc.
Qed.

(** ['\n'.join(s.split('\n'))] is [s]. *)
Lemma join_split (s : string) : join_lines (split_on newline s) = s.
Proof.
  induction s as [| c t IH]; [done |]. simpl.
  pose proof (split_on_nonempty newline t) as Hne.
  destruct (Ascii.eqb_spec c newline) as [-> | Hc].
  - rewrite join_lines_cons by done. by rewrite IH.
  - destruct (split_on newline t) as [| h r]; [done |].
    destruct r as [| h' r].
    + change (join_lines [h]) with h in IH.
      change (join_lines [String c h]) with (String c h). by rewrite IH.
    + rewrite join_lines_cons by done.
      rewrite join_lines_cons in IH by done.
      rewrite <- IH. by rewrite append_cons.
Qed.

Lemma split_on_one_line (s : string) :
  Forall one_line (split_on newline s).
Proof.
  induction s as [| c t IH]; [by repeat constructor |]. simpl.
  destruct (Ascii.eqb_spec c newline) as [-> | Hc].
  - by constructor.
  - pose proof (split_on_nonempty newline t) as Hne.
    destruct (split_on newline t) as [| h r]; [done |].
    inversion IH; subst. constructor; [| done].
    unfold one_line in *. simpl.
    destruct (Ascii.eqb_spec c newline); [done | by simpl].
Qed.

Lemma split_on_line (l rest : string) :
  one_line l →
  split_on newline (l +:+ nl +:+ rest) = l :: split_on newline rest.
Proof.
  unfold one_line. induction l as [| c t IH]; intros Hl; [done |].
  simpl in Hl. apply orb_false_iff in Hl as [Hc Ht].
  rewrite append_cons. simpl. rewrite Hc. by rewrite IH.
Qed.

Lemma split_on_single (l : string) :
  one_line l → split_on newline l = [l].
Proof.
  unfold one_line. induction l as [| c t IH]; intros Hl; [done |].
  simpl in Hl. apply orb_false_iff in Hl as [Hc Ht].
  simpl. rewrite Hc. by rewrite IH.
Qed.

(** [('\n'.join(lines)).split('\n')] is [lines], for lines that hold no
    line break. *)
Lemma split_join (lines : list string) :
  lines ≠ [] → Forall one_line lines →
  split_on newline (join_lines lines) = lines.
Proof.
  intros Hne Hall. induction Hall as [| l rest Hl Hrest IH]; [done |].
  destruct rest as [| l' rest]; [by apply split_on_single |].
  rewrite join_lines_cons by done.
  rewrite split_on_line by done. by rewrite IH.
Qed.

Lemma header_end_le (lines : list string) :
  header_end lines ≤ length lines.
Proof.
  induction lines as [| l rest IH]; [done |]. simpl.
  destruct (is_release l); simpl; lia.
Qed.

Lemma header_end_take (lines : list string) :
  Forall (fun l => is_release l = false) (firstn (header_end lines) lines).
Proof.
  induction lines as [| l rest IH]; [constructor |]. simpl.
  destruct (is_release l) eqn:Hl; [constructor |]. by constructor.
Qed.

Lemma header_end_drop (lines : list string) (l : string) :
  head (skipn (header_end lines) lines) = Some l → is_release l = true.
Proof.
  induction lines as [| l' rest IH]; [done |]. simpl.
  destruct (is_release l') eqn:Hl; simpl; [congruence | done].
Qed.


Lemma header_end_none (lines : list string) :
  Forall (fun l => is_release l = false) lines →
  header_end lines = length lines.
Proof.
  induction 1 as [| l rest Hl Hrest IH]; [done |]. simpl.
  by rewrite Hl, IH.
Qed.

(** The lines of the file that [update_changelog_file] writes. *)
Lemma update_changelog_file_lines (existing : option string)
    (new_entry : string) :
  let lines := split_on newline (default default_header existing) in
  let h := header_end lines in
  split_on newline (update_changelog_file existing new_entry)
  = firstn h lines ++ split_on newline new_entry ++ skipn h lines.
Proof.
  intros lines h. unfold update_changelog_file. fold lines. fold h.
  apply split_join.
  - intros Hnil. apply app_eq_nil in Hnil as [_ Hnil].
    apply app_eq_nil in Hnil as [Hnil _].
    by apply split_on_nonempty in Hnil.
  - rewrite !Forall_app. split_and!.
    + apply Forall_take, split_on_one_line.
    + apply split_on_one_line.
    + apply Forall_drop, split_on_one_line.
Qed.

(** X18.  [update_changelog_file] loses nothing of the changelog it
    read: the lines it writes are the old lines with the lines of the
    new entry put in before the first line that starts with [## ], and
    after the last line when there is none; in that case, and when the
    file did not exist, the text written is the old text (the default
    header for a missing file), a line break and the entry. *)
Theorem changelog_update_keeps_lines (existing : option string)
    (new_entry : string) :
  let existing_content := default default_header existing in
  let lines := split_on newline existing_content in
  let h := header_end lines in
  split_on newline (update_changelog_file existing new_entry)
  = firstn h lines ++ split_on newline new_entry ++ skipn h lines
  ∧ Forall (fun l => is_release l = false) (firstn h lines)
  ∧ (∀ l, head (skipn h lines) = Some l → is_release l = true)
  ∧ (Forall (fun l => is_release l = false) lines →
     update_changelog_file existing new_entry
     = existing_content +:+ nl +:+ new_entry)
  ∧ update_changelog_file None new_entry
    = default_header +:+ nl +:+ new_entry.
Proof.
  intros existing_content lines h. split_and!.
  - apply update_changelog_file_lines.
  - apply header_end_take.
  - apply header_end_drop.
  - intros Hnone. unfold update_changelog_file.
    fold existing_content. fold lines.
    rewrite (header_end_none lines Hnone).
    rewrite firstn_all, skipn_all, app_nil_r.
    rewrite join_lines_app by apply split_on_nonempty.
    unfold lines. by rewrite !join_split.
  - unfold update_changelog_file. simpl default.
    change (header_end (split_on newline default_header)) with 5.
    change (split_on newline default_header)
      with ["# Changelog"; EmptyString;
            "All notable changes to this project will be documented in this file.";
            EmptyString; EmptyString].
    cbn [firstn skipn]. rewrite app_nil_r.
    rewrite join_lines_app by (done || apply split_on_nonempty).
    by rewrite join_split.
Qed.






End ChangelogFile.

(** ** The summary report and the commits of the last days *)

Section SummaryReport.
Import PyStr Changelog Entries.

Lemma count_of_cons (category : string) (c : CommitInfo)
    (rest : list CommitInfo) :
  count_of category (c :: rest)
  = (if String.eqb (categorize_changes (info c)) category then 1 else 0)
    + count_of category rest.
Proof.
  unfold count_of. simpl.
  by destruct (String.eqb (categorize_changes (info c)) category).
Qed.

(** The counting loop, from any dictionary it starts with. *)
Lemma count_fold (merge_commits : list CommitInfo)
    (counts : gmap string nat) (category : string) :
  List.fold_left
    (fun counts commit_info =>
       let category := categorize_changes (info commit_info) in
       <[category := default 0 (counts !! category) + 1]> counts)
    merge_commits counts !! category
  = match count_of category merge_commits with
    | 0 => counts !! category
    | S n => Some (default 0 (counts !! category) + S n)
    end.
Proof.
  revert counts. induction merge_commits as [| c rest IH]; intros counts.
  - done.
  - cbn [List.fold_left]. rewrite IH, count_of_cons.
    destruct (String.eqb_spec (categorize_changes (info c)) category)
      as [-> | Hne].
    + rewrite lookup_insert_eq. simpl.
      destruct (count_of category rest); f_equal; lia.
    + by rewrite lookup_insert_ne.
Qed.

Lemma count_categories_lookup (merge_commits : list CommitInfo)
    (category : string) :
  count_categories merge_commits !! category
  = match count_of category merge_commits with
    | 0 => None
    | S n => Some (S n)
    end.
Proof.
  unfold count_categories. rewrite count_fold, lookup_empty.
  by destruct (count_of category merge_commits).
Qed.

Lemma count_of_pos (category : string) (merge_commits : list CommitInfo) :
  0 < count_of category merge_commits → category ∈ categories.
Proof.
  induction merge_commits as [| c rest IH]; [unfold count_of; simpl; lia |].
  rewrite count_of_cons.
  destruct (String.eqb_spec (categorize_changes (info c)) category)
    as [<- | Hne]; [intros _; apply categorize_changes_in_categories |].
  simpl. done.
Qed.

Lemma count_of_total (merge_commits : list CommitInfo) :
  sum_list (List.map (fun k => count_of k merge_commits) categories)
  = length merge_commits.
Proof.
  induction merge_commits as [| c rest IH]; [done |].
  cbn [length]. rewrite <- IH. unfold categories. cbn [List.map sum_list].
  rewrite !count_of_cons.
  pose proof (categorize_changes_in_categories (info c)) as Hcat.
  apply list_elem_of_In in Hcat. unfold categories in Hcat. simpl in Hcat.
  repeat destruct Hcat as [<- | Hcat]; try done; cbn; lia.
Qed.

Lemma size_list_to_set_le (l : list string) :
  size (list_to_set l : gset string) ≤ length l.
Proof.
  induction l as [| x l IH]; [by rewrite list_to_set_nil, size_empty |].
  rewrite list_to_set_cons, size_union_alt, size_singleton. cbn [length].
  assert (size (list_to_set l ∖ {[x]} : gset string)
          ≤ size (list_to_set l : gset string)).
  { apply subseteq_size. apply subseteq_difference_l. done. }
  lia.
Qed.

(** X20.  The report [create_summary_report] writes agrees with the
    commits it lists: a category is a key of [categories] exactly when a
    commit falls in it, with the number of these commits as its value;
    the keys are among the nine categories and the values add up to
    [total_commits]; [unique_authors] is at most [total_commits] and at
    least one when there is a commit. *)
Theorem summary_report_consistent (merge_commits : list CommitInfo) :
  let counts := count_categories merge_commits in
  (∀ category n,
     counts !! category = Some n
     ↔ n = count_of category merge_commits ∧ 0 < n)
  ∧ (∀ category, is_Some (counts !! category) → category ∈ categories)
  ∧ sum_list (List.map (fun k => default 0 (counts !! k)) categories)
    = length merge_commits
  ∧ unique_authors (stats merge_commits) ≤ length merge_commits
  ∧ (merge_commits ≠ [] → 1 ≤ unique_authors (stats merge_commits)).
Proof.
  intros counts. split_and!.
  - intros category n. unfold counts. rewrite count_categories_lookup.
    destruct (count_of category merge_commits) as [| m].
    + split; [done | lia].
    + split; [intros [= <-]; lia | by intros [-> _]].
  - intros category [n Hn]. unfold counts in Hn.
    rewrite count_categories_lookup in Hn.
    apply (count_of_pos category merge_commits).
    destruct (count_of category merge_commits); [done | lia].
  - rewrite <- count_of_total. f_equal. apply List.map_ext. intros k.
    unfold counts. rewrite count_categories_lookup.
    by destruct (count_of k merge_commits).
  - unfold stats. cbn [unique_authors].
    etrans; [apply size_list_to_set_le |]. by rewrite length_map.
  - intros Hne. destruct merge_commits as [| c rest]; [done |].
    unfold stats. cbn [unique_authors List.map].
    rewrite list_to_set_cons, size_union_alt, size_singleton. lia.
Qed.

(** X21.  [get_recent_merge_commits] finds nothing on the first [days]
    days of a month, whatever the repository holds: the day of the
    month less [days] is no day of the month, [replace] raises, and the
    handler returns the empty list.  [run] asks for one day, so on the
    first of a month it reports that there is no recent merge commit. *)
Theorem no_recent_commits_at_month_start {Commit : Type}
    (iter_commits : Date -> option (list Commit))
    (today : Date) (days : Z) :
  (day today <= days)%Z →
  get_recent_merge_commits iter_commits today days = [].
Proof.
  intros Hday. unfold get_recent_merge_commits, replace_day.
  destruct (Z.leb_spec 1 (day today - days)) as [Hle | _]; [lia | done].
Qed.

Lemma no_recent_commits_sample :
  get_recent_merge_commits
    (fun _ => Some ["Merge branch 'feature' into 'main'"])
    {| year := 2024; month := 3; day := 1 |} 1
  = [].
Proof.
  apply (no_recent_commits_at_month_start
           (fun _ => Some ["Merge branch 'feature' into 'main'"])
           {| year := 2024; month := 3; day := 1 |} 1).
  simpl. lia.
Defined.

End SummaryReport.

(** ** What the tagger applies, on any host *)

Section TaggerSafety.
Import Json PySet Tagger TaggerRun.

Lemma create_labels_sublist {S : Type} (h : Host S)
    (final_tags : list string) (ss : Session S) :
  sublist (fst (create_labels h final_tags ss)) final_tags.
Proof.
  revert ss. induction final_tags as [| tag rest IH]; intros ss; [done |].
  cbn [create_labels].
  destruct (create_label_if_needed h tag (label_color tag) ss) as [ok ss1].
  specialize (IH ss1).
  destruct (create_labels h rest ss1) as [created ss2]. simpl in *.
  destruct ok; by constructor.
Qed.

(** One call of [create_label_if_needed] sends one listing, and after
    it at most one creation. *)
Lemma create_label_if_needed_requests {S : Type} (h : Host S)
    (label_name color : string) (ss : Session S) :
  ∃ sent,
    requests (snd (create_label_if_needed h label_name color ss))
    = requests ss ++ sent
    ∧ length (List.filter (fun r => negb (is_create r)) sent) = 1
    ∧ length (List.filter is_create sent) ≤ 1.
Proof.
  unfold create_label_if_needed, get_existing_labels.
  destruct (list_labels h (host_state ss)) as [response s'].
  destruct response as [names |]; simpl.
  - destruct (str_in label_name names).
    + exists [ListLabels]. simpl. split_and!; [done | done | lia].
    + destruct (create_label h label_name color s') as [response s''].
      exists [ListLabels; CreateLabel label_name color].
      destruct response; simpl; by rewrite <- app_assoc.
  - destruct (create_label h label_name color s') as [response s''].
    exists [ListLabels; CreateLabel label_name color].
    destruct response; simpl; by rewrite <- app_assoc.
Qed.

Lemma create_labels_requests {S : Type} (h : Host S)
    (final_tags : list string) (ss : Session S) :
  ∃ sent,
    requests (snd (create_labels h final_tags ss)) = requests ss ++ sent
    ∧ length (List.filter (fun r => negb (is_create r)) sent)
      = length final_tags
    ∧ length (List.filter is_create sent) ≤ length final_tags.
Proof.
  revert ss. induction final_tags as [| tag rest IH]; intros ss.
  - exists []. simpl. by rewrite app_nil_r.
  - cbn [create_labels].
    destruct (create_label_if_needed_requests h tag (label_color tag) ss)
      as (sent1 & Hsent1 & Hlist1 & Hcreate1).
    destruct (create_label_if_needed h tag (label_color tag) ss) as [ok ss1].
    destruct (IH ss1) as (sent2 & Hsent2 & Hlist2 & Hcreate2).
    destruct (create_labels h rest ss1) as [created ss2]. simpl in *.
    exists (sent1 ++ sent2). rewrite Hsent2, Hsent1, <- app_assoc.
    rewrite !List.filter_app, !length_app. cbn [length]. split_and!; [done | lia | lia].
Qed.

(** X22.  Whatever the host answers, [run] applies to the merge request
    only labels it derived: the list it sends is not empty, names no
    label twice, and each label is a tag read from [ai_tags.txt] or one
    of the six status tags.  The requests already sent stay in the log;
    the run adds one listing of the labels for every tag it handles,
    and never more creation calls than listings. *)
Theorem run_applies_derived_labels {S : Type} (h : Host S)
    (update : string -> S -> UpdateResponse * S)
    (tags_file : option string) (review_status : pydict)
    (ss : Session S) (result : Outcome * Session S) :
  run h update tags_file review_status ss result →
  (∀ labels success,
     fst result = Applied labels success →
     labels ≠ [] ∧ NoDup labels
     ∧ ∀ tag, tag ∈ labels →
         tag ∈ load_ai_tags tags_file ∨ tag ∈ status_tags)
  ∧ ∃ sent,
      requests (snd result) = requests ss ++ sent
      ∧ length (List.filter is_create sent)
        ≤ length (List.filter (fun r => negb (is_create r)) sent).
Proof.
  unfold run. intros Hrun.
  destruct (load_ai_tags tags_file) as [| tag0 ai_tags] eqn:Hload.
  { subst result. split; [done |]. exists []. simpl. by rewrite app_nil_r. }
  destruct (enhanced_tags (tag0 :: ai_tags) review_status) as [tags |]
    eqn:Htags.
  2: { subst result. split; [done |]. exists []. simpl. by rewrite app_nil_r. }
  destruct Hrun as (final_tags & Henum & ->).
  assert (Hout : enhance_tags_with_context (tag0 :: ai_tags) review_status
                   final_tags) by (by exists tags).
  pose proof (create_labels_sublist h final_tags ss) as Hsub.
  destruct (create_labels_requests h final_tags ss)
    as (sent & Hsent & Hlist & Hcreate).
  unfold apply_tags.
  destruct (create_labels h final_tags ss) as [created ss1]. simpl in *.
  destruct created as [| label created].
  - split; [done |]. exists sent. split; [done | lia].
  - unfold apply_labels_to_mr.
    destruct (update _ (host_state ss1)) as [response s'].
    split.
    + intros labels success Heq.
      assert (labels = label :: created) as ->
        by (destruct response; simpl in Heq; congruence).
      split; [done |]. split.
      * destruct Henum as [Hnd _]. by eapply sublist_NoDup.
      * intros tag Htag.
        assert (Hin : tag ∈ final_tags).
        { by eapply elem_of_sublist. }
        destruct Hout as (tags' & Htags' & Henum').
        rewrite Htags in Htags'. injection Htags' as <-.
        apply (tag_in_enumeration _ _ tag) in Henum'.
        apply Henum' in Hin. clear Henum'.
        unfold enhanced_tags in Htags.
        destruct (py_gt (status_get "security_issues" _) 0) as [security |];
          [| done].
        destruct (py_gt (status_get "high_severity_issues" _) 0) as [high |];
          [| done].
        destruct (py_gt (status_get "total_issues" _) 10) as [many |];
          [| done].
        injection Htags as <-. revert Hin. unfold status_tags.
        rewrite (elem_of_cons _ tag tag0), !elem_of_app.
        rewrite (elem_of_cons ai_tags tag tag0).
        destruct security, high, many;
          repeat case_match;
          rewrite ?elem_of_cons, ?elem_of_nil; intuition (subst; auto).
    + exists sent. destruct response; simpl; (split; [done | lia]).
Qed.

End TaggerSafety.

Section TaggerSafetySamples.
Import Json PySet Tagger TaggerRun Samples.

Lemma run_applies_sample :
  ∃ result,
    run gitlab (fun _ s => (UpdateStatus 500, s))
        (Some "python") [] one_label_session result
    ∧ fst result
      = Applied ["python"; "ready-for-review"; "ai-reviewed"; "clean-code"]
                false
    ∧ NoDup ["python"; "ready-for-review"; "ai-reviewed"; "clean-code"].
Proof.
  exists (apply_tags gitlab (fun _ s => (UpdateStatus 500, s))
            ["python"; "ready-for-review"; "ai-reviewed"; "clean-code"]
            one_label_session).
  assert (Hrun : run gitlab (fun _ s => (UpdateStatus 500, s))
                   (Some "python") [] one_label_session
                   (apply_tags gitlab (fun _ s => (UpdateStatus 500, s))
                      ["python"; "ready-for-review"; "ai-reviewed";
                       "clean-code"]
                      one_label_session)).
  { exists ["python"; "ready-for-review"; "ai-reviewed"; "clean-code"].
    split; [| reflexivity]. split.
    - apply (bool_decide_unpack _). by vm_compute.
    - intros x. rewrite elem_of_list_to_set. reflexivity. }
  split; [exact Hrun |]. split; [reflexivity |].
  exact (proj1 (proj2 (proj1 (run_applies_derived_labels gitlab
                                (fun _ s => (UpdateStatus 500, s))
                                (Some "python") [] one_label_session _ Hrun)
                         ["python"; "ready-for-review"; "ai-reviewed";
                          "clean-code"]
                         false eq_refl))).
Defined.

End TaggerSafetySamples.

(** ** The inline comments of [scripts/review_pr.py] *)

Section InlineComments.
Import Json InlineRun.

Lemma omap_target_strings {A : Type} (f : A -> string) (l : list A) :
  omap target (List.map (fun x => JStr (f x)) l) = [].
Proof. induction l as [| x l IH]; [done |]. simpl. exact IH. Qed.

Lemma length_omap_le {A B : Type} (f : A -> option B) (l : list A) :
  length (omap f l) ≤ length l.
Proof.
  induction l as [| x l IH]; [done |]. simpl.
  change (list_omap A B f l) with (omap f l).
  destruct (f x); simpl; lia.
Qed.

(** X23.  [main] posts inline comments only for a reply that is a JSON
    array: each comment then comes from an element that is an object
    with a true [file] and a true [line], in the order of the array.
    For a reply that is a JSON object, even one that holds the
    suggestions next to [pr_summary] and [changelog_entry], or a JSON
    string, the loop runs over keys or characters and posts nothing; a
    number, a truth value or [null] raises, and the script exits with
    code 1. *)
Theorem inline_comments_need_array (ai_response : json) :
  match ai_response with
  | JArr suggestions =>
      ∃ comments,
        inline_comments ai_response = Some comments
        ∧ length comments ≤ length suggestions
        ∧ ∀ c, c ∈ comments →
            JObj (ic_suggestion c) ∈ suggestions
            ∧ dict_get "file" (ic_suggestion c) = Some (ic_file c)
            ∧ dict_get "line" (ic_suggestion c) = Some (ic_line c)
            ∧ truthy (ic_file c) = true ∧ truthy (ic_line c) = true
  | JObj _ | JStr _ => inline_comments ai_response = Some []
  | _ => inline_comments ai_response = None
  end.
Proof.
  destruct ai_response as [| b | z | q | s | suggestions | kv]; try done.
  - unfold inline_comments. simpl.
    by rewrite (omap_target_strings (fun c => String c EmptyString)).
  - exists (omap target suggestions). split; [done |].
    split; [apply length_omap_le |].
    intros c Hc. apply list_elem_of_omap in Hc as (suggestion & Hin & Htarget).
    destruct suggestion as [| | | | | | d]; try done. simpl in Htarget.
    destruct (dict_get "file" d) as [file |] eqn:Hfile; [| done].
    destruct (dict_get "line" d) as [line |] eqn:Hline; [| done].
    destruct (truthy file) eqn:Hf; [| done].
    destruct (truthy line) eqn:Hl; [| done].
    injection Htarget as <-. simpl. by rewrite Hfile, Hline.
  - unfold inline_comments. simpl.
    by rewrite (omap_target_strings fst).
Qed.

End InlineComments.

(** ** A run none of whose reviews succeeds, up to the labels *)

Section FailedRun.
Import Json PySet Reviewer Pipeline Tagger TaggerRun.

(** A review that does not succeed records an error. *)
Lemma review_file_failed_error (w : World) (st : SmartCodeReviewer)
    (file_path : string) :
  no_review_succeeds w →
  is_Some (dict_get "error" (fst (review_file w st file_path))).
Proof.
  intros Hfail. unfold review_file.
  destruct (fs_read w file_path) as [[| c content] |]; try by eexists.
  destruct (git_diff w file_path) as [[| c' diff] |]; try by eexists.
  specialize (Hfail (create_review_prompt file_path (String c' diff)
                       (String c content))).
  destruct (generate_content w _) as [text | message]; [| by eexists].
  destruct (json_loads w text) as [[] |] eqn:Hloads; try by eexists.
  by destruct (Hfail kv).
Qed.

(** The tags [save_results] writes are storable. *)
Lemma determine_tags_storable (st : SmartCodeReviewer)
    (file_changes : list pydict) (tags : list string) :
  determine_tags st file_changes = Some tags → Forall storable tags.
Proof.
  unfold determine_tags, tag_set.
  destruct (file_tags file_changes) as [ftags |] eqn:Hf; [| done].
  intros [= <-]. apply Forall_forall. intros tag.
  rewrite py_sorted_elem_of, elem_of_elements, elem_of_union.
  intros Htag.
  assert (Hvoc : tag ∈ tag_vocabulary).
  { destruct Htag; [by eapply file_tags_in_vocabulary
                   | by eapply result_tags_in_vocabulary]. }
  pose proof vocabulary_storable as Hall.
  rewrite Forall_forall in Hall. apply Hall, elem_of_app. by left.
Qed.

(** On a project that answers every request, [run] of the tagger
    applies every tag of the list it built. *)
Lemma tagger_run_gitlab (update : string -> list (string * string)
                                  -> UpdateResponse * list (string * string))
    (tags : list string) (review_status : pydict)
    (ss : Session (list (string * string)))
    (result : Outcome * Session (list (string * string))) :
  Forall storable tags → tags ≠ [] →
  TaggerRun.run gitlab update (Some (tags_text tags)) review_status ss result →
  enhanced_tags tags review_status = None
  ∨ ∃ out success,
      enhance_tags_with_context tags review_status out
      ∧ fst result = Applied out success.
Proof.
  intros Hstorable Hne. unfold TaggerRun.run.
  rewrite (load_ai_tags_tags_text tags Hstorable).
  destruct tags as [| tag0 tags]; [done |].
  destruct (enhanced_tags (tag0 :: tags) review_status) as [collected |]
    eqn:Hcollected; [| intros _; by left].
  intros (final_tags & Henum & ->). right.
  assert (Hout : enhance_tags_with_context (tag0 :: tags) review_status
                   final_tags) by (by exists collected).
  unfold apply_tags. destruct ss as [labels log].
  destruct (create_labels_gitlab final_tags labels log)
    as (added & log' & -> & _).
  destruct final_tags as [| label final_tags].
  { destruct Henum as [_ Hin].
    assert (Hai : tag0 ∈ (list_to_set collected : gset string)).
    { apply elem_of_list_to_set. unfold enhanced_tags in Hcollected.
      repeat case_match; try done; injection Hcollected as <-;
        rewrite <- !app_assoc; apply list_elem_of_here. }
    apply Hin in Hai. by apply elem_of_nil in Hai. }
  unfold apply_labels_to_mr. simpl.
  destruct (update _ (labels ++ added)) as [response s'].
  destruct response; simpl; by eexists _, _.
Qed.

(** X13.  A run in which at least one file is reviewed and no review
    succeeds (for every file the model raises, or answers something
    that is not a JSON object) still saves its files, with a status
    that counts no issue, and every list of tags the tagger builds from
    them holds [ready-for-review] and [clean-code].  So when the saved
    list of tags is not empty, the tagger applies these two labels to
    the merge request on a project that answers every request; when it
    is empty, the tagger returns without a label, on any host. *)
Theorem failed_reviews_labelled_clean (w : World) (st : SmartCodeReviewer) :
  review_results st = [] → no_review_succeeds w →
  get_changed_files w (config st) ≠ [] →
  ∃ artifacts,
    snd (Reviewer.run w st) = Saved artifacts
    ∧ total_issues (ai_review_status artifacts) = 0
    ∧ (∀ out,
         enhance_tags_with_context (ai_tags artifacts)
           (status_json (ai_review_status artifacts)) out →
         "ready-for-review" ∈ out ∧ "clean-code" ∈ out)
    ∧ (ai_tags artifacts ≠ [] →
       ∀ update ss result,
         TaggerRun.run gitlab update
           (Some (tags_text (ai_tags artifacts)))
           (status_json (ai_review_status artifacts)) ss result →
         ∃ labels success,
           fst result = Applied labels success
           ∧ "ready-for-review" ∈ labels ∧ "clean-code" ∈ labels)
    ∧ (ai_tags artifacts = [] →
       ∀ (S : Type) (h : Host S) update ss result,
         TaggerRun.run h update
           (Some (tags_text (ai_tags artifacts)))
           (status_json (ai_review_status artifacts)) ss result →
         result = (NoTags, ss)).
Proof.
  intros Hfresh Hfail Hfiles.
  set (st' := run_reviews w st).
  assert (Hresults : ∀ r, r ∈ review_results st' →
            ∃ f, r = fst (review_file w st f)).
  { intros r [Hr | (f & _ & ->)]%review_all_result_origin; [| by exists f].
    rewrite Hfresh in Hr. by apply elem_of_nil in Hr. }
  destruct (counts_without_issues (review_results st')) as [Htotal Hhigh].
  { apply Forall_forall. intros r (f & ->)%Hresults.
    by apply review_file_without_issues. }
  destruct (file_tags_defined (review_results st')) as [ftags Hf].
  { intros r (f & ->)%Hresults. unfold change_file.
    rewrite review_file_names_file. by eexists. }
  assert (Htags : determine_tags st' (review_results st')
                  = Some (py_sorted (elements (ftags ∪ result_tags st')))).
  { unfold determine_tags, tag_set. by rewrite Hf. }
  assert (Hcomment : create_summary_comment_returns (review_results st')
                     = true).
  { unfold create_summary_comment_returns. rewrite Htotal, Hhigh.
    apply forallb_forall. intros r Hr%list_elem_of_In.
    destruct (Hresults r Hr) as (f & ->). unfold review_section_built.
    rewrite review_file_names_file.
    by destruct (review_file_failed_error w st f Hfail) as [e ->]. }
  assert (Hsave : ∃ artifacts,
            save_results st' = Some artifacts
            ∧ ai_tags artifacts
              = py_sorted (elements (ftags ∪ result_tags st'))
            ∧ ai_review_status artifacts
              = {| total_files := length (review_results st');
                   total_issues := 0;
                   high_severity_issues := 0;
                   security_issue_count := length (security_issues st');
                   overall_status := overall_status_of st' |}).
  { eexists. split.
    - unfold save_results, save_results_status.
      rewrite Htotal, Hhigh. simpl. by rewrite Htags.
    - split; reflexivity. }
  destruct Hsave as (artifacts & Hsave & Htagseq & Hstatuseq).
  assert (Hlabels : ∀ out,
            enhance_tags_with_context
              (py_sorted (elements (ftags ∪ result_tags st')))
              (status_json
                 {| total_files := length (review_results st');
                    total_issues := 0;
                    high_severity_issues := 0;
                    security_issue_count := length (security_issues st');
                    overall_status := overall_status_of st' |}) out →
            "ready-for-review" ∈ out ∧ "clean-code" ∈ out).
  { intros out Hout.
    destruct (saved_tags_status_tags _ _ _ Htags) as [_ Hother].
    destruct (enhance_counts_iff _ out _ Hother Hout) as (_ & _ & H3 & H4 & _).
    simpl in H3, H4. split; [by apply H3 | by apply H4]. }
  exists artifacts. rewrite Htagseq, Hstatuseq. split.
  { unfold Reviewer.run.
    destruct (get_changed_files w (config st)) as [| file files] eqn:Hchanged;
      [done |].
    assert (Hst : review_all w st (file :: files) = st').
    { unfold st', run_reviews. by rewrite Hchanged. }
    rewrite Hst, Hsave.
    destruct (review_results st') as [| review reviews] eqn:Hreviews;
      [done |].
    unfold post_review_comment_returns. rewrite Hcomment.
    by rewrite orb_true_r. }
  simpl. split; [done |]. split; [exact Hlabels |]. split.
  - intros Hne update ss result Hrun.
    destruct (tagger_run_gitlab update _ _ ss result
                (determine_tags_storable _ _ _ Htags) Hne Hrun)
      as [Hnone | (out & success & Hout & Hres)].
    + by rewrite (enhanced_tags_counts _
                    (status_json
                       {| total_files := length (review_results st');
                          total_issues := 0;
                          high_severity_issues := 0;
                          security_issue_count :=
                            length (security_issues st');
                          overall_status := overall_status_of st' |})
                    (Z.of_nat (length (security_issues st'))) 0 0
                    eq_refl eq_refl eq_refl) in Hnone.
    + exists out, success. split; [done |]. by apply Hlabels.
  - intros Hnil S h update ss result. rewrite Hnil. unfold TaggerRun.run.
    by rewrite (load_ai_tags_tags_text [] (List.Forall_nil _)).
Qed.

End FailedRun.

Section FailedRunSamples.
Import Json PySet Reviewer Pipeline Tagger TaggerRun Samples.

Lemma failed_reviews_sample :
  ∃ artifacts,
    snd (Reviewer.run offline_world fresh_reviewer) = Saved artifacts
    ∧ total_issues (ai_review_status artifacts) = 0
    ∧ (∀ out,
         enhance_tags_with_context (ai_tags artifacts)
           (status_json (ai_review_status artifacts)) out →
         "ready-for-review" ∈ out ∧ "clean-code" ∈ out)
    ∧ (ai_tags artifacts ≠ [] →
       ∀ update ss result,
         TaggerRun.run gitlab update
           (Some (tags_text (ai_tags artifacts)))
           (status_json (ai_review_status artifacts)) ss result →
         ∃ labels success,
           fst result = Applied labels success
           ∧ "ready-for-review" ∈ labels ∧ "clean-code" ∈ labels)
    ∧ (ai_tags artifacts = [] →
       ∀ (S : Type) (h : Host S) update ss result,
         TaggerRun.run h update
           (Some (tags_text (ai_tags artifacts)))
           (status_json (ai_review_status artifacts)) ss result →
         result = (NoTags, ss)).
Proof.
  apply (failed_reviews_labelled_clean offline_world fresh_reviewer eq_refl).
  - intros prompt. exact I.
  - vm_compute. discriminate.
Defined.

End FailedRunSamples.
